(** * BankingApp: the ledger engine of [server/storage.ts] and [server/routes.ts]

    A shallow embedding of the in-memory store ([MemStorage]) and of the
    Express route handlers that move money, register users and edit
    profiles, followed by the properties of the ledger specification.

    Conventions.
    - A JavaScript [number] is an abstract carrier with the operations the
      server uses ([+], unary [-], [<], [parseFloat], [isNaN]); the class
      [JSNumber] is that interface.  It is read in two ways: [Cents], exact
      decimal arithmetic on an integer number of cents, and [Binary64], the
      IEEE 754 double of the JavaScript runtime.  The store and the handlers
      are written once, over the interface.
    - A JavaScript [Map] is an association list in insertion order.
    - [new Date()] and [randomBytes] read the outside world; their results
      are arguments of the operations that call them.
    - An [async] method call followed by [await] is one atomic step of the
      event loop; handlers are written in the monad [Async] whose [Await]
      nodes are exactly the [await]s of the source. *)

From Stdlib Require Import ZArith List String Ascii Bool Lia.
From Stdlib Require Import Permutation Sorting.Sorted.
From Stdlib Require Import Floats.SpecFloat.
Import ListNotations.
Open Scope Z_scope.

Set Implicit Arguments.

(** ** JavaScript numbers *)

Class JSNumber : Type := {
  num : Type;
  fromInt : Z -> num;            (* an integer literal such as [2500.00] *)
  add : num -> num -> num;       (* [a + b] *)
  neg : num -> num;              (* [-a] *)
  ltb : num -> num -> bool;      (* [a < b] *)
  parseFloat : string -> num;
  isNaN : num -> bool
}.

(** ** JavaScript [Map], iterated in insertion order *)

Section JSMap.
Variable V : Type.

Definition JSMap := list (Z * V).

Fixpoint map_get (m : JSMap) (k : Z) : option V :=
  match m with
  | [] => None
  | (k', v) :: m' => if k' =? k then Some v else map_get m' k
  end.

(* [Map.prototype.set]: an existing key keeps its position. *)
Fixpoint map_set (m : JSMap) (k : Z) (v : V) : JSMap :=
  match m with
  | [] => [(k, v)]
  | (k', v') :: m' =>
      if k' =? k then (k, v) :: m' else (k', v') :: map_set m' k v
  end.

Definition map_values (m : JSMap) : list V := map snd m.
End JSMap.

Arguments map_get {V} m k.
Arguments map_set {V} m k v.
Arguments map_values {V} m.

(** ** [Array.prototype.sort]

    ECMAScript 2019 requires the sort to be stable; for a consistent
    comparator the result is the one stable arrangement in which [compareFn]
    is never positive on an ordered pair.  Insertion from the right computes
    it: an element moves past exactly those it must follow. *)

Section ArraySort.
Variable A : Type.
Variable compareFn : A -> A -> Z.

Fixpoint sort_insert (x : A) (l : list A) : list A :=
  match l with
  | [] => [x]
  | y :: l' =>
      if 0 <? compareFn x y then y :: sort_insert x l' else x :: y :: l'
  end.

Fixpoint Array_sort (l : list A) : list A :=
  match l with
  | [] => []
  | x :: l' => sort_insert x (Array_sort l')
  end.
End ArraySort.

(** ** The data model ([shared/schema.ts]) and the store ([server/storage.ts]) *)

Section Storage.
Context {N : JSNumber}.

Record User : Type := {
  user_id : Z;
  firstName : string;
  lastName : string;
  email : string;
  password : string;
  phone : option string;
  address : option string
}.

Record InsertUser : Type := {
  iu_firstName : string;
  iu_lastName : string;
  iu_email : string;
  iu_password : string;
  iu_phone : option string;
  iu_address : option string
}.

(* [Partial<User>]: the fields a caller of [updateUser] may supply. *)
Record PartialUser : Type := {
  pu_firstName : option string;
  pu_lastName : option string;
  pu_email : option string;
  pu_password : option string;
  pu_phone : option string;
  pu_address : option string
}.

Record Account : Type := {
  account_id : Z;
  account_userId : Z;
  account_type : string;
  accountNumber : string;
  balance : num;
  createdAt : Z
}.

Record InsertAccount : Type := {
  ia_userId : Z;
  ia_type : string;
  ia_accountNumber : string;
  ia_balance : num
}.

Record Transaction : Type := {
  tx_id : Z;
  tx_userId : Z;
  tx_accountId : Z;
  tx_type : string;
  amount : num;
  description : string;
  date : Z;
  toAccountId : option Z
}.

Record InsertTransaction : Type := {
  it_userId : Z;
  it_accountId : Z;
  it_type : string;
  it_amount : num;
  it_description : string;
  it_toAccountId : option Z
}.

Record MemStorage : Type := {
  users : JSMap User;
  accounts : JSMap Account;
  transactions : JSMap Transaction;
  userIdCounter : Z;
  accountIdCounter : Z;
  transactionIdCounter : Z
}.

(* [new MemStorage()] *)
Definition new_MemStorage : MemStorage :=
  {| users := []; accounts := []; transactions := [];
     userIdCounter := 1; accountIdCounter := 1; transactionIdCounter := 1 |}.

(** A storage method is a state transformer: its body has no [await]
    and runs to completion once called. *)
Definition State (X : Type) : Type := MemStorage -> X * MemStorage.

Definition createAccount (now : Z) (accountData : InsertAccount)
  : State Account := fun s =>
  let id := accountIdCounter s in
  let account :=
    {| account_id := id;
       account_userId := ia_userId accountData;
       account_type := ia_type accountData;
       accountNumber := ia_accountNumber accountData;
       balance := ia_balance accountData;
       createdAt := now |} in
  (account,
   {| users := users s;
      accounts := map_set (accounts s) id account;
      transactions := transactions s;
      userIdCounter := userIdCounter s;
      accountIdCounter := id + 1;
      transactionIdCounter := transactionIdCounter s |}).

(* What one default account draws from the outside world: the token of
   [generateAccountNumber()] and the reading of [new Date()]. *)
Definition Drawn : Type := (string * Z)%type.

Definition createUser (d1 d2 d3 : Drawn) (userData : InsertUser)
  : State User := fun s =>
  let id := userIdCounter s in
  let user :=
    {| user_id := id;
       firstName := iu_firstName userData;
       lastName := iu_lastName userData;
       email := iu_email userData;
       password := iu_password userData;
       phone := iu_phone userData;
       address := iu_address userData |} in
  let s0 :=
    {| users := map_set (users s) id user;
       accounts := accounts s;
       transactions := transactions s;
       userIdCounter := id + 1;
       accountIdCounter := accountIdCounter s;
       transactionIdCounter := transactionIdCounter s |} in
  let s1 := snd (createAccount (snd d1)
    {| ia_userId := id; ia_type := "checking";
       ia_accountNumber := fst d1; ia_balance := fromInt 2500 |} s0) in
  let s2 := snd (createAccount (snd d2)
    {| ia_userId := id; ia_type := "savings";
       ia_accountNumber := fst d2; ia_balance := fromInt 10000 |} s1) in
  let s3 := snd (createAccount (snd d3)
    {| ia_userId := id; ia_type := "credit";
       ia_accountNumber := fst d3; ia_balance := fromInt 0 |} s2) in
  (user, s3).

Definition getUserById (id : Z) : State (option User) := fun s =>
  (map_get (users s) id, s).

(* The first user, in insertion order, whose email is [e]. *)
Definition getUserByEmail (e : string) : State (option User) := fun s =>
  (find (fun user => String.eqb (email user) e) (map_values (users s)), s).

Definition override {X : Type} (new : option X) (old : X) : X :=
  match new with Some x => x | None => old end.

(* [{ ...user, ...userData }] *)
Definition spread_user (user : User) (userData : PartialUser) : User :=
  {| user_id := user_id user;
     firstName := override (pu_firstName userData) (firstName user);
     lastName := override (pu_lastName userData) (lastName user);
     email := override (pu_email userData) (email user);
     password := override (pu_password userData) (password user);
     phone := match pu_phone userData with
              | Some p => Some p | None => phone user end;
     address := match pu_address userData with
                | Some a => Some a | None => address user end |}.

Definition updateUser (id : Z) (userData : PartialUser)
  : State (option User) := fun s =>
  match map_get (users s) id with
  | None => (None, s)
  | Some user =>
      let updatedUser := spread_user user userData in
      (Some updatedUser,
       {| users := map_set (users s) id updatedUser;
          accounts := accounts s;
          transactions := transactions s;
          userIdCounter := userIdCounter s;
          accountIdCounter := accountIdCounter s;
          transactionIdCounter := transactionIdCounter s |})
  end.

Definition getAccountById (id : Z) : State (option Account) := fun s =>
  (map_get (accounts s) id, s).

Definition getAccountsByUserId (userId : Z) : State (list Account) :=
  fun s =>
  (filter (fun account => account_userId account =? userId)
          (map_values (accounts s)), s).

(* [parseFloat(x.toString())] of a number [x] is [x]: the decimal string
   of a number reads back as that number (a negative zero reads back as
   zero; no balance is one, since no amount is zero). *)
Definition reparse (x : num) : num := x.

Definition with_balance (account : Account) (b : num) : Account :=
  {| account_id := account_id account;
     account_userId := account_userId account;
     account_type := account_type account;
     accountNumber := accountNumber account;
     balance := b;
     createdAt := createdAt account |}.

Definition updateAccountBalance (id : Z) (amount : num)
  : State (option Account) := fun s =>
  match map_get (accounts s) id with
  | None => (None, s)
  | Some account =>
      let updatedAccount :=
        with_balance account (add (reparse (balance account)) amount) in
      (Some updatedAccount,
       {| users := users s;
          accounts := map_set (accounts s) id updatedAccount;
          transactions := transactions s;
          userIdCounter := userIdCounter s;
          accountIdCounter := accountIdCounter s;
          transactionIdCounter := transactionIdCounter s |})
  end.

Definition createTransaction (now : Z) (transactionData : InsertTransaction)
  : State Transaction := fun s =>
  let id := transactionIdCounter s in
  let transaction :=
    {| tx_id := id;
       tx_userId := it_userId transactionData;
       tx_accountId := it_accountId transactionData;
       tx_type := it_type transactionData;
       amount := it_amount transactionData;
       description := it_description transactionData;
       date := now;
       toAccountId := it_toAccountId transactionData |} in
  (transaction,
   {| users := users s;
      accounts := accounts s;
      transactions := map_set (transactions s) id transaction;
      userIdCounter := userIdCounter s;
      accountIdCounter := accountIdCounter s;
      transactionIdCounter := id + 1 |}).

Definition getTransactionById (id : Z) : State (option Transaction) :=
  fun s => (map_get (transactions s) id, s).

(* [(a, b) => b.date.getTime() - a.date.getTime()] *)
Definition newest_first (a b : Transaction) : Z := date b - date a.

Definition getTransactionsByUserId (userId : Z)
  : State (list Transaction) := fun s =>
  (Array_sort newest_first
     (filter (fun transaction => tx_userId transaction =? userId)
             (map_values (transactions s))), s).

Definition getTransactionsByAccountId (accountId : Z)
  : State (list Transaction) := fun s =>
  (Array_sort newest_first
     (filter (fun transaction => tx_accountId transaction =? accountId)
             (map_values (transactions s))), s).
End Storage.

(** ** Asynchronous handlers

    [Await c k] calls the storage method [c] (its synchronous body runs at
    once) and suspends; [k] resumes with the result on a later turn of the
    event loop.  Other handlers may run between the two. *)

Section Async.
Context {N : JSNumber}.

Inductive Async (A : Type) : Type :=
| Return : A -> Async A
| Await : forall X : Type, State X -> (X -> Async A) -> Async A.

Arguments Return {A} _.
Arguments Await {A X} _ _.

Fixpoint bind {A B : Type} (m : Async A) (f : A -> Async B) : Async B :=
  match m with
  | Return a => f a
  | Await c k => Await c (fun x => bind (k x) f)
  end.

Definition await {X : Type} (c : State X) : Async X := Await c Return.

(* A handler that runs alone: every suspension resumes at once. *)
Fixpoint run {A : Type} (m : Async A) (s : MemStorage) : A * MemStorage :=
  match m with
  | Return a => (a, s)
  | Await c k => let (x, s') := c s in run (k x) s'
  end.

(* One turn of the event loop given to a suspended handler. *)
Definition resume {A : Type} (m : Async A) (s : MemStorage)
  : Async A * MemStorage :=
  match m with
  | Return a => (m, s)
  | Await c k => let (x, s') := c s in (k x, s')
  end.

Definition finished {A : Type} (m : Async A) : bool :=
  match m with Return _ => true | Await _ _ => false end.
End Async.

Arguments Return {N A} _.
Arguments Await {N A X} _ _.

Declare Scope async_scope.
Delimit Scope async_scope with async.
Notation "x <- c ;; k" := (bind c (fun x => k))
  (at level 61, c at next level, right associativity) : async_scope.
Open Scope async_scope.

(** ** The validation schemas ([shared/schema.ts])

    [z.string().email()] is zod's; the handlers take it as a parameter. *)

Class Zod : Type := { isEmail : string -> bool }.

Section Routes.
Context {N : JSNumber} {Z0 : Zod}.

(* [z.string().min(n)] compares [n] with the [length] of the JavaScript
   string, which counts UTF-16 code units.  A [string] here holds the UTF-8
   bytes of the JavaScript string: a character of one, two or three bytes
   is one code unit, a character of four bytes is two (a surrogate pair),
   and a byte that starts no character is read as one replacement
   character. *)
Definition continuation (c : ascii) : bool :=
  let n := N_of_ascii c in ((128 <=? n) && (n <? 192))%N.

(* How many continuation bytes the first byte of a character announces. *)
Definition announced (c : ascii) : nat :=
  let n := N_of_ascii c in
  if (n <? 194)%N then 0
  else if (n <? 224)%N then 1
  else if (n <? 240)%N then 2
  else if (n <? 245)%N then 3
  else 0.

Fixpoint js_length (s : string) : nat :=
  match s with
  | EmptyString => 0
  | String c rest =>
      match announced c, rest with
      | 1%nat, String c1 rest1 =>
          if continuation c1 then S (js_length rest1)
          else S (js_length rest)
      | 2%nat, String c1 (String c2 rest2) =>
          if continuation c1 && continuation c2 then S (js_length rest2)
          else S (js_length rest)
      | 3%nat, String c1 (String c2 (String c3 rest3)) =>
          if continuation c1 && continuation c2 && continuation c3
          then S (S (js_length rest3))
          else S (js_length rest)
      | _, _ => S (js_length rest)
      end
  end.

Definition min (n : nat) (s : string) : bool :=
  Nat.leb n (js_length s).

(* [val => !isNaN(parseFloat(val)) && parseFloat(val) > 0] *)
Definition positive_amount (val : string) : bool :=
  negb (isNaN (parseFloat val)) && ltb (fromInt 0) (parseFloat val).

Record LoginBody : Type := {
  lb_email : string;
  lb_password : string
}.

Definition loginSchema (body : LoginBody) : option LoginBody :=
  if isEmail (lb_email body) && min 1 (lb_password body)
  then Some body else None.

Record TransferBody : Type := {
  tb_fromAccountId : Z;
  tb_toAccountId : Z;
  tb_amount : string;
  tb_description : string
}.

Definition transferSchema (body : TransferBody) : option TransferBody :=
  if min 1 (tb_amount body) && positive_amount (tb_amount body)
     && min 1 (tb_description body)
     && negb (tb_fromAccountId body =? tb_toAccountId body)
  then Some body else None.

Record DepositBody : Type := {
  db_accountId : Z;
  db_amount : string;
  db_description : string
}.

Definition depositSchema (body : DepositBody) : option DepositBody :=
  if min 1 (db_amount body) && positive_amount (db_amount body)
     && min 1 (db_description body)
  then Some body else None.

Record WithdrawalBody : Type := {
  wb_accountId : Z;
  wb_amount : string;
  wb_description : string
}.

Definition withdrawalSchema (body : WithdrawalBody)
  : option WithdrawalBody :=
  if min 1 (wb_amount body) && positive_amount (wb_amount body)
     && min 1 (wb_description body)
  then Some body else None.

Record ProfileBody : Type := {
  pb_firstName : string;
  pb_lastName : string;
  pb_email : string;
  pb_phone : option string;
  pb_address : option string
}.

Definition updateProfileSchema (body : ProfileBody) : option ProfileBody :=
  if min 1 (pb_firstName body) && min 1 (pb_lastName body)
     && isEmail (pb_email body)
  then Some body else None.

Record PasswordBody : Type := {
  currentPassword : string;
  newPassword : string;
  confirmPassword : string
}.

Definition changePasswordSchema (body : PasswordBody)
  : option PasswordBody :=
  if min 1 (currentPassword body) && min 8 (newPassword body)
     && min 1 (confirmPassword body)
     && String.eqb (newPassword body) (confirmPassword body)
  then Some body else None.

(** ** Responses *)

(* [const { password, ...userWithoutPassword } = user] *)
Record UserWithoutPassword : Type := {
  wp_id : Z;
  wp_firstName : string;
  wp_lastName : string;
  wp_email : string;
  wp_phone : option string;
  wp_address : option string
}.

Definition without_password (user : User) : UserWithoutPassword :=
  {| wp_id := user_id user;
     wp_firstName := firstName user;
     wp_lastName := lastName user;
     wp_email := email user;
     wp_phone := phone user;
     wp_address := address user |}.

Inductive Json : Type :=
| message (m : string)
| validation_error                    (* [handleError] on a [ZodError] *)
| user_json (u : UserWithoutPassword)
| transaction_json (t : Transaction)
| accounts_json (l : list Account)
| transactions_json (l : list Transaction).

Record Response : Type := { status : Z; json : Json }.

Definition respond (code : Z) (j : Json) : Async Response :=
  Return {| status := code; json := j |}.

Definition invalid : Async Response := respond 400 validation_error.

(** ** [storage.validateUserPassword] (it awaits [getUserByEmail]) *)

Definition validateUserPassword (e p : string) : Async (option User) :=
  user <- await (getUserByEmail e) ;;
  match user with
  | Some user =>
      if String.eqb (password user) p then Return (Some user)
      else Return None
  | None => Return None
  end.

(** ** [server/routes.ts]

    The money and profile handlers sit behind [isAuthenticated];
    [userId] is [req.session.user.id].  A request body is typed, so
    [insertUserSchema], which only asks for strings, always parses; the
    other schemas are the functions above, and a body they refuse is
    answered by [handleError] with 400.  The session cookie is not part of
    the store and is left out. *)

Definition register_route (d1 d2 d3 : Drawn) (userData : InsertUser)
  : Async Response :=
  existingUser <- await (getUserByEmail (iu_email userData)) ;;
  match existingUser with
  | Some _ => respond 400 (message "User with this email already exists")
  | None =>
      user <- await (createUser d1 d2 d3 userData) ;;
      respond 201 (user_json (without_password user))
  end.

Definition login_route (body : LoginBody) : Async Response :=
  match loginSchema body with
  | None => invalid
  | Some loginData =>
      user <- validateUserPassword (lb_email loginData)
                                   (lb_password loginData) ;;
      match user with
      | None => respond 401 (message "Invalid email or password")
      | Some user => respond 200 (user_json (without_password user))
      end
  end.

Definition accounts_route (userId : Z) : Async Response :=
  accounts <- await (getAccountsByUserId userId) ;;
  respond 200 (accounts_json accounts).

Definition transactions_route (userId : Z) : Async Response :=
  transactions <- await (getTransactionsByUserId userId) ;;
  respond 200 (transactions_json transactions).

Definition forbidden : Async Response :=
  respond 403 (message "You don't have permission to access this account").

Definition insufficient : Async Response :=
  respond 400 (message "Insufficient funds").

Definition transfer_route (now1 now2 : Z) (userId : Z) (body : TransferBody)
  : Async Response :=
  match transferSchema body with
  | None => invalid
  | Some transferData =>
      fromAccount <- await (getAccountById (tb_fromAccountId transferData)) ;;
      toAccount <- await (getAccountById (tb_toAccountId transferData)) ;;
      match fromAccount with
      | None => forbidden
      | Some fromAccount =>
          if negb (account_userId fromAccount =? userId) then forbidden
          else
            match toAccount with
            | None =>
                respond 404 (message "Destination account not found")
            | Some toAccount =>
                let amount := parseFloat (tb_amount transferData) in
                if ltb (reparse (balance fromAccount)) amount
                then insufficient
                else
                  _ <- await (updateAccountBalance
                                (account_id fromAccount) (neg amount)) ;;
                  _ <- await (updateAccountBalance
                                (account_id toAccount) amount) ;;
                  fromTransaction <- await (createTransaction now1
                    {| it_userId := userId;
                       it_accountId := account_id fromAccount;
                       it_type := "transfer";
                       it_amount := neg amount;
                       it_description := tb_description transferData;
                       it_toAccountId := Some (account_id toAccount) |}) ;;
                  _ <- await (createTransaction now2
                    {| it_userId := account_userId toAccount;
                       it_accountId := account_id toAccount;
                       it_type := "transfer";
                       it_amount := amount;
                       it_description :=
                         "Transfer from account "
                           ++ accountNumber fromAccount;
                       it_toAccountId := None |}) ;;
                  respond 200 (transaction_json fromTransaction)
            end
      end
  end.

Definition deposit_route (now : Z) (userId : Z) (body : DepositBody)
  : Async Response :=
  match depositSchema body with
  | None => invalid
  | Some depositData =>
      account <- await (getAccountById (db_accountId depositData)) ;;
      match account with
      | None => forbidden
      | Some account =>
          if negb (account_userId account =? userId) then forbidden
          else
            let amount := parseFloat (db_amount depositData) in
            _ <- await (updateAccountBalance (account_id account) amount) ;;
            transaction <- await (createTransaction now
              {| it_userId := userId;
                 it_accountId := account_id account;
                 it_type := "deposit";
                 it_amount := amount;
                 it_description := db_description depositData;
                 it_toAccountId := None |}) ;;
            respond 200 (transaction_json transaction)
      end
  end.

Definition withdrawal_route (now : Z) (userId : Z) (body : WithdrawalBody)
  : Async Response :=
  match withdrawalSchema body with
  | None => invalid
  | Some withdrawalData =>
      account <- await (getAccountById (wb_accountId withdrawalData)) ;;
      match account with
      | None => forbidden
      | Some account =>
          if negb (account_userId account =? userId) then forbidden
          else
            let amount := parseFloat (wb_amount withdrawalData) in
            if negb (String.eqb (account_type account) "credit")
               && ltb (reparse (balance account)) amount
            then insufficient
            else
              _ <- await (updateAccountBalance
                            (account_id account) (neg amount)) ;;
              transaction <- await (createTransaction now
                {| it_userId := userId;
                   it_accountId := account_id account;
                   it_type := "withdrawal";
                   it_amount := neg amount;
                   it_description := wb_description withdrawalData;
                   it_toAccountId := None |}) ;;
              respond 200 (transaction_json transaction)
      end
  end.

Definition profile_fields (profileData : ProfileBody) : PartialUser :=
  {| pu_firstName := Some (pb_firstName profileData);
     pu_lastName := Some (pb_lastName profileData);
     pu_email := Some (pb_email profileData);
     pu_password := None;
     pu_phone := pb_phone profileData;
     pu_address := pb_address profileData |}.

Definition profile_route (userId : Z) (body : ProfileBody)
  : Async Response :=
  match updateProfileSchema body with
  | None => invalid
  | Some profileData =>
      updatedUser <- await (updateUser userId (profile_fields profileData)) ;;
      match updatedUser with
      | None => respond 404 (message "User not found")
      | Some updatedUser =>
          respond 200 (user_json (without_password updatedUser))
      end
  end.

Definition password_only (p : string) : PartialUser :=
  {| pu_firstName := None; pu_lastName := None; pu_email := None;
     pu_password := Some p; pu_phone := None; pu_address := None |}.

Definition password_route (userId : Z) (body : PasswordBody)
  : Async Response :=
  match changePasswordSchema body with
  | None => invalid
  | Some passwordData =>
      user <- await (getUserById userId) ;;
      match user with
      | None => respond 404 (message "User not found")
      | Some user =>
          if negb (String.eqb (password user)
                              (currentPassword passwordData))
          then respond 400 (message "Current password is incorrect")
          else
            _ <- await (updateUser userId
                          (password_only (newPassword passwordData))) ;;
            respond 200 (message "Password updated successfully")
      end
  end.
End Routes.

(** ** Two interpretations of [number]

    Both read a plain unsigned decimal literal ([digits], optionally a point
    and more digits), the shape the callers of the engine send; any other
    string is not a number. *)

Definition digit (c : ascii) : option Z :=
  let n := Z.of_N (N_of_ascii c) in
  if (48 <=? n) && (n <=? 57) then Some (n - 48) else None.

(* Leading digits of [s]: their value on top of [acc], how many there were,
   and the rest of the string. *)
Fixpoint read_digits (s : string) (acc : Z) (count : nat)
  : Z * nat * string :=
  match s with
  | EmptyString => (acc, count, s)
  | String c s' =>
      match digit c with
      | Some d => read_digits s' (10 * acc + d) (S count)
      | None => (acc, count, s)
      end
  end.

(* [Some (n, k)] stands for the decimal [n / 10^k]. *)
Definition parse_decimal (s : string) : option (Z * nat) :=
  let '(i, ni, rest) := read_digits s 0 0 in
  match rest with
  | EmptyString => if Nat.eqb ni 0 then None else Some (i, 0%nat)
  | String "."%char rest' =>
      let '(f, nf, rest'') := read_digits rest' i 0 in
      match rest'' with
      | EmptyString => if Nat.eqb (ni + nf) 0 then None else Some (f, nf)
      | _ => None
      end
  | _ => None
  end.

(** Exact decimal arithmetic: a number is an integer count of cents.  A
    literal with more than two decimals has no such count and is refused
    like any other malformed amount (it reads as [0], which no schema
    accepts). *)
Definition Cents : JSNumber := {|
  num := Z;
  fromInt := fun n => 100 * n;
  add := Z.add;
  neg := Z.opp;
  ltb := Z.ltb;
  parseFloat := fun s =>
    match parse_decimal s with
    | Some (n, 0%nat) => 100 * n
    | Some (n, 1%nat) => 10 * n
    | Some (n, 2%nat) => n
    | _ => 0
    end;
  isNaN := fun _ => false
|}.

(** IEEE 754 binary64, the [number] of the JavaScript runtime.  A decimal
    [n / 10^k] with [n < 2^53] and [k <= 22] is the correctly rounded
    quotient of two exact doubles. *)
Module Float64.
Definition prec : Z := 53.
Definition emax : Z := 1024.

Definition ofZ (n : Z) : spec_float := binary_normalize prec emax n 0 false.

Definition parse (s : string) : spec_float :=
  match parse_decimal s with
  | Some (n, k) => SFdiv prec emax (ofZ n) (ofZ (10 ^ Z.of_nat k))
  | None => S754_nan
  end.

Definition is_nan (x : spec_float) : bool :=
  match x with S754_nan => true | _ => false end.

(* The double of an amount of [n] cents: the one nearest to [n / 100]. *)
Definition hundredths (n : Z) : spec_float :=
  SFdiv prec emax (ofZ n) (ofZ 100).

(* [x] counted in units of [2^e0], when it is a whole number of them. *)
Definition units (e0 : Z) (x : spec_float) : option Z :=
  match x with
  | S754_zero _ => Some 0
  | S754_finite s m e =>
      if e0 <=? e then Some (cond_Zopp s (Zpos m) * 2 ^ (e - e0)) else None
  | _ => None
  end.

(* [x - y] in those units, computed on the integers. *)
Definition difference (e0 : Z) (x y : spec_float) : option Z :=
  match units e0 x, units e0 y with
  | Some a, Some b => Some (a - b)
  | _, _ => None
  end.
End Float64.

Definition Binary64 : JSNumber := {|
  num := spec_float;
  fromInt := Float64.ofZ;
  add := SFadd Float64.prec Float64.emax;
  neg := SFopp;
  ltb := SFltb;
  parseFloat := Float64.parse;
  isNaN := Float64.is_nan
|}.

(** Arithmetic is exact when every number has an integer count of cents
    that the operations respect. *)
Class Exact (N : JSNumber) : Type := {
  cents : num -> Z;
  cents_fromInt : forall n, cents (fromInt n) = 100 * n;
  cents_add : forall x y, cents (add x y) = cents x + cents y;
  cents_neg : forall x, cents (neg x) = - cents x;
  cents_ltb : forall x y, ltb x y = (cents x <? cents y)
}.

Definition Cents_exact : Exact Cents :=
  {| cents := (fun x => x) : @num Cents -> Z;
     cents_fromInt := fun n => eq_refl;
     cents_add := fun x y => eq_refl;
     cents_neg := fun x => eq_refl;
     cents_ltb := fun x y => eq_refl |}.

(** A simple stand-in for zod's email pattern, used on concrete inputs. *)
Fixpoint has_at (s : string) : bool :=
  match s with
  | EmptyString => false
  | String c s' => Ascii.eqb c "@" || has_at s'
  end.

Definition AtSign : Zod := {| isEmail := has_at |}.

(** ** Observations, requests and reachable stores *)

Section Engine.
Context {N : JSNumber} {Z0 : Zod}.

Definition account_of (s : MemStorage) (id : Z) : option Account :=
  map_get (accounts s) id.

Definition balance_of (s : MemStorage) (id : Z) : option num :=
  option_map balance (account_of s id).

(* The ledger, oldest entry first. *)
Definition ledger (s : MemStorage) : list Transaction :=
  map_values (transactions s).

Definition directory (s : MemStorage) : list User :=
  map_values (users s).

Definition emails (s : MemStorage) : list string :=
  map email (directory s).

Inductive Request : Type :=
| Register (d1 d2 d3 : Drawn) (userData : InsertUser)
| Login (body : LoginBody)
| ListAccounts (userId : Z)
| ListTransactions (userId : Z)
| Transfer (now1 now2 : Z) (userId : Z) (body : TransferBody)
| Deposit (now : Z) (userId : Z) (body : DepositBody)
| Withdrawal (now : Z) (userId : Z) (body : WithdrawalBody)
| UpdateProfile (userId : Z) (body : ProfileBody)
| ChangePassword (userId : Z) (body : PasswordBody).

Definition handle (req : Request) : Async Response :=
  match req with
  | Register d1 d2 d3 userData => register_route d1 d2 d3 userData
  | Login body => login_route body
  | ListAccounts userId => accounts_route userId
  | ListTransactions userId => transactions_route userId
  | Transfer now1 now2 userId body => transfer_route now1 now2 userId body
  | Deposit now userId body => deposit_route now userId body
  | Withdrawal now userId body => withdrawal_route now userId body
  | UpdateProfile userId body => profile_route userId body
  | ChangePassword userId body => password_route userId body
  end.

(* Requests served one after the other. *)
Definition serve (s : MemStorage) (reqs : list Request) : MemStorage :=
  fold_left (fun s req => snd (run (handle req) s)) reqs s.

Definition reachable (s : MemStorage) : Prop :=
  exists reqs, s = serve new_MemStorage reqs.

Definition keys_below {V : Type} (m : JSMap V) (bound : Z) : Prop :=
  forall k v, In (k, v) m -> k < bound.

(* Every record sits under its own id, and the counters are fresh. *)
Record consistent (s : MemStorage) : Prop := {
  account_keys : forall k a, In (k, a) (accounts s) -> account_id a = k;
  user_keys : forall k u, In (k, u) (users s) -> user_id u = k;
  accounts_fresh : keys_below (accounts s) (accountIdCounter s);
  users_fresh : keys_below (users s) (userIdCounter s);
  transactions_fresh :
    keys_below (transactions s) (transactionIdCounter s)
}.

Definition preserves {X : Type} (c : State X) : Prop :=
  forall s, consistent s -> consistent (snd (c s)).

(* A handler all of whose storage calls keep the store consistent. *)
Inductive safe {A : Type} : Async A -> Prop :=
| safe_Return a : safe (Return a)
| safe_Await X (c : State X) k :
    preserves c -> (forall x, safe (k x)) -> safe (Await c k).

(** The outcomes of the specification, as the handlers answer them. *)
Definition Ok (r : Response) : Prop := status r = 200.
Definition NotFound (r : Response) : Prop := status r = 404.
Definition PermissionDenied (r : Response) : Prop := status r = 403.
Definition InsufficientFunds (r : Response) : Prop :=
  r = {| status := 400; json := message "Insufficient funds" |}.
Definition DuplicateEmail (r : Response) : Prop :=
  r = {| status := 400;
         json := message "User with this email already exists" |}.
Definition InvalidCredentials (r : Response) : Prop :=
  r = {| status := 401; json := message "Invalid email or password" |}.

Definition is_transfer (req : Request) : bool :=
  match req with Transfer _ _ _ _ => true | _ => false end.

(* The caller and the account a money request is posted against. *)
Definition primary (req : Request) : option (Z * Z) :=
  match req with
  | Transfer _ _ userId body => Some (userId, tb_fromAccountId body)
  | Deposit _ userId body => Some (userId, db_accountId body)
  | Withdrawal _ userId body => Some (userId, wb_accountId body)
  | _ => None
  end.

(* The request body passes its schema. *)
Definition validated (req : Request) : bool :=
  match req with
  | Transfer _ _ _ body =>
      match transferSchema body with Some _ => true | None => false end
  | Deposit _ _ body =>
      match depositSchema body with Some _ => true | None => false end
  | Withdrawal _ _ body =>
      match withdrawalSchema body with Some _ => true | None => false end
  | _ => true
  end.

(* The account is absent, or it belongs to somebody else. *)
Definition not_owned (s : MemStorage) (userId id : Z) : Prop :=
  match account_of s id with
  | None => True
  | Some account => account_userId account <> userId
  end.

(** ** Handlers sharing the event loop

    A pool of suspended handlers; a schedule names, turn by turn, the
    handler that resumes. *)

Definition Pool : Type := list (Async Response).

Fixpoint turn (i : nat) (pool : Pool) (s : MemStorage)
  : Pool * MemStorage :=
  match pool with
  | [] => ([], s)
  | t :: pool' =>
      match i with
      | O => let (t', s') := resume t s in (t' :: pool', s')
      | S i' => let (pool'', s') := turn i' pool' s in (t :: pool'', s')
      end
  end.

Fixpoint schedule (order : list nat) (pool : Pool) (s : MemStorage)
  : Pool * MemStorage :=
  match order with
  | [] => (pool, s)
  | i :: order' =>
      let (pool', s') := turn i pool s in schedule order' pool' s'
  end.

Definition all_finished (pool : Pool) : bool := forallb finished pool.

(* The store holds the account under its id, owned by the user. *)
Definition holds_account (s : MemStorage) (userId id : Z) : Prop :=
  exists account,
    account_of s id = Some account
    /\ account_userId account = userId
    /\ account_id account = id.

(* [deposit_progress now userId body j t]: [t] is the deposit handler
   after [j] turns, each taken in a store that holds the account. *)
Inductive deposit_progress (now userId : Z) (body : DepositBody)
  : nat -> Async Response -> Prop :=
| progress_start :
    deposit_progress now userId body 0 (deposit_route now userId body)
| progress_turn j t s :
    deposit_progress now userId body j t ->
    finished t = false ->
    holds_account s userId (db_accountId body) ->
    deposit_progress now userId body (S j) (fst (resume t s)).

(* How many handlers of a pool have applied their balance update; a tag
   is the timestamp of a handler and the number of turns it has had. *)
Definition applied (tags : list (Z * nat)) : nat :=
  List.length (filter (fun tag => Nat.leb 2 (snd tag)) tags).

(* Each handler of the pool run to its end before the next starts. *)
Definition one_by_one (pool : Pool) : list nat :=
  flat_map (fun i => repeat i 3) (seq 0 (List.length pool)).
End Engine.

(** ** Ordering of a listing *)

Section Ordering.
Context {N : JSNumber}.

(* No entry is followed by a strictly newer one. *)
Definition newest_to_oldest (l : list Transaction) : Prop :=
  StronglySorted (fun a b => date b <= date a) l.

(* The entries stamped [d], in the order in which [l] lists them. *)
Definition stamped (d : Z) (l : list Transaction) : list Transaction :=
  filter (fun t => date t =? d) l.
End Ordering.

(** ** Concrete stores *)

Definition alice : InsertUser :=
  {| iu_firstName := "Alice"; iu_lastName := "Archer";
     iu_email := "alice@example.com"; iu_password := "correct horse";
     iu_phone := None; iu_address := None |}.

Definition bob : InsertUser :=
  {| iu_firstName := "Bob"; iu_lastName := "Baker";
     iu_email := "bob@example.com"; iu_password := "battery staple";
     iu_phone := None; iu_address := None |}.

(* Alice alone: account 1 is her checking account (2500.00), account 2 her
   savings account (10000.00), account 3 her credit account (0.00). *)
Definition one_customer : @MemStorage Cents :=
  serve (Z0 := AtSign) new_MemStorage
    [Register ("1A2B3C4D"%string, 1000) ("5E6F7A8B"%string, 1000)
              ("9C0D1E2F"%string, 1000) alice].

(* Bob joins: accounts 4, 5 and 6 are his. *)
Definition two_customers : @MemStorage Cents :=
  serve (Z0 := AtSign) one_customer
    [Register ("0F1E2D3C"%string, 2000) ("4B5A6978"%string, 2000)
              ("8796A5B4"%string, 2000) bob].

(* 100.00 from the credit account (0.00) to the checking account. *)
Definition cash_advance : TransferBody :=
  {| tb_fromAccountId := 3; tb_toAccountId := 1;
     tb_amount := "100.00"; tb_description := "cash advance" |}.

(* A deposit into account 99, which nobody has. *)
Definition stray_deposit : DepositBody :=
  {| db_accountId := 99; db_amount := "10.00"; db_description := "gift" |}.

(* Both legs of this transfer carry the timestamp 5000. *)
Definition instant_transfer : Request :=
  Transfer 5000 5000 1
    {| tb_fromAccountId := 1; tb_toAccountId := 2;
       tb_amount := "500.00"; tb_description := "rainy day" |}.

Definition after_instant_transfer : @MemStorage Cents :=
  serve (Z0 := AtSign) one_customer [instant_transfer].

(* Bob registers under his own address, then edits his profile and takes
   the address of Alice. *)
Definition take_alices_email : ProfileBody :=
  {| pb_firstName := "Bob"; pb_lastName := "Baker";
     pb_email := "alice@example.com";
     pb_phone := None; pb_address := None |}.

Definition email_theft : list Request :=
  [Register ("1A2B3C4D"%string, 1000) ("5E6F7A8B"%string, 1000)
            ("9C0D1E2F"%string, 1000) alice;
   Register ("0F1E2D3C"%string, 2000) ("4B5A6978"%string, 2000)
            ("8796A5B4"%string, 2000) bob;
   UpdateProfile 2 take_alices_email].

Definition after_email_theft : @MemStorage Cents :=
  serve (Z0 := AtSign) new_MemStorage email_theft.

(* Ten cents, then twenty, into the empty credit account. *)
Definition loose_change : list Request :=
  [Register ("1A2B3C4D"%string, 1000) ("5E6F7A8B"%string, 1000)
            ("9C0D1E2F"%string, 1000) alice;
   Deposit 3000 1 {| db_accountId := 3; db_amount := "0.10";
                     db_description := "coins" |};
   Deposit 3001 1 {| db_accountId := 3; db_amount := "0.20";
                     db_description := "coins" |}].

Definition after_loose_change : @MemStorage Binary64 :=
  serve (Z0 := AtSign) new_MemStorage loose_change.

(* Alice alone, with the numbers of the runtime. *)
Definition one_customer64 : @MemStorage Binary64 :=
  serve (Z0 := AtSign) new_MemStorage
    [Register ("1A2B3C4D"%string, 1000) ("5E6F7A8B"%string, 1000)
              ("9C0D1E2F"%string, 1000) alice].

(* Twenty cents from the checking account to the savings account. *)
Definition twenty_cents : TransferBody :=
  {| tb_fromAccountId := 1; tb_toAccountId := 2;
     tb_amount := "0.20"; tb_description := "coffee" |}.

(* Ten cents into the checking account. *)
Definition ten_cents : DepositBody :=
  {| db_accountId := 1; db_amount := "0.10"; db_description := "coins" |}.

(* A 1 followed by 309 zeros: above every finite double, so [parseFloat]
   reads it as Infinity. *)
Fixpoint zeros (n : nat) : string :=
  match n with
  | O => EmptyString
  | S n' => String "0" (zeros n')
  end.

Definition beyond_doubles : string := String "1" (zeros 309).

Definition windfall : DepositBody :=
  {| db_accountId := 1; db_amount := beyond_doubles;
     db_description := "windfall" |}.

Definition after_windfall : @MemStorage Binary64 :=
  serve (Z0 := AtSign) one_customer64 [Deposit 3000 1 windfall].

Definition give_it_all : TransferBody :=
  {| tb_fromAccountId := 1; tb_toAccountId := 2;
     tb_amount := beyond_doubles; tb_description := "all of it" |}.

(* A password of seven characters, two of them outside ASCII (nine
   bytes). *)
Definition seven_characters : string :=
  String "p" (String "195" (String "164" (String "s" (String "s"
    (String "w" (String "195" (String "182" (String "r" EmptyString)))))))).

(** ** Invariants of the store *)

Section Invariants.
Context {N : JSNumber} {Z0 : Zod}.

Definition keys {V : Type} (m : JSMap V) : list Z := map fst m.

(* [k, k + 1, ...], [n] of them. *)
Fixpoint ids_from (k : Z) (n : nat) : list Z :=
  match n with
  | O => []
  | S n' => k :: ids_from (k + 1) n'
  end.

(* Accounts are opened three at a time, so the id of an account tells its
   type. *)
Definition kind (k : Z) : string :=
  if (k - 1) mod 3 =? 0 then "checking"
  else if (k - 1) mod 3 =? 1 then "savings"
  else "credit".

(* Ids are handed out from 1 without gaps, every record sits under its id,
   and the accounts 3u - 2, 3u - 1 and 3u are those of user u. *)
Record layout (s : MemStorage) : Prop := {
  user_keys_dense : keys (users s) = ids_from 1 (List.length (users s));
  user_counter : userIdCounter s = 1 + Z.of_nat (List.length (users s));
  user_under_id : forall k u, In (k, u) (users s) -> user_id u = k;
  account_keys_dense :
    keys (accounts s) = ids_from 1 (List.length (accounts s));
  account_counter :
    accountIdCounter s = 1 + Z.of_nat (List.length (accounts s));
  three_each :
    List.length (accounts s) = (3 * List.length (users s))%nat;
  account_under_id : forall k a,
    In (k, a) (accounts s) ->
    account_id a = k /\ account_userId a = (k + 2) / 3
    /\ account_type a = kind k;
  ledger_keys_dense :
    keys (transactions s) = ids_from 1 (List.length (transactions s));
  ledger_counter :
    transactionIdCounter s = 1 + Z.of_nat (List.length (transactions s));
  entry_under_id : forall k t, In (k, t) (transactions s) -> tx_id t = k
}.

(* What a later store keeps of an earlier one: the ledger as a prefix, and
   every account and user under its id, with all that identifies them. *)
Record extends (s s' : MemStorage) : Prop := {
  ledger_grows : exists l, ledger s' = ledger s ++ l;
  accounts_stay : forall k a,
    account_of s k = Some a ->
    exists a',
      account_of s' k = Some a'
      /\ account_id a' = account_id a
      /\ account_userId a' = account_userId a
      /\ account_type a' = account_type a
      /\ accountNumber a' = accountNumber a
      /\ createdAt a' = createdAt a;
  users_stay : forall k u,
    map_get (users s) k = Some u ->
    exists u', map_get (users s') k = Some u' /\ user_id u' = user_id u
}.

(* The relation kept by every storage call, on a consistent store. *)
Definition keeps_history (s s' : MemStorage) : Prop :=
  consistent s -> consistent s' /\ extends s s'.

(* A handler each of whose storage calls relates the store before it to
   the store after it by [R]. *)
Inductive stepwise (R : MemStorage -> MemStorage -> Prop) {A : Type}
  : Async A -> Prop :=
| stepwise_Return a : stepwise R (Return a)
| stepwise_Await X (c : State X) k :
    (forall s, R s (snd (c s))) ->
    (forall x, stepwise R (k x)) ->
    stepwise R (Await c k).

(* A store that some requests lead to from the empty store, their storage
   calls interleaved in some order. *)
Definition interleaved (s : MemStorage) : Prop :=
  exists reqs order,
    s = snd (schedule order (map handle reqs) new_MemStorage).

(* Every ledger entry is posted against a stored account, and carries the
   user id of its owner. *)
Definition posted_to_owner (s : MemStorage) : Prop :=
  forall t, In t (ledger s) ->
  exists a,
    account_of s (tx_accountId t) = Some a
    /\ account_userId a = tx_userId t.

(* A transfer names a stored account other than the one it is posted
   against. *)
Definition to_stored (s : MemStorage) : Prop :=
  forall t k, In t (ledger s) -> toAccountId t = Some k ->
  k <> tx_accountId t /\ account_of s k <> None.

(* The [references] of [shared/schema.ts]: the user of an account, and the
   user, the account and the destination account of a ledger entry, are
   stored. *)
Record referenced (s : MemStorage) : Prop := {
  account_user : forall a,
    In a (map_values (accounts s)) ->
    fst (getUserById (account_userId a) s) <> None;
  entry_user : forall t,
    In t (ledger s) -> fst (getUserById (tx_userId t) s) <> None;
  entry_account : forall t,
    In t (ledger s) -> fst (getAccountById (tx_accountId t) s) <> None;
  entry_to_account : forall t k,
    In t (ledger s) -> toAccountId t = Some k ->
    fst (getAccountById k s) <> None
}.

(* The opening balance of an account of the given type. *)
Definition opening (type : string) : Z :=
  if String.eqb type "checking" then 2500
  else if String.eqb type "savings" then 10000
  else 0.

(* [b] with the amounts of the entries of [l] posted against account [id]
   added to it one after the other, in ledger order. *)
Definition replay (l : list Transaction) (id : Z) (b : num) : num :=
  fold_left add
    (map amount (filter (fun t => tx_accountId t =? id) l)) b.

(* The ledger replays every balance from the opening balance. *)
Definition balanced (s : MemStorage) : Prop :=
  forall k a,
    account_of s k = Some a ->
    balance a = replay (ledger s) k (fromInt (opening (account_type a))).

(* The two invariants, together. *)
Record audited (s : MemStorage) : Prop := {
  audited_postings : posted_to_owner s;
  audited_balances : balanced s
}.
End Invariants.

(** ** [generateAccountNumber]

    [randomBytes(4).toString('hex').toUpperCase()]: the bytes are drawn
    outside; each is written as two hexadecimal digits, high digit first,
    and the letters are then put in upper case. *)

Definition hex_digit (n : N) : ascii :=
  if (n <? 10)%N then ascii_of_N (48 + n) else ascii_of_N (87 + n).

Fixpoint toString_hex (bytes : list Byte.byte) : string :=
  match bytes with
  | [] => EmptyString
  | b :: rest =>
      String (hex_digit (Byte.to_N b / 16))
        (String (hex_digit (Byte.to_N b mod 16)) (toString_hex rest))
  end.

Definition upper (c : ascii) : ascii :=
  let n := N_of_ascii c in
  if ((97 <=? n) && (n <=? 122))%N then ascii_of_N (n - 32) else c.

Fixpoint toUpperCase (s : string) : string :=
  match s with
  | EmptyString => EmptyString
  | String c rest => String (upper c) (toUpperCase rest)
  end.

Definition generateAccountNumber (randomBytes : list Byte.byte) : string :=
  toUpperCase (toString_hex randomBytes).

(* Reading an account number back: the value of a digit, and the bytes of
   a string of digit pairs. *)
Definition digit_value (c : ascii) : option N :=
  let n := N_of_ascii c in
  if ((48 <=? n) && (n <=? 57))%N then Some (n - 48)%N
  else if ((65 <=? n) && (n <=? 70))%N then Some (n - 55)%N
  else None.

Fixpoint read_hex (s : string) : option (list Byte.byte) :=
  match s with
  | EmptyString => Some []
  | String _ EmptyString => None
  | String hi (String lo rest) =>
      match digit_value hi, digit_value lo, read_hex rest with
      | Some h, Some l, Some bytes =>
          match Byte.of_N (16 * h + l) with
          | Some b => Some (b :: bytes)
          | None => None
          end
      | _, _, _ => None
      end
  end.

Definition upper_hex (c : ascii) : Prop := digit_value c <> None.

(** ** Sessions

    The handlers of [server/routes.ts] once more, now with the session of
    the client that calls them: [req.session.user] is read by
    [isAuthenticated] and by the handlers behind it, written by
    registration, login and the profile update, and dropped by logout.
    The session store is the [MemoryStore] of [createSessionStore], whose
    [destroy] reports no error. *)

Section Sessions.
Context {N : JSNumber} {Z0 : Zod}.

(* [req.session.user] *)
Definition Session : Type := option UserWithoutPassword.

Definition Reply : Type := (Response * Session)%type.

Definition reply (code : Z) (j : Json) (session : Session) : Async Reply :=
  Return ({| status := code; json := j |}, session).

(* A handler that does not assign to the session. *)
Definition keeping (session : Session) (route : Async Response)
  : Async Reply :=
  r <- route ;; Return (r, session).

Definition isAuthenticated (session : Session)
  (next : UserWithoutPassword -> Async Reply) : Async Reply :=
  match session with
  | Some user => next user
  | None => reply 401 (message "Unauthorized") session
  end.

Inductive Call : Type :=
| PostRegister (d1 d2 d3 : Drawn) (userData : InsertUser)
| PostLogin (body : LoginBody)
| PostLogout
| GetMe
| GetAccounts
| GetTransactions
| PostTransfer (now1 now2 : Z) (body : TransferBody)
| PostDeposit (now : Z) (body : DepositBody)
| PostWithdrawal (now : Z) (body : WithdrawalBody)
| PutProfile (body : ProfileBody)
| PutPassword (body : PasswordBody).

Definition post_register (d1 d2 d3 : Drawn) (userData : InsertUser)
  (session : Session) : Async Reply :=
  existingUser <- await (getUserByEmail (iu_email userData)) ;;
  match existingUser with
  | Some _ =>
      reply 400 (message "User with this email already exists") session
  | None =>
      user <- await (createUser d1 d2 d3 userData) ;;
      let userWithoutPassword := without_password user in
      reply 201 (user_json userWithoutPassword) (Some userWithoutPassword)
  end.

Definition post_login (body : LoginBody) (session : Session)
  : Async Reply :=
  match loginSchema body with
  | None => reply 400 validation_error session
  | Some loginData =>
      user <- validateUserPassword (lb_email loginData)
                                   (lb_password loginData) ;;
      match user with
      | None => reply 401 (message "Invalid email or password") session
      | Some user =>
          let userWithoutPassword := without_password user in
          reply 200 (user_json userWithoutPassword)
                (Some userWithoutPassword)
      end
  end.

Definition post_logout (session : Session) : Async Reply :=
  reply 200 (message "Logged out successfully") None.

Definition get_me (session : Session) : Async Reply :=
  isAuthenticated session (fun user =>
    reply 200 (user_json user) session).

Definition put_profile (body : ProfileBody) (session : Session)
  : Async Reply :=
  isAuthenticated session (fun user =>
    let userId := wp_id user in
    match updateProfileSchema body with
    | None => reply 400 validation_error session
    | Some profileData =>
        updatedUser <-
          await (updateUser userId (profile_fields profileData)) ;;
        match updatedUser with
        | None => reply 404 (message "User not found") session
        | Some updatedUser =>
            let userWithoutPassword := without_password updatedUser in
            reply 200 (user_json userWithoutPassword)
                  (Some userWithoutPassword)
        end
    end).

(* The other handlers read [req.session.user.id] and leave the session as
   it is. *)
Definition dispatch (call : Call) (session : Session) : Async Reply :=
  match call with
  | PostRegister d1 d2 d3 userData => post_register d1 d2 d3 userData session
  | PostLogin body => post_login body session
  | PostLogout => post_logout session
  | GetMe => get_me session
  | GetAccounts =>
      isAuthenticated session (fun user =>
        keeping session (accounts_route (wp_id user)))
  | GetTransactions =>
      isAuthenticated session (fun user =>
        keeping session (transactions_route (wp_id user)))
  | PostTransfer now1 now2 body =>
      isAuthenticated session (fun user =>
        keeping session (transfer_route now1 now2 (wp_id user) body))
  | PostDeposit now body =>
      isAuthenticated session (fun user =>
        keeping session (deposit_route now (wp_id user) body))
  | PostWithdrawal now body =>
      isAuthenticated session (fun user =>
        keeping session (withdrawal_route now (wp_id user) body))
  | PutProfile body => put_profile body session
  | PutPassword body =>
      isAuthenticated session (fun user =>
        keeping session (password_route (wp_id user) body))
  end.

(* The routes behind [isAuthenticated]. *)
Definition protected (call : Call) : bool :=
  match call with
  | PostRegister _ _ _ _ | PostLogin _ | PostLogout => false
  | _ => true
  end.

(* One client's calls, each answered before the next is sent: the replies,
   then the session and the store they leave. *)
Fixpoint browse (calls : list Call) (session : Session) (s : MemStorage)
  : list Response * Session * MemStorage :=
  match calls with
  | [] => ([], session, s)
  | call :: calls' =>
      let '((r, session'), s') := run (dispatch call session) s in
      let '(rs, session'', s'') := browse calls' session' s' in
      (r :: rs, session'', s'')
  end.

(* What a call under [session] may have changed between the store [s]
   and its outcome: of the accounts of other users only the destination of
   a transfer answered 200, by the amount; of the other users nothing. *)
Definition confined (call : Call) (session : Session) (s : MemStorage)
  (out : Reply * MemStorage) : Prop :=
  (forall k a,
     account_of s k = Some a ->
     (forall user, session = Some user -> account_userId a <> wp_id user) ->
     account_of (snd out) k = Some a
     \/ exists now1 now2 body,
          call = PostTransfer now1 now2 body
          /\ tb_toAccountId body = k
          /\ Ok (fst (fst out))
          /\ account_of (snd out) k
             = Some (with_balance a
                       (add (balance a) (parseFloat (tb_amount body)))))
  /\ (forall j u,
        map_get (users s) j = Some u ->
        (forall user, session = Some user -> j <> wp_id user) ->
        map_get (users (snd out)) j = Some u).

(* The session names a stored user, as the store now has it. *)
Definition session_current (session : Session) (s : MemStorage) : Prop :=
  forall user,
    session = Some user ->
    exists stored,
      map_get (users s) (wp_id user) = Some stored
      /\ without_password stored = user.
End Sessions.

(** * Properties *)

(** ** Facts about [Map] *)

Section JSMapFacts.
Context {V : Type}.
Implicit Types (m : JSMap V) (k : Z) (v : V).

Lemma map_get_set_same m k v : map_get (map_set m k v) k = Some v.
Proof.
  induction m as [|[k' v'] m IH]; simpl.
  - now rewrite Z.eqb_refl.
  - destruct (k' =? k) eqn:E; simpl.
    + now rewrite Z.eqb_refl.
    + now rewrite E.
Qed.

Lemma map_get_set_other m k k' v :
  k <> k' -> map_get (map_set m k v) k' = map_get m k'.
Proof.
  intros Hne. induction m as [|[k0 v0] m IH]; simpl.
  - destruct (k =? k') eqn:E; [apply Z.eqb_eq in E; contradiction | easy].
  - destruct (k0 =? k) eqn:E; simpl.
    + apply Z.eqb_eq in E; subst k0.
      destruct (k =? k') eqn:E'; [apply Z.eqb_eq in E'; contradiction|easy].
    + now rewrite IH.
Qed.

Lemma map_get_In m k v : map_get m k = Some v -> In (k, v) m.
Proof.
  induction m as [|[k' v'] m IH]; simpl; [discriminate|].
  destruct (k' =? k) eqn:E; intros H.
  - apply Z.eqb_eq in E. injection H as ->. subst. now left.
  - right. now apply IH.
Qed.

Lemma map_set_In m k v k' v' :
  In (k', v') (map_set m k v) -> (k' = k /\ v' = v) \/ In (k', v') m.
Proof.
  induction m as [|[k0 v0] m IH]; simpl.
  - intros [H|[]]. injection H as <- <-. now left.
  - destruct (k0 =? k) eqn:E; simpl.
    + intros [H|H]; [injection H as <- <-; now left | now right; right].
    + intros [H|H]; [now right; left|].
      destruct (IH H) as [?|?]; [now left | now right; right].
Qed.

Lemma map_set_fresh m k v :
  keys_below m k -> map_set m k v = m ++ [(k, v)].
Proof.
  induction m as [|[k0 v0] m IH]; simpl; intros Hb; [reflexivity|].
  destruct (k0 =? k) eqn:E.
  - apply Z.eqb_eq in E. specialize (Hb k0 v0 (or_introl eq_refl)). lia.
  - f_equal. apply IH. intros k1 v1 H1. apply (Hb k1 v1). now right.
Qed.

Lemma map_values_set_fresh m k v :
  keys_below m k -> map_values (map_set m k v) = map_values m ++ [v].
Proof.
  intros Hb. rewrite map_set_fresh by assumption.
  unfold map_values. now rewrite map_app.
Qed.

Lemma keys_below_set m k v bound :
  keys_below m bound -> k < bound -> keys_below (map_set m k v) bound.
Proof.
  intros Hb Hk k' v' H. destruct (map_set_In _ _ _ _ _ H) as [[-> _]|H'].
  - assumption.
  - now apply (Hb k' v').
Qed.

Lemma keys_below_weaken m b b' :
  keys_below m b -> b <= b' -> keys_below m b'.
Proof. intros Hb Hle k v H. specialize (Hb k v H). lia. Qed.
End JSMapFacts.

(** ** Every handler keeps the store consistent *)

Section Consistency.
Context {N : JSNumber} {Z0 : Zod}.

Lemma safe_run {A} (m : Async A) :
  safe m -> forall s, consistent s -> consistent (snd (run m s)).
Proof.
  induction 1 as [a|X c k Hc Hk IH]; intros s Hs; simpl; [assumption|].
  specialize (Hc s Hs). destruct (c s) as [x s']. now apply IH.
Qed.

Lemma safe_resume {A} (m : Async A) :
  safe m -> forall s, consistent s ->
  safe (fst (resume m s)) /\ consistent (snd (resume m s)).
Proof.
  destruct 1 as [a|X c k Hc Hk]; intros s Hs; simpl.
  - split; [constructor | assumption].
  - specialize (Hc s Hs). destruct (c s) as [x s']. split; [apply Hk | exact Hc].
Qed.

Lemma new_MemStorage_consistent : consistent new_MemStorage.
Proof. split; simpl; intros k v []. Qed.

Lemma preserves_read {X} (f : MemStorage -> X) :
  preserves (fun s => (f s, s)).
Proof. intros s Hs. exact Hs. Qed.

Lemma preserves_createAccount now accountData :
  preserves (createAccount now accountData).
Proof.
  intros s [Ha Hu Fa Fu Ft]. split; simpl; try assumption.
  - intros k a H. destruct (map_set_In _ _ _ _ _ H) as [[-> ->]|H'];
      [reflexivity | now apply Ha].
  - apply keys_below_set; [|lia].
    apply keys_below_weaken with (1 := Fa). lia.
Qed.

Lemma preserves_createUser d1 d2 d3 userData :
  preserves (createUser d1 d2 d3 userData).
Proof.
  intros s [Ha Hu Fa Fu Ft]. unfold createUser.
  cbv zeta. cbn [snd].
  repeat apply preserves_createAccount.
  split; simpl; try assumption.
  - intros k u H. destruct (map_set_In _ _ _ _ _ H) as [[-> ->]|H'];
      [reflexivity | now apply Hu].
  - apply keys_below_set; [|lia].
    apply keys_below_weaken with (1 := Fu). lia.
Qed.

Lemma preserves_updateUser id userData : preserves (updateUser id userData).
Proof.
  intros s Hs. unfold updateUser.
  destruct (map_get (users s) id) as [user|] eqn:E; [|exact Hs].
  destruct Hs as [Ha Hu Fa Fu Ft]. apply map_get_In in E.
  split; simpl; try assumption.
  - intros k u H. destruct (map_set_In _ _ _ _ _ H) as [[-> ->]|H'];
      [simpl; now apply Hu | now apply Hu].
  - apply keys_below_set; [assumption | now apply (Fu id user)].
Qed.

Lemma preserves_updateAccountBalance id amount :
  preserves (updateAccountBalance id amount).
Proof.
  intros s Hs. unfold updateAccountBalance.
  destruct (map_get (accounts s) id) as [account|] eqn:E; [|exact Hs].
  destruct Hs as [Ha Hu Fa Fu Ft]. apply map_get_In in E.
  split; simpl; try assumption.
  - intros k a H. destruct (map_set_In _ _ _ _ _ H) as [[-> ->]|H'];
      [simpl; now apply Ha | now apply Ha].
  - apply keys_below_set; [assumption | now apply (Fa id account)].
Qed.

Lemma preserves_createTransaction now transactionData :
  preserves (createTransaction now transactionData).
Proof.
  intros s [Ha Hu Fa Fu Ft]. split; simpl; try assumption.
  apply keys_below_set; [|lia].
  apply keys_below_weaken with (1 := Ft). lia.
Qed.

Create HintDb preserve.
Hint Resolve preserves_createAccount preserves_createUser
  preserves_updateUser preserves_updateAccountBalance
  preserves_createTransaction : preserve.

Lemma preserves_getUserById id : preserves (getUserById id).
Proof. apply preserves_read. Qed.
Lemma preserves_getUserByEmail e : preserves (getUserByEmail e).
Proof. apply preserves_read. Qed.
Lemma preserves_getAccountById id : preserves (getAccountById id).
Proof. apply preserves_read. Qed.
Lemma preserves_getAccountsByUserId u : preserves (getAccountsByUserId u).
Proof. apply preserves_read. Qed.
Lemma preserves_getTransactionsByUserId u :
  preserves (getTransactionsByUserId u).
Proof. apply preserves_read. Qed.

Hint Resolve preserves_getUserById preserves_getUserByEmail
  preserves_getAccountById preserves_getAccountsByUserId
  preserves_getTransactionsByUserId : preserve.

Ltac safe_step :=
  first
    [ apply safe_Return
    | apply safe_Await; [solve [auto with preserve] | intros ?]
    | match goal with
      | |- safe (match ?x with _ => _ end) => destruct x
      | |- safe (bind (match ?x with _ => _ end) _) => destruct x
      end ]; cbn.

Lemma handle_safe (req : Request) : safe (handle req).
Proof.
  destruct req; cbn;
    unfold register_route, login_route, accounts_route, transactions_route,
      transfer_route, deposit_route, withdrawal_route, profile_route,
      password_route, validateUserPassword, invalid, forbidden,
      insufficient, respond, await; cbn;
    repeat safe_step.
Qed.

Lemma serve_consistent reqs :
  forall s, consistent s -> consistent (serve s reqs).
Proof.
  induction reqs as [|req reqs IH]; intros s Hs; simpl; [assumption|].
  apply IH. apply safe_run; [apply handle_safe | assumption].
Qed.

Lemma reachable_consistent s : reachable s -> consistent s.
Proof.
  intros [reqs ->]. apply serve_consistent, new_MemStorage_consistent.
Qed.
End Consistency.

(** ** Deposits, withdrawals and transfers run alone *)

Section Money.
Context {N : JSNumber}.


Lemma transferSchema_Some body d :
  transferSchema body = Some d ->
  d = body /\ positive_amount (tb_amount body) = true
  /\ tb_fromAccountId body <> tb_toAccountId body.
Proof.
  unfold transferSchema.
  destruct (min 1 (tb_amount body)); simpl; [|discriminate].
  destruct (positive_amount (tb_amount body)); simpl; [|discriminate].
  destruct (min 1 (tb_description body)); simpl; [|discriminate].
  destruct (tb_fromAccountId body =? tb_toAccountId body) eqn:E; simpl;
    [discriminate|].
  intros H; injection H as <-. apply Z.eqb_neq in E. auto.
Qed.

Lemma account_of_id s k a :
  consistent s -> account_of s k = Some a -> account_id a = k.
Proof.
  intros Hs H. apply (account_keys Hs). now apply map_get_In.
Qed.

Lemma transfer_success now1 now2 userId body s fa ta :
  consistent s ->
  transferSchema body = Some body ->
  account_of s (tb_fromAccountId body) = Some fa ->
  account_userId fa = userId ->
  account_of s (tb_toAccountId body) = Some ta ->
  ltb (balance fa) (parseFloat (tb_amount body)) = false ->
  let a := parseFloat (tb_amount body) in
  let t1 :=
    {| tx_id := transactionIdCounter s;
       tx_userId := userId;
       tx_accountId := tb_fromAccountId body;
       tx_type := "transfer";
       amount := neg a;
       description := tb_description body;
       date := now1;
       toAccountId := Some (tb_toAccountId body) |} in
  let t2 :=
    {| tx_id := transactionIdCounter s + 1;
       tx_userId := account_userId ta;
       tx_accountId := tb_toAccountId body;
       tx_type := "transfer";
       amount := a;
       description := "Transfer from account " ++ accountNumber fa;
       date := now2;
       toAccountId := None |} in
  let out := run (transfer_route now1 now2 userId body) s in
  fst out = {| status := 200; json := transaction_json t1 |}
  /\ account_of (snd out) (tb_fromAccountId body)
     = Some (with_balance fa (add (balance fa) (neg a)))
  /\ account_of (snd out) (tb_toAccountId body)
     = Some (with_balance ta (add (balance ta) a))
  /\ (forall id, id <> tb_fromAccountId body -> id <> tb_toAccountId body ->
      account_of (snd out) id = account_of s id)
  /\ ledger (snd out) = ledger s ++ [t1; t2]
  /\ users (snd out) = users s.
Proof.
  intros Hs Hsch Hfa Hu Hta Hlt a t1 t2 out.
  assert (Hfid : account_id fa = tb_fromAccountId body)
    by (eapply account_of_id; eassumption).
  assert (Htid : account_id ta = tb_toAccountId body)
    by (eapply account_of_id; eassumption).
  apply transferSchema_Some in Hsch as Hsch'. destruct Hsch' as (_ & _ & Hne).
  unfold account_of in Hfa, Hta.
  assert (Hout : out =
    ({| status := 200; json := transaction_json t1 |},
     {| users := users s;
        accounts := map_set (map_set (accounts s) (tb_fromAccountId body)
                      (with_balance fa (add (balance fa) (neg a))))
                      (tb_toAccountId body)
                      (with_balance ta (add (balance ta) a));
        transactions := map_set (map_set (transactions s)
                          (transactionIdCounter s) t1)
                          (transactionIdCounter s + 1) t2;
        userIdCounter := userIdCounter s;
        accountIdCounter := accountIdCounter s;
        transactionIdCounter := transactionIdCounter s + 1 + 1 |})).
  { subst out. unfold transfer_route. rewrite Hsch. cbn.
    rewrite Hfa, Hta, Hu, Z.eqb_refl. cbn.
    unfold reparse. rewrite Hlt. cbn. rewrite Hfid, Htid.
    unfold updateAccountBalance at 1. rewrite Hfa. cbv iota beta zeta.
    unfold updateAccountBalance at 1. cbn [accounts].
    rewrite map_get_set_other, Hta by assumption.
    reflexivity. }
  rewrite Hout. unfold account_of, ledger.
  cbn [fst snd accounts transactions users].
  repeat split.
  - rewrite map_get_set_other by congruence. apply map_get_set_same.
  - apply map_get_set_same.
  - intros id H1 H2. now rewrite !map_get_set_other by congruence.
  - pose proof (transactions_fresh Hs) as Ft.
    rewrite map_values_set_fresh.
    + rewrite map_values_set_fresh by assumption.
      now rewrite <- app_assoc.
    + apply keys_below_set; [|lia].
      apply keys_below_weaken with (1 := Ft). lia.
Qed.

Lemma transfer_200_inv now1 now2 userId body s :
  status (fst (run (transfer_route now1 now2 userId body) s)) = 200 ->
  exists fa ta,
    transferSchema body = Some body
    /\ account_of s (tb_fromAccountId body) = Some fa
    /\ account_userId fa = userId
    /\ account_of s (tb_toAccountId body) = Some ta
    /\ ltb (balance fa) (parseFloat (tb_amount body)) = false.
Proof.
  unfold transfer_route, account_of.
  destruct (transferSchema body) as [d|] eqn:Hsch; [|discriminate].
  apply transferSchema_Some in Hsch as Hd. destruct Hd as (-> & _).
  cbn.
  destruct (map_get (accounts s) (tb_fromAccountId body)) as [fa|];
    [|discriminate].
  destruct (account_userId fa =? userId) eqn:Hu; [|discriminate].
  destruct (map_get (accounts s) (tb_toAccountId body)) as [ta|];
    [|discriminate].
  cbn. unfold reparse.
  destruct (ltb (balance fa) (parseFloat (tb_amount body))) eqn:Hlt;
    [discriminate|].
  intros _. exists fa, ta. apply Z.eqb_eq in Hu. auto.
Qed.
Lemma depositSchema_Some body d :
  depositSchema body = Some d ->
  d = body /\ positive_amount (db_amount body) = true.
Proof.
  unfold depositSchema.
  destruct (min 1 (db_amount body)); simpl; [|discriminate].
  destruct (positive_amount (db_amount body)); simpl; [|discriminate].
  destruct (min 1 (db_description body)); simpl; [|discriminate].
  intros H; injection H as <-. auto.
Qed.

Lemma withdrawalSchema_Some body d :
  withdrawalSchema body = Some d ->
  d = body /\ positive_amount (wb_amount body) = true.
Proof.
  unfold withdrawalSchema.
  destruct (min 1 (wb_amount body)); simpl; [|discriminate].
  destruct (positive_amount (wb_amount body)); simpl; [|discriminate].
  destruct (min 1 (wb_description body)); simpl; [|discriminate].
  intros H; injection H as <-. auto.
Qed.

(* What a single balance update followed by one ledger entry leaves. *)
Lemma post_one s id acct delta t :
  consistent s ->
  map_get (accounts s) id = Some acct ->
  let s' :=
    {| users := users s;
       accounts := map_set (accounts s) id
                     (with_balance acct (add (balance acct) delta));
       transactions := map_set (transactions s) (transactionIdCounter s) t;
       userIdCounter := userIdCounter s;
       accountIdCounter := accountIdCounter s;
       transactionIdCounter := transactionIdCounter s + 1 |} in
  account_of s' id = Some (with_balance acct (add (balance acct) delta))
  /\ (forall id', id' <> id -> account_of s' id' = account_of s id')
  /\ ledger s' = ledger s ++ [t]
  /\ users s' = users s.
Proof.
  intros Hs Hacct s'. unfold account_of, ledger.
  cbn [accounts transactions users s'].
  repeat split.
  - apply map_get_set_same.
  - intros id' Hne. now rewrite map_get_set_other by congruence.
  - apply map_values_set_fresh, (transactions_fresh Hs).
Qed.

Lemma deposit_success now userId body s acct :
  consistent s ->
  depositSchema body = Some body ->
  account_of s (db_accountId body) = Some acct ->
  account_userId acct = userId ->
  let a := parseFloat (db_amount body) in
  let t :=
    {| tx_id := transactionIdCounter s;
       tx_userId := userId;
       tx_accountId := db_accountId body;
       tx_type := "deposit";
       amount := a;
       description := db_description body;
       date := now;
       toAccountId := None |} in
  let out := run (deposit_route now userId body) s in
  fst out = {| status := 200; json := transaction_json t |}
  /\ account_of (snd out) (db_accountId body)
     = Some (with_balance acct (add (balance acct) a))
  /\ (forall id, id <> db_accountId body ->
      account_of (snd out) id = account_of s id)
  /\ ledger (snd out) = ledger s ++ [t]
  /\ users (snd out) = users s.
Proof.
  intros Hs Hsch Hacct Hu a t out.
  assert (Hid : account_id acct = db_accountId body)
    by (eapply account_of_id; eassumption).
  unfold account_of in Hacct.
  assert (Hout : out =
    ({| status := 200; json := transaction_json t |},
     {| users := users s;
        accounts := map_set (accounts s) (db_accountId body)
                      (with_balance acct (add (balance acct) a));
        transactions := map_set (transactions s) (transactionIdCounter s) t;
        userIdCounter := userIdCounter s;
        accountIdCounter := accountIdCounter s;
        transactionIdCounter := transactionIdCounter s + 1 |})).
  { subst out. unfold deposit_route. rewrite Hsch. cbn.
    rewrite Hacct, Hu, Z.eqb_refl. cbn. rewrite Hid.
    unfold updateAccountBalance at 1. rewrite Hacct. reflexivity. }
  rewrite Hout. cbn [fst snd]. split; [reflexivity|].
  now apply post_one.
Qed.

Lemma withdrawal_success now userId body s acct :
  consistent s ->
  withdrawalSchema body = Some body ->
  account_of s (wb_accountId body) = Some acct ->
  account_userId acct = userId ->
  negb (String.eqb (account_type acct) "credit")
    && ltb (balance acct) (parseFloat (wb_amount body)) = false ->
  let a := parseFloat (wb_amount body) in
  let t :=
    {| tx_id := transactionIdCounter s;
       tx_userId := userId;
       tx_accountId := wb_accountId body;
       tx_type := "withdrawal";
       amount := neg a;
       description := wb_description body;
       date := now;
       toAccountId := None |} in
  let out := run (withdrawal_route now userId body) s in
  fst out = {| status := 200; json := transaction_json t |}
  /\ account_of (snd out) (wb_accountId body)
     = Some (with_balance acct (add (balance acct) (neg a)))
  /\ (forall id, id <> wb_accountId body ->
      account_of (snd out) id = account_of s id)
  /\ ledger (snd out) = ledger s ++ [t]
  /\ users (snd out) = users s.
Proof.
  intros Hs Hsch Hacct Hu Hgate a t out.
  assert (Hid : account_id acct = wb_accountId body)
    by (eapply account_of_id; eassumption).
  unfold account_of in Hacct.
  assert (Hout : out =
    ({| status := 200; json := transaction_json t |},
     {| users := users s;
        accounts := map_set (accounts s) (wb_accountId body)
                      (with_balance acct (add (balance acct) (neg a)));
        transactions := map_set (transactions s) (transactionIdCounter s) t;
        userIdCounter := userIdCounter s;
        accountIdCounter := accountIdCounter s;
        transactionIdCounter := transactionIdCounter s + 1 |})).
  { subst out. unfold withdrawal_route. rewrite Hsch. cbn.
    rewrite Hacct, Hu, Z.eqb_refl. cbn. unfold reparse.
    rewrite Hgate. cbn. rewrite Hid.
    unfold updateAccountBalance at 1. rewrite Hacct. reflexivity. }
  rewrite Hout. cbn [fst snd]. split; [reflexivity|].
  now apply post_one.
Qed.

(** A handler that does not answer 200 has not touched the store. *)

Lemma transfer_failure now1 now2 userId body s :
  let out := run (transfer_route now1 now2 userId body) s in
  ~ Ok (fst out) -> snd out = s.
Proof.
  unfold Ok, transfer_route.
  destruct (transferSchema body) as [d|]; [|reflexivity]. cbn.
  destruct (map_get (accounts s) (tb_fromAccountId d)) as [fa|];
    [|reflexivity].
  destruct (negb (account_userId fa =? userId)); [reflexivity|].
  destruct (map_get (accounts s) (tb_toAccountId d)) as [ta|];
    [|reflexivity].
  cbn. destruct (ltb _ _); [reflexivity|]. cbn.
  do 2 destruct (updateAccountBalance _ _ _). cbn. intros H. now elim H.
Qed.

Lemma deposit_failure now userId body s :
  let out := run (deposit_route now userId body) s in
  ~ Ok (fst out) -> snd out = s.
Proof.
  unfold Ok, deposit_route.
  destruct (depositSchema body) as [d|]; [|reflexivity]. cbn.
  destruct (map_get (accounts s) (db_accountId d)) as [acct|];
    [|reflexivity].
  destruct (negb (account_userId acct =? userId)); [reflexivity|].
  cbn. destruct (updateAccountBalance _ _ _). cbn. intros H. now elim H.
Qed.

Lemma withdrawal_failure now userId body s :
  let out := run (withdrawal_route now userId body) s in
  ~ Ok (fst out) -> snd out = s.
Proof.
  unfold Ok, withdrawal_route.
  destruct (withdrawalSchema body) as [d|]; [|reflexivity]. cbn.
  destruct (map_get (accounts s) (wb_accountId d)) as [acct|];
    [|reflexivity].
  destruct (negb (account_userId acct =? userId)); [reflexivity|].
  cbn. destruct (_ && _); [reflexivity|].
  cbn. destruct (updateAccountBalance _ _ _). cbn. intros H. now elim H.
Qed.

Lemma deposit_200_inv now userId body s :
  Ok (fst (run (deposit_route now userId body) s)) ->
  exists acct,
    depositSchema body = Some body
    /\ account_of s (db_accountId body) = Some acct
    /\ account_userId acct = userId.
Proof.
  unfold Ok, deposit_route, account_of.
  destruct (depositSchema body) as [d|] eqn:Hsch; [|discriminate].
  apply depositSchema_Some in Hsch as Hd. destruct Hd as (-> & _). cbn.
  destruct (map_get (accounts s) (db_accountId body)) as [acct|];
    [|discriminate].
  destruct (account_userId acct =? userId) eqn:Hu; [|discriminate].
  intros _. exists acct. apply Z.eqb_eq in Hu. auto.
Qed.

Lemma withdrawal_200_inv now userId body s :
  Ok (fst (run (withdrawal_route now userId body) s)) ->
  exists acct,
    withdrawalSchema body = Some body
    /\ account_of s (wb_accountId body) = Some acct
    /\ account_userId acct = userId
    /\ negb (String.eqb (account_type acct) "credit")
         && ltb (balance acct) (parseFloat (wb_amount body)) = false.
Proof.
  unfold Ok, withdrawal_route, account_of.
  destruct (withdrawalSchema body) as [d|] eqn:Hsch; [|discriminate].
  apply withdrawalSchema_Some in Hsch as Hd. destruct Hd as (-> & _). cbn.
  destruct (map_get (accounts s) (wb_accountId body)) as [acct|];
    [|discriminate].
  destruct (account_userId acct =? userId) eqn:Hu; [|discriminate].
  cbn. unfold reparse.
  destruct (_ && _) eqn:Hgate; [discriminate|].
  intros _. exists acct. apply Z.eqb_eq in Hu. auto.
Qed.

Lemma balance_of_account s id acct :
  account_of s id = Some acct -> balance_of s id = Some (balance acct).
Proof. unfold balance_of. now intros ->. Qed.

(** X21.  A transfer that succeeds has a source and a destination that
    differ.  The balance of the source becomes that balance plus minus the
    amount, the balance of the destination that balance plus the amount,
    each by one addition of the store's arithmetic, with whatever that
    addition rounds; every other account stays as it was. *)
Theorem transfer_conservation now1 now2 userId body s :
  consistent s ->
  let out := run (transfer_route now1 now2 userId body) s in
  Ok (fst out) ->
  let a := parseFloat (tb_amount body) in
  let src := tb_fromAccountId body in
  let dst := tb_toAccountId body in
  src <> dst
  /\ exists bs bd bs' bd',
       balance_of s src = Some bs
       /\ balance_of s dst = Some bd
       /\ balance_of (snd out) src = Some bs'
       /\ balance_of (snd out) dst = Some bd'
       /\ bs' = add bs (neg a)
       /\ bd' = add bd a
       /\ forall id, id <> src -> id <> dst ->
                     account_of (snd out) id = account_of s id.
Proof.
  intros Hs out Hok a src dst.
  destruct (transfer_200_inv _ _ _ _ _ Hok)
    as (fa & ta & Hsch & Hfa & Hu & Hta & Hlt).
  destruct (transfer_success now1 now2 Hs Hsch Hfa Hu Hta Hlt)
    as (_ & Hfa' & Hta' & Hrest & _).
  split.
  - apply transferSchema_Some in Hsch. tauto.
  - exists (balance fa), (balance ta),
      (add (balance fa) (neg a)), (add (balance ta) a).
    split; [now apply balance_of_account|].
    split; [now apply balance_of_account|].
    split; [exact (balance_of_account _ _ Hfa')|].
    split; [exact (balance_of_account _ _ Hta')|].
    split; [reflexivity|]. split; [reflexivity|].
    exact Hrest.
Qed.


(** C3.  A transfer whose source belongs to the caller and whose
    destination exists is refused with InsufficientFunds, the store
    untouched, exactly when the source holds less than the amount; the type
    of the source account plays no part, so a credit account is refused
    where the withdrawal handler, whose check reads
    [account.type !== "credit" && balance < amount], lets the same amount
    out of the same account.  Otherwise the transfer succeeds and lowers the
    source balance by the amount. *)
Theorem transfer_funds_gate now1 now2 userId body s fa ta :
  consistent s ->
  transferSchema body = Some body ->
  account_of s (tb_fromAccountId body) = Some fa ->
  account_userId fa = userId ->
  account_of s (tb_toAccountId body) = Some ta ->
  let a := parseFloat (tb_amount body) in
  let out := run (transfer_route now1 now2 userId body) s in
  (ltb (balance fa) a = true -> InsufficientFunds (fst out) /\ snd out = s)
  /\ (ltb (balance fa) a = false ->
      Ok (fst out)
      /\ balance_of (snd out) (tb_fromAccountId body)
         = Some (add (balance fa) (neg a))).
Proof.
  intros Hs Hsch Hfa Hu Hta a out. split; intros Hlt.
  - assert (Hr : fst out = {| status := 400;
                              json := message "Insufficient funds" |}).
    { subst out. unfold transfer_route, account_of in *.
      rewrite Hsch. cbn. rewrite Hfa, Hta, Hu, Z.eqb_refl. cbn.
      unfold reparse. fold a. now rewrite Hlt. }
    split; [exact Hr|].
    apply transfer_failure. fold out. rewrite Hr. unfold Ok. cbn. lia.
  - destruct (transfer_success now1 now2 Hs Hsch Hfa Hu Hta Hlt)
      as (Hr & Hfa' & _).
    split.
    + unfold Ok. fold out in Hr. now rewrite Hr.
    + exact (balance_of_account _ _ Hfa').
Qed.

Lemma status_dec (r : Response) : {Ok r} + {~ Ok r}.
Proof. unfold Ok. apply Z.eq_dec. Qed.

(** X22.  A transfer that succeeds appends exactly two entries: first the
    debit leg, posted against the source with minus the amount, the
    caller as user and the destination as counterparty; then the credit
    leg, posted against the destination with the amount, the owner of the
    destination as user, the description "Transfer from account" followed
    by the number of the source account, and no counterparty.  The amount
    of the debit leg is the opposite of the amount of the credit leg, and
    the debit leg is what the handler returns.  Any other request, a
    refused transfer included, appends at most one. *)
Theorem transfer_pairing {Z0 : Zod} :
  (forall now1 now2 userId body s,
    consistent s ->
    let out := run (transfer_route now1 now2 userId body) s in
    Ok (fst out) ->
    let a := parseFloat (tb_amount body) in
    exists fa ta debit credit,
      account_of s (tb_fromAccountId body) = Some fa
      /\ account_of s (tb_toAccountId body) = Some ta
      /\ ledger (snd out) = ledger s ++ [debit; credit]
      /\ json (fst out) = transaction_json debit
      /\ tx_accountId debit = tb_fromAccountId body
      /\ amount debit = neg a
      /\ tx_userId debit = userId
      /\ toAccountId debit = Some (tb_toAccountId body)
      /\ tx_accountId credit = tb_toAccountId body
      /\ amount credit = a
      /\ tx_userId credit = account_userId ta
      /\ description credit
         = ("Transfer from account " ++ accountNumber fa)%string
      /\ toAccountId credit = None
      /\ tx_type debit = "transfer"%string
      /\ tx_type credit = "transfer"%string
      /\ amount debit = neg (amount credit))
  /\ (forall req s,
       consistent s ->
       let out := run (handle req) s in
       is_transfer req = false \/ ~ Ok (fst out) ->
       ledger (snd out) = ledger s
       \/ exists t, ledger (snd out) = ledger s ++ [t]).
Proof.
  split.
  - intros now1 now2 userId body s Hs out Hok a.
    destruct (transfer_200_inv _ _ _ _ _ Hok)
      as (fa & ta & Hsch & Hfa & Hu & Hta & Hlt).
    destruct (transfer_success now1 now2 Hs Hsch Hfa Hu Hta Hlt)
      as (Hr & _ & _ & _ & Hl & _).
    fold out in Hr, Hl. exists fa, ta. do 2 eexists.
    split; [exact Hfa|]. split; [exact Hta|]. split; [exact Hl|].
    rewrite Hr. cbn -[String.append].
    repeat (split; [reflexivity|]). reflexivity.
  - intros req s Hs out Hcase.
    destruct req; cbn in out.
    + left. subst out. unfold register_route. cbn.
      destruct (find _ _); reflexivity.
    + left. subst out. unfold login_route.
      destruct (loginSchema body); [|reflexivity]. cbn.
      destruct (find _ _) as [u|]; [|reflexivity].
      cbn. destruct (String.eqb _ _); reflexivity.
    + left. reflexivity.
    + left. reflexivity.
    + left. destruct Hcase as [Hcase|Hcase]; [discriminate|].
      subst out. now rewrite transfer_failure.
    + destruct (status_dec (fst out)) as [Hok|Hno].
      * right. destruct (deposit_200_inv _ _ _ _ Hok)
          as (acct & Hsch & Hacct & Hu).
        destruct (deposit_success now Hs Hsch Hacct Hu)
          as (_ & _ & _ & Hl & _).
        eexists. exact Hl.
      * left. subst out. now rewrite deposit_failure.
    + destruct (status_dec (fst out)) as [Hok|Hno].
      * right. destruct (withdrawal_200_inv _ _ _ _ Hok)
          as (acct & Hsch & Hacct & Hu & Hgate).
        destruct (withdrawal_success now Hs Hsch Hacct Hu Hgate)
          as (_ & _ & _ & Hl & _).
        eexists. exact Hl.
      * left. subst out. now rewrite withdrawal_failure.
    + left. subst out. unfold profile_route.
      destruct (updateProfileSchema body); [|reflexivity]. cbn.
      unfold updateUser. destruct (map_get _ _); reflexivity.
    + left. subst out. unfold password_route.
      destruct (changePasswordSchema body); [|reflexivity]. cbn.
      destruct (map_get (users s) userId) as [u|]; [|reflexivity].
      destruct (negb _); [reflexivity|]. cbn.
      unfold updateUser. destruct (map_get _ _); reflexivity.
Qed.

(** C5, as the code has it.  A deposit, withdrawal or transfer whose body
    passes its schema is answered PermissionDenied exactly when the
    account it is posted against is absent or belongs to another user,
    whatever the funds; the store is then untouched.  An absent account
    is not told apart from a foreign one. *)
Theorem unowned_account_refused {Z0 : Zod} req userId id s :
  primary req = Some (userId, id) ->
  validated req = true ->
  let out := run (handle req) s in
  (PermissionDenied (fst out) <-> not_owned s userId id)
  /\ (not_owned s userId id -> snd out = s).
Proof.
  intros Hp Hv out.
  assert (Hiff : PermissionDenied (fst out) <-> not_owned s userId id).
  { subst out. unfold PermissionDenied, not_owned, account_of.
    destruct req; try discriminate; cbn in Hp, Hv |- *;
      injection Hp as <- <-.
    - unfold transfer_route.
      destruct (transferSchema body) as [d|] eqn:Hsch; [|discriminate].
      apply transferSchema_Some in Hsch as (-> & _). cbn.
      destruct (map_get (accounts s) (tb_fromAccountId body)) as [fa|];
        [|cbn; tauto].
      destruct (account_userId fa =? userId0) eqn:Hu; cbn.
      + apply Z.eqb_eq in Hu.
        destruct (map_get (accounts s) (tb_toAccountId body));
          [|cbn; split; [discriminate | contradiction]].
        cbn. destruct (ltb _ _); cbn;
          [split; [discriminate | contradiction]|].
        do 2 destruct (updateAccountBalance _ _ _). cbn.
        split; [discriminate | contradiction].
      + apply Z.eqb_neq in Hu. tauto.
    - unfold deposit_route.
      destruct (depositSchema body) as [d|] eqn:Hsch; [|discriminate].
      apply depositSchema_Some in Hsch as (-> & _). cbn.
      destruct (map_get (accounts s) (db_accountId body)) as [acct|];
        [|cbn; tauto].
      destruct (account_userId acct =? userId0) eqn:Hu; cbn.
      + apply Z.eqb_eq in Hu.
        destruct (updateAccountBalance _ _ _). cbn.
        split; [discriminate | contradiction].
      + apply Z.eqb_neq in Hu. tauto.
    - unfold withdrawal_route.
      destruct (withdrawalSchema body) as [d|] eqn:Hsch; [|discriminate].
      apply withdrawalSchema_Some in Hsch as (-> & _). cbn.
      destruct (map_get (accounts s) (wb_accountId body)) as [acct|];
        [|cbn; tauto].
      destruct (account_userId acct =? userId0) eqn:Hu; cbn.
      + apply Z.eqb_eq in Hu.
        destruct (_ && _); cbn; [split; [discriminate | contradiction]|].
        destruct (updateAccountBalance _ _ _). cbn.
        split; [discriminate | contradiction].
      + apply Z.eqb_neq in Hu. tauto. }
  split; [exact Hiff|].
  intros Hno. apply Hiff in Hno.
  assert (Hnok : ~ Ok (fst out)).
  { unfold Ok, PermissionDenied in *. rewrite Hno. lia. }
  subst out.
  destruct req; try discriminate; cbn in Hnok |- *.
  - now apply transfer_failure.
  - now apply deposit_failure.
  - now apply withdrawal_failure.
Qed.
End Money.

(** ** The properties above on concrete requests *)

Lemma one_customer_consistent : consistent one_customer.
Proof. apply serve_consistent, new_MemStorage_consistent. Qed.

Lemma two_customers_consistent : consistent two_customers.
Proof. apply serve_consistent, one_customer_consistent. Qed.

(* 500.00 from the checking account (2500.00) to the savings account
   (10000.00) leaves 2000.00 and 10500.00. *)
Lemma transfer_conservation_witness :
  let body := {| tb_fromAccountId := 1; tb_toAccountId := 2;
                 tb_amount := "500.00"; tb_description := "rainy day" |} in
  let out := run (transfer_route 5000 5001 1 body) one_customer in
  Ok (fst out)
  /\ balance_of one_customer 1 = Some 250000
  /\ balance_of one_customer 2 = Some 1000000
  /\ balance_of (snd out) 1 = Some 200000
  /\ balance_of (snd out) 2 = Some 1050000
  /\ account_of (snd out) 3 = account_of one_customer 3.
Proof.
  intros body out.
  assert (Hok : Ok (fst out)) by reflexivity.
  destruct (transfer_conservation 5000 5001 1 body
              one_customer_consistent Hok)
    as (_ & bs & bd & bs' & bd' & H1 & H2 & H3 & H4 & H5 & H6 & H7).
  vm_compute in H1, H2. injection H1 as <-. injection H2 as <-.
  vm_compute in H5, H6. subst bs' bd'.
  refine (conj Hok (conj eq_refl (conj eq_refl
            (conj H3 (conj H4 (H7 3 _ _)))))); discriminate.
Defined.


Lemma credit_transfer_is_gated :
  ~ (forall (s : @MemStorage Cents) now1 now2 userId body fa ta,
       consistent s ->
       transferSchema (N := Cents) body = Some body ->
       account_of s (tb_fromAccountId body) = Some fa ->
       account_userId fa = userId ->
       account_type fa = "credit"%string ->
       account_of s (tb_toAccountId body) = Some ta ->
       Ok (fst (run (transfer_route now1 now2 userId body) s))).
Proof.
  intros H.
  specialize (H one_customer 5000 5001 1 cash_advance _ _
                one_customer_consistent eq_refl eq_refl eq_refl eq_refl
                eq_refl).
  vm_compute in H. discriminate.
Qed.

Lemma transfer_funds_gate_witness :
  let out := run (transfer_route 5000 5001 1 cash_advance) one_customer in
  InsufficientFunds (fst out) /\ snd out = one_customer.
Proof.
  intros out.
  pose (fa := {| account_id := 3; account_userId := 1;
                 account_type := "credit"; accountNumber := "9C0D1E2F";
                 balance := (0 : @num Cents); createdAt := 1000 |}).
  pose (ta := {| account_id := 1; account_userId := 1;
                 account_type := "checking"; accountNumber := "1A2B3C4D";
                 balance := (250000 : @num Cents); createdAt := 1000 |}).
  destruct (transfer_funds_gate 5000 5001 (userId := 1)
              (body := cash_advance) (fa := fa) (ta := ta)
              one_customer_consistent eq_refl eq_refl eq_refl eq_refl)
    as [Hgate _].
  apply Hgate. reflexivity.
Defined.

Lemma transfer_pairing_witness :
  let body := {| tb_fromAccountId := 1; tb_toAccountId := 2;
                 tb_amount := "500.00"; tb_description := "rainy day" |} in
  let out := run (transfer_route 5000 5001 1 body) one_customer in
  exists debit credit,
    ledger (snd out) = [debit; credit]
    /\ json (fst out) = transaction_json debit
    /\ amount debit = -50000 /\ toAccountId debit = Some 2
    /\ amount credit = 50000 /\ toAccountId credit = None.
Proof.
  intros body out.
  assert (Hok : Ok (fst out)) by reflexivity.
  destruct (proj1 (transfer_pairing (Z0 := AtSign))
              5000 5001 1 body one_customer one_customer_consistent Hok)
    as (fa & ta & debit & credit & _ & _ & Hl & Hj & _ & Hd & _ & Hc
        & _ & Ha & _ & _ & Hn & _).
  exists debit, credit. repeat split; assumption.
Defined.

Lemma absent_account_is_denied :
  ~ (forall (s : @MemStorage Cents) now userId body,
       depositSchema (N := Cents) body = Some body ->
       account_of s (db_accountId body) = None ->
       NotFound (fst (run (deposit_route now userId body) s))).
Proof.
  intros H.
  specialize (H one_customer 7000 1 stray_deposit eq_refl eq_refl).
  vm_compute in H. discriminate.
Qed.

Lemma unowned_account_refused_witness :
  let out := run (handle (Z0 := AtSign) (Deposit 7000 1 stray_deposit))
                 one_customer in
  PermissionDenied (fst out) /\ snd out = one_customer.
Proof.
  intros out.
  destruct (unowned_account_refused (Z0 := AtSign)
              (Deposit 7000 1 stray_deposit) (userId := 1) (id := 99)
              one_customer eq_refl eq_refl) as [Hiff Hsame].
  assert (Hno : not_owned one_customer 1 99) by exact I.
  split; [now apply Hiff | now apply Hsame].
Defined.

(** ** Listings *)

Section SortFacts.
Variable A : Type.
Variable key : A -> Z.

(* The comparator of the listings: a larger key goes first. *)
Let by_key (a b : A) : Z := key b - key a.
Let descending (a b : A) : Prop := key b <= key a.

Lemma sort_insert_perm x l :
  Permutation (sort_insert by_key x l) (x :: l).
Proof.
  induction l as [|y l IH]; simpl; [reflexivity|].
  destruct (0 <? by_key x y); [|reflexivity].
  rewrite IH. apply perm_swap.
Qed.

Lemma Array_sort_perm l : Permutation (Array_sort by_key l) l.
Proof.
  induction l as [|x l IH]; simpl; [reflexivity|].
  rewrite sort_insert_perm. now constructor.
Qed.

Lemma sort_insert_sorted x l :
  StronglySorted descending l ->
  StronglySorted descending (sort_insert by_key x l).
Proof.
  induction 1 as [|y l Hl IH Hy]; simpl.
  - repeat constructor.
  - destruct (Z.ltb_spec 0 (by_key x y)) as [Hlt|Hge].
    + constructor; [exact IH|].
      rewrite Forall_forall. intros z Hz.
      apply (Permutation_in _ (sort_insert_perm x l)) in Hz.
      destruct Hz as [<-|Hz].
      * unfold descending, by_key in *. lia.
      * rewrite Forall_forall in Hy. now apply Hy.
    + constructor; [now constructor|].
      constructor; [unfold descending, by_key in *; lia|].
      rewrite Forall_forall in *. intros z Hz. specialize (Hy z Hz).
      unfold descending, by_key in *. lia.
Qed.

Lemma Array_sort_sorted l : StronglySorted descending (Array_sort by_key l).
Proof.
  induction l as [|x l IH]; simpl; [constructor|].
  now apply sort_insert_sorted.
Qed.

(* Stability: the elements of one key never overtake each other. *)
Lemma sort_insert_stable d x l :
  filter (fun a => key a =? d) (sort_insert by_key x l)
  = filter (fun a => key a =? d) (x :: l).
Proof.
  induction l as [|y l IH]; [reflexivity|].
  cbn [sort_insert].
  destruct (Z.ltb_spec 0 (by_key x y)) as [Hlt|Hge]; [|reflexivity].
  cbn [filter] in *. rewrite IH.
  destruct (Z.eqb_spec (key y) d) as [Hy|Hy];
    destruct (Z.eqb_spec (key x) d) as [Hx|Hx];
    try reflexivity.
  unfold by_key in Hlt. lia.
Qed.

Lemma Array_sort_stable d l :
  filter (fun a => key a =? d) (Array_sort by_key l)
  = filter (fun a => key a =? d) l.
Proof.
  induction l as [|x l IH]; [reflexivity|].
  cbn [Array_sort]. rewrite sort_insert_stable.
  cbn [filter]. now rewrite IH.
Qed.
End SortFacts.

Section Listings.
Context {N : JSNumber}.

(** C7, as the code has it.  The listing of a user holds exactly the
    ledger entries of that user, each as often as the ledger has it, newest
    first; entries with one timestamp stay in ledger order, the earliest
    appended first.  The listing of an account obeys the same order, and
    neither touches the store. *)
Theorem listings_newest_first s :
  (forall userId,
    let mine := filter (fun t => tx_userId t =? userId) (ledger s) in
    let out := getTransactionsByUserId userId s in
    snd out = s
    /\ Permutation (fst out) mine
    /\ (forall t, In t (fst out) <-> In t (ledger s) /\ tx_userId t = userId)
    /\ newest_to_oldest (fst out)
    /\ forall d, stamped d (fst out) = stamped d mine)
  /\ (forall accountId,
    let posted := filter (fun t => tx_accountId t =? accountId) (ledger s) in
    let out := getTransactionsByAccountId accountId s in
    snd out = s
    /\ Permutation (fst out) posted
    /\ (forall t, In t (fst out)
                  <-> In t (ledger s) /\ tx_accountId t = accountId)
    /\ newest_to_oldest (fst out)
    /\ forall d, stamped d (fst out) = stamped d posted).
Proof.
  split; intros k selected out; subst out selected;
    unfold getTransactionsByUserId, getTransactionsByAccountId,
      newest_to_oldest, stamped, ledger; cbn [fst snd];
    (split; [reflexivity|]);
    (split; [apply (Array_sort_perm date)|]);
    (split; [|split; [apply (Array_sort_sorted date)
                     | intros d; apply (Array_sort_stable date)]]).
  - intros t. split.
    + intros H. apply (Permutation_in _ (Array_sort_perm date _)) in H.
      apply filter_In in H as [H1 H2]. apply Z.eqb_eq in H2. auto.
    + intros [H1 H2].
      apply (Permutation_in _ (Permutation_sym (Array_sort_perm date _))).
      apply filter_In. split; [assumption | now apply Z.eqb_eq].
  - intros t. split.
    + intros H. apply (Permutation_in _ (Array_sort_perm date _)) in H.
      apply filter_In in H as [H1 H2]. apply Z.eqb_eq in H2. auto.
    + intros [H1 H2].
      apply (Permutation_in _ (Permutation_sym (Array_sort_perm date _))).
      apply filter_In. split; [assumption | now apply Z.eqb_eq].
Qed.
End Listings.

Lemma after_instant_transfer_reachable :
  reachable (Z0 := AtSign) after_instant_transfer.
Proof.
  exists [Register ("1A2B3C4D"%string, 1000) ("5E6F7A8B"%string, 1000)
                   ("9C0D1E2F"%string, 1000) alice; instant_transfer].
  reflexivity.
Qed.

Lemma ties_keep_ledger_order :
  ~ (forall (s : @MemStorage Cents) userId l1 a l2 b l3,
       reachable (Z0 := AtSign) s ->
       fst (getTransactionsByUserId userId s) = l1 ++ a :: l2 ++ b :: l3 ->
       date a = date b ->
       tx_id b < tx_id a).
Proof.
  intros H.
  specialize (H after_instant_transfer 1 [] _ [] _ []
                after_instant_transfer_reachable eq_refl eq_refl).
  vm_compute in H. discriminate.
Qed.

(** ** Users *)

Section Users.
Context {N : JSNumber} {Z0 : Zod}.

Lemma find_first {A : Type} (f : A -> bool) (l : list A) (x : A) :
  find f l = Some x <->
  exists before after,
    l = before ++ x :: after
    /\ Forall (fun y => f y = false) before
    /\ f x = true.
Proof.
  split.
  - induction l as [|y l IH]; simpl; [discriminate|].
    destruct (f y) eqn:Hy.
    + intros H; injection H as <-. exists [], l. repeat split; auto.
    + intros H. destruct (IH H) as (before & after & -> & Hb & Hx).
      exists (y :: before), after. repeat split; auto.
  - intros (before & after & -> & Hb & Hx).
    induction Hb as [|y before Hy Hb IH]; simpl.
    + now rewrite Hx.
    + now rewrite Hy.
Qed.

Lemma find_email_None e (l : list User) :
  find (fun u => String.eqb (email u) e) l = None <-> ~ In e (map email l).
Proof.
  induction l as [|u l IH]; simpl; [tauto|].
  destruct (String.eqb_spec (email u) e) as [He|He].
  - split; [discriminate | intros H; elim H; now left].
  - rewrite IH. tauto.
Qed.

(* Registration refuses an address that some user already has. *)
Lemma register_refuses_known_email d1 d2 d3 userData s :
  In (iu_email userData) (emails s) ->
  let out := run (register_route d1 d2 d3 userData) s in
  DuplicateEmail (fst out) /\ snd out = s.
Proof.
  intros Hin out. subst out. unfold register_route, DuplicateEmail. cbn.
  destruct (find _ _) eqn:Hf; [split; reflexivity|].
  apply find_email_None in Hf. contradiction.
Qed.

(* Registration of a new address keeps the addresses distinct. *)
Lemma register_keeps_emails_distinct d1 d2 d3 userData s :
  consistent s ->
  NoDup (emails s) ->
  NoDup (emails (snd (run (register_route d1 d2 d3 userData) s))).
Proof.
  intros Hs Hnd. unfold register_route, await, respond.
  cbn [bind run]. unfold getUserByEmail at 1.
  destruct (find _ _) eqn:Hf; [exact Hnd|].
  apply find_email_None in Hf. cbn [bind run].
  destruct (createUser d1 d2 d3 userData s) as [user s'] eqn:Hc.
  cbn [run snd].
  assert (Hu : users s' = map_set (users s) (userIdCounter s) user).
  { unfold createUser in Hc. now injection Hc as <- <-. }
  assert (He : email user = iu_email userData).
  { unfold createUser in Hc. now injection Hc as <- _. }
  unfold emails, directory in *. rewrite Hu.
  rewrite map_values_set_fresh by apply (users_fresh Hs).
  rewrite map_app. cbn [map]. rewrite He.
  apply (Permutation_NoDup (Permutation_cons_append _ _)).
  now constructor.
Qed.

(** C10, as the code has it.  [authenticate] reads the store without
    changing it and returns a user exactly when the first stored user
    with the given email has a stored password equal, character for
    character, to the given one; it then returns that user.  While no two
    users share an email this is: exactly when some stored user has that
    email and that password.  A login whose body passes its schema
    answers with that user, or else with InvalidCredentials. *)
Theorem authenticate_first_match e p s :
  let out := run (validateUserPassword e p) s in
  snd out = s
  /\ (forall u,
       fst out = Some u <->
       exists before after,
         directory s = before ++ u :: after
         /\ Forall (fun v => email v <> e) before
         /\ email u = e /\ password u = p)
  /\ (NoDup (emails s) ->
      forall u,
        fst out = Some u <->
        In u (directory s) /\ email u = e /\ password u = p)
  /\ (forall body,
       loginSchema body = Some body ->
       lb_email body = e -> lb_password body = p ->
       let r := fst (run (login_route body) s) in
       match fst out with
       | Some u =>
           r = {| status := 200; json := user_json (without_password u) |}
       | None => InvalidCredentials r
       end).
Proof.
  intros out.
  assert (Hfirst : forall u,
       fst out = Some u <->
       exists before after,
         directory s = before ++ u :: after
         /\ Forall (fun v => email v <> e) before
         /\ email u = e /\ password u = p).
  { intros u. subst out. unfold validateUserPassword, directory. cbn.
    destruct (find (fun user => String.eqb (email user) e)
                   (map_values (users s))) as [u0|] eqn:Hf.
    - apply find_first in Hf as (b0 & a0 & Hl & Hb0 & Hu0).
      apply String.eqb_eq in Hu0.
      assert (Hb0' : Forall (fun v => email v <> e) b0).
      { eapply Forall_impl; [|exact Hb0]. intros v Hv.
        now apply String.eqb_neq. }
      destruct (String.eqb_spec (password u0) p) as [Hp|Hp]; cbn.
      + split.
        * intros H; injection H as <-. exists b0, a0. auto.
        * intros (b1 & a1 & Hl1 & Hb1 & Hu1 & _).
          f_equal. rewrite Hl in Hl1.
          clear - Hl1 Hb0' Hb1 Hu0 Hu1.
          revert b1 Hl1 Hb1.
          induction Hb0' as [|v b0 Hv Hb0' IH]; intros b1 Hl1 Hb1.
          -- destruct b1 as [|w b1]; cbn in Hl1.
             ++ now injection Hl1.
             ++ injection Hl1 as <- _. inversion Hb1; subst. contradiction.
          -- destruct b1 as [|w b1]; cbn in Hl1.
             ++ injection Hl1 as -> _. contradiction.
             ++ injection Hl1 as <- Hl1. inversion Hb1; subst.
                now apply (IH b1).
      + split; [discriminate|].
        intros (b1 & a1 & Hl1 & Hb1 & Hu1 & Hp1).
        exfalso. apply Hp. rewrite <- Hp1. f_equal.
        rewrite Hl in Hl1.
        clear - Hl1 Hb0' Hb1 Hu0 Hu1.
        revert b1 Hl1 Hb1.
        induction Hb0' as [|v b0 Hv Hb0' IH]; intros b1 Hl1 Hb1.
        -- destruct b1 as [|w b1]; cbn in Hl1.
           ++ now injection Hl1.
           ++ injection Hl1 as <- _. inversion Hb1; subst. contradiction.
        -- destruct b1 as [|w b1]; cbn in Hl1.
           ++ injection Hl1 as -> _. contradiction.
           ++ injection Hl1 as <- Hl1. inversion Hb1; subst.
              now apply (IH b1).
    - cbn. split; [discriminate|].
      intros (b1 & a1 & Hl1 & _ & Hu1 & _).
      apply find_email_None in Hf. elim Hf.
      rewrite Hl1, map_app. apply in_or_app. right. now left. }
  split.
  { subst out. unfold validateUserPassword. cbn.
    destruct (find _ _) as [u0|]; [|reflexivity].
    destruct (String.eqb _ _); reflexivity. }
  split; [exact Hfirst|]. split.
  - intros Hnd u. rewrite Hfirst. split.
    + intros (b & a & Hl & _ & He & Hp). rewrite Hl.
      split; [apply in_or_app; right; now left | auto].
    + intros (Hin & He & Hp).
      apply in_split in Hin as (b & a & Hl). exists b, a.
      split; [exact Hl|]. split; [|auto].
      unfold emails in Hnd. rewrite Hl, map_app in Hnd. cbn in Hnd.
      apply NoDup_remove_2 in Hnd.
      rewrite Forall_forall. intros v Hv Hve. apply Hnd.
      apply in_or_app. left. rewrite He, <- Hve. now apply in_map.
  - intros body Hsch <- <- r. subst r out. unfold login_route.
    rewrite Hsch. unfold validateUserPassword. cbn.
    destruct (find _ _) as [u0|]; [|reflexivity].
    destruct (String.eqb _ _); reflexivity.
Qed.

Lemma map_set_same_image {V B : Type} (f : V -> B) (m : JSMap V) k v v' :
  map_get m k = Some v -> f v' = f v ->
  map f (map_values (map_set m k v')) = map f (map_values m).
Proof.
  intros Hget Hf. induction m as [|[k0 v0] m IH]; [discriminate|].
  cbn in Hget |- *. destruct (k0 =? k) eqn:E.
  - injection Hget as ->. cbn. now rewrite Hf.
  - cbn. f_equal. now apply IH.
Qed.

Lemma users_after_money (req : Request) s :
  consistent s ->
  (exists p, primary req = Some p) ->
  users (snd (run (handle req) s)) = users s.
Proof.
  intros Hs [p Hp].
  destruct req; try discriminate; cbn [handle].
  - destruct (status_dec (fst (run (transfer_route now1 now2 userId body) s)))
      as [Hok|Hno].
    + destruct (transfer_200_inv _ _ _ _ _ Hok)
        as (fa & ta & Hsch & Hfa & Hu & Hta & Hlt).
      now destruct (transfer_success now1 now2 Hs Hsch Hfa Hu Hta Hlt)
        as (_ & _ & _ & _ & _ & Husers).
    + now rewrite transfer_failure.
  - destruct (status_dec (fst (run (deposit_route now userId body) s)))
      as [Hok|Hno].
    + destruct (deposit_200_inv _ _ _ _ Hok) as (acct & Hsch & Hacct & Hu).
      now destruct (deposit_success now Hs Hsch Hacct Hu)
        as (_ & _ & _ & _ & Husers).
    + now rewrite deposit_failure.
  - destruct (status_dec (fst (run (withdrawal_route now userId body) s)))
      as [Hok|Hno].
    + destruct (withdrawal_200_inv _ _ _ _ Hok)
        as (acct & Hsch & Hacct & Hu & Hgate).
      now destruct (withdrawal_success now Hs Hsch Hacct Hu Hgate)
        as (_ & _ & _ & _ & Husers).
    + now rewrite withdrawal_failure.
Qed.

(* Apart from the profile update, no request can make two emails equal. *)
Lemma emails_stay_distinct (req : Request) s :
  consistent s ->
  NoDup (emails s) ->
  (forall userId body, req <> UpdateProfile userId body) ->
  NoDup (emails (snd (run (handle req) s))).
Proof.
  intros Hs Hnd Hreq.
  assert (Hmoney : (exists p, primary req = Some p) ->
                   NoDup (emails (snd (run (handle req) s)))).
  { intros Hp. unfold emails, directory.
    now rewrite (users_after_money req Hs Hp). }
  destruct req; try (apply Hmoney; eexists; reflexivity); cbn [handle].
  - now apply register_keeps_emails_distinct.
  - unfold login_route. destruct (loginSchema body); [|exact Hnd].
    unfold validateUserPassword. cbn.
    destruct (find _ _) as [u|]; [|exact Hnd].
    destruct (String.eqb _ _); exact Hnd.
  - exact Hnd.
  - exact Hnd.
  - now elim (Hreq userId body).
  - unfold password_route.
    destruct (changePasswordSchema body); [|exact Hnd]. cbn.
    destruct (map_get (users s) userId) as [u|] eqn:Hget; [|exact Hnd].
    destruct (negb _); [exact Hnd|].
    cbn [bind await run respond]. unfold updateUser. rewrite Hget.
    cbn [run snd]. unfold emails, directory in *. cbn [users].
    now rewrite (map_set_same_image email _ _ _ Hget).
Qed.
End Users.

(** C6.  Three requests lead from the empty store to one in which two
    users have the same email.  After the two registrations the emails are
    distinct; the profile update of the second user is answered 200 and
    writes the address of the first user without looking for it among the
    other users. *)
Theorem profile_update_duplicates_email :
  let out := run (profile_route (Z0 := AtSign) 2 take_alices_email)
                 two_customers in
  reachable (Z0 := AtSign) after_email_theft
  /\ NoDup (emails two_customers)
  /\ Ok (fst out)
  /\ snd out = after_email_theft
  /\ ~ NoDup (emails after_email_theft)
  /\ exists u1 u2,
       In u1 (directory after_email_theft)
       /\ In u2 (directory after_email_theft)
       /\ user_id u1 = 1 /\ user_id u2 = 2
       /\ email u1 = "alice@example.com"%string
       /\ email u2 = "alice@example.com"%string.
Proof.
  intros out.
  split; [exists email_theft; reflexivity|].
  split; [vm_compute; repeat constructor; simpl; intuition discriminate|].
  split; [reflexivity|]. split; [reflexivity|].
  split.
  { intros Hnd. vm_compute in Hnd. inversion Hnd as [|e l Hin _]; subst.
    apply Hin. now left. }
  exists {| user_id := 1; firstName := "Alice"; lastName := "Archer";
            email := "alice@example.com"; password := "correct horse";
            phone := None; address := None |},
         {| user_id := 2; firstName := "Bob"; lastName := "Baker";
            email := "alice@example.com"; password := "battery staple";
            phone := None; address := None |}.
  split; [left; reflexivity|].
  split; [right; left; reflexivity|].
  repeat split.
Qed.

Lemma authenticate_misses_second_user :
  ~ (forall (s : @MemStorage Cents) e p u,
       reachable (Z0 := AtSign) s ->
       In u (directory s) -> email u = e -> password u = p ->
       exists u', fst (run (validateUserPassword e p) s) = Some u').
Proof.
  intros H.
  assert (Hr : reachable (Z0 := AtSign) after_email_theft)
    by (exists email_theft; reflexivity).
  destruct (H after_email_theft "alice@example.com"%string
              "battery staple"%string
              {| user_id := 2; firstName := "Bob"; lastName := "Baker";
                 email := "alice@example.com";
                 password := "battery staple";
                 phone := None; address := None |}
              Hr (or_intror (or_introl eq_refl)) eq_refl eq_refl)
    as [u' Hu'].
  vm_compute in Hu'. discriminate.
Qed.

Lemma authenticate_first_match_witness :
  NoDup (emails two_customers)
  /\ fst (run (validateUserPassword "bob@example.com" "battery staple")
              two_customers)
     = Some {| user_id := 2; firstName := "Bob"; lastName := "Baker";
               email := "bob@example.com"; password := "battery staple";
               phone := None; address := None |}.
Proof.
  assert (Hnd : NoDup (emails two_customers)).
  { vm_compute. repeat constructor; simpl; intuition discriminate. }
  split; [exact Hnd|].
  apply (proj1 (proj2 (proj2 (authenticate_first_match (Z0 := AtSign)
                                "bob@example.com" "battery staple"
                                two_customers))) Hnd).
  split; [right; left; reflexivity | split; reflexivity].
Defined.

(** ** Deposits that share the event loop *)

Section Concurrency.
Context {N : JSNumber}.
Variables (userId : Z) (body : DepositBody).
Hypothesis body_valid : depositSchema body = Some body.

Let id := db_accountId body.
Let a := parseFloat (db_amount body).
Let entry := {| it_userId := userId;
                it_accountId := id;
                it_type := "deposit";
                it_amount := a;
                it_description := db_description body;
                it_toAccountId := None |}.

(* The handler between its second and third await, and between its first
   and second. *)
Let updated (now : Z) : Async Response :=
  Await (createTransaction now entry)
        (fun transaction => respond 200 (transaction_json transaction)).
Let fetched (now : Z) : Async Response :=
  Await (updateAccountBalance id a) (fun _ => updated now).

Lemma progress_forms now j t :
  deposit_progress now userId body j t ->
  match j with
  | 0%nat => t = deposit_route now userId body
  | 1%nat => t = fetched now
  | 2%nat => t = updated now
  | 3%nat => exists r, t = Return r /\ Ok r
  | _ => False
  end.
Proof.
  induction 1 as [|j t s Hp IH Hfin (acct & Hacct & Hu & Hid)];
    [reflexivity|].
  destruct j as [|[|[|[|j]]]].
  - subst t. unfold deposit_route. rewrite body_valid. cbn.
    unfold account_of in Hacct. rewrite Hacct, Hu, Z.eqb_refl. cbn.
    rewrite Hid. reflexivity.
  - subst t. cbn. now destruct (updateAccountBalance id a s).
  - subst t. cbn. eexists. split; reflexivity.
  - destruct IH as (r & -> & _). discriminate.
  - contradiction.
Qed.

Lemma progress_safe now j t : deposit_progress now userId body j t -> safe t.
Proof.
  induction 1 as [|j t s Hp IH Hfin Hs].
  - destruct (progress_forms (progress_start now userId body)).
    unfold deposit_route. rewrite body_valid. cbn.
    apply safe_Await; [apply preserves_getAccountById|].
    intros [acct|]; cbn; [|constructor].
    destruct (negb _); cbn; [constructor|].
    apply safe_Await; [apply preserves_updateAccountBalance|]. intros _.
    apply safe_Await; [apply preserves_createTransaction|]. intros tx.
    constructor.
  - destruct IH as [r|X c k Hc Hk]; [discriminate|].
    cbn. destruct (c s). apply Hk.
Qed.

(* One turn given to one handler: it moves on by at most one stage, and
   the balance grows by the amount exactly when the turn is its second. *)
Lemma turn_of_one now j t s acct :
  deposit_progress now userId body j t ->
  consistent s ->
  account_of s id = Some acct ->
  account_userId acct = userId ->
  exists j' acct',
    deposit_progress now userId body j' (fst (resume t s))
    /\ consistent (snd (resume t s))
    /\ account_of (snd (resume t s)) id = Some acct'
    /\ account_userId acct' = userId
    /\ ((Nat.leb 2 j' = Nat.leb 2 j /\ balance acct' = balance acct)
        \/ (Nat.leb 2 j = false /\ Nat.leb 2 j' = true
            /\ balance acct' = add (balance acct) a)).
Proof.
  intros Hp Hs Hacct Hu.
  assert (Hid : account_id acct = id)
    by (eapply account_of_id; eassumption).
  assert (Hholds : holds_account s userId id) by (exists acct; auto).
  pose proof (safe_resume (progress_safe Hp) Hs) as [_ Hs'].
  pose proof (progress_forms Hp) as Hform.
  destruct j as [|[|[|[|j]]]]; [| | | |contradiction].
  - exists 1%nat, acct. split.
    { apply progress_turn; [exact Hp | | exact Hholds].
      subst t. unfold deposit_route. now rewrite body_valid. }
    split; [exact Hs'|].
    subst t. unfold deposit_route. rewrite body_valid. cbn. auto.
  - exists 2%nat, (with_balance acct (add (balance acct) a)). split.
    { apply progress_turn; [exact Hp | now subst t | exact Hholds]. }
    split; [exact Hs'|].
    subst t. cbn. unfold updateAccountBalance, account_of in *.
    rewrite Hacct. cbn. rewrite map_get_set_same. unfold reparse.
    split; [reflexivity|]. split; [exact Hu|]. right. auto.
  - exists 3%nat, acct. split.
    { apply progress_turn; [exact Hp | now subst t | exact Hholds]. }
    split; [exact Hs'|].
    subst t. cbn. auto.
  - exists 3%nat, acct. destruct Hform as (r & -> & _). cbn.
    split; [exact Hp|]. split; [exact Hs|]. split; [exact Hacct|].
    split; [exact Hu|]. left. auto.
Qed.

Let tagged (tag : Z * nat) (t : Async Response) : Prop :=
  deposit_progress (fst tag) userId body (snd tag) t.

Lemma applied_cons tag tags :
  applied (tag :: tags)
  = if Nat.leb 2 (snd tag) then S (applied tags) else applied tags.
Proof.
  unfold applied. cbn [filter]. now destruct (Nat.leb 2 (snd tag)).
Qed.

Lemma turn_of_pool i : forall pool tags s acct,
  Forall2 tagged tags pool ->
  consistent s ->
  account_of s id = Some acct ->
  account_userId acct = userId ->
  exists tags' acct',
    Forall2 tagged tags' (fst (turn i pool s))
    /\ consistent (snd (turn i pool s))
    /\ account_of (snd (turn i pool s)) id = Some acct'
    /\ account_userId acct' = userId
    /\ ((applied tags' = applied tags /\ balance acct' = balance acct)
        \/ (applied tags' = S (applied tags)
            /\ balance acct' = add (balance acct) a)).
Proof.
  induction i as [|i IH]; intros pool tags s acct Hpool Hs Hacct Hu.
  - destruct Hpool as [|[now j] t tags pool Ht Hpool]; cbn [turn].
    { exists [], acct. split; [constructor|]. split; [exact Hs|].
      split; [exact Hacct|]. split; [exact Hu|]. left. auto. }
    destruct (turn_of_one Ht Hs Hacct Hu)
      as (j' & acct' & Hp' & Hs' & Hacct' & Hu' & Hcount).
    destruct (resume t s) as [t' s']. cbn [fst snd] in *.
    exists ((now, j') :: tags), acct'.
    split; [constructor; assumption|].
    split; [exact Hs'|]. split; [exact Hacct'|]. split; [exact Hu'|].
    rewrite !applied_cons. cbn [snd].
    destruct Hcount as [[Hc Hb]|(Hc1 & Hc2 & Hb)].
    + left. split; [|exact Hb]. now rewrite Hc.
    + right. split; [|exact Hb]. now rewrite Hc1, Hc2.
  - destruct Hpool as [|tag t tags pool Ht Hpool]; cbn [turn].
    { exists [], acct. split; [constructor|]. split; [exact Hs|].
      split; [exact Hacct|]. split; [exact Hu|]. left. auto. }
    destruct (IH pool tags s acct Hpool Hs Hacct Hu)
      as (tags' & acct' & Hpool' & Hs' & Hacct' & Hu' & Hcount).
    destruct (turn i pool s) as [pool' s']. cbn [fst snd] in *.
    exists (tag :: tags'), acct'.
    split; [constructor; assumption|].
    split; [exact Hs'|]. split; [exact Hacct'|]. split; [exact Hu'|].
    rewrite !applied_cons.
    destruct Hcount as [[Hc Hb]|[Hc Hb]]; rewrite Hc; [left | right];
      (split; [|exact Hb]); now destruct (Nat.leb 2 (snd tag)).
Qed.

Lemma iter_add_shift k b :
  Nat.iter k (fun x => add x a) (add b a)
  = Nat.iter (S k) (fun x => add x a) b.
Proof.
  induction k as [|k IH]; [reflexivity|].
  change (add (Nat.iter k (fun x => add x a) (add b a)) a
          = add (Nat.iter (S k) (fun x => add x a) b) a).
  now rewrite IH.
Qed.

Lemma schedule_invariant order : forall pool tags s acct,
  Forall2 tagged tags pool ->
  consistent s ->
  account_of s id = Some acct ->
  account_userId acct = userId ->
  exists tags' acct' k,
    Forall2 tagged tags' (fst (schedule order pool s))
    /\ account_of (snd (schedule order pool s)) id = Some acct'
    /\ applied tags' = (applied tags + k)%nat
    /\ balance acct' = Nat.iter k (fun x => add x a) (balance acct).
Proof.
  induction order as [|i order IH]; intros pool tags s acct Hpool Hs Hacct Hu.
  - exists tags, acct, 0%nat. cbn. repeat split; auto.
  - cbn [schedule].
    destruct (turn_of_pool i Hpool Hs Hacct Hu)
      as (tags1 & acct1 & Hpool1 & Hs1 & Hacct1 & Hu1 & Hcount).
    destruct (turn i pool s) as [pool1 s1]. cbn [fst snd] in *.
    destruct (IH pool1 tags1 s1 acct1 Hpool1 Hs1 Hacct1 Hu1)
      as (tags' & acct' & k & Hpool' & Hacct' & Happ & Hbal).
    destruct Hcount as [[Hc Hb]|[Hc Hb]].
    + exists tags', acct', k. rewrite Hb, Hc in *. auto.
    + exists tags', acct', (S k). rewrite Hb, Hc in *.
      split; [exact Hpool'|]. split; [exact Hacct'|]. split; [lia|].
      rewrite Hbal. apply iter_add_shift.
Qed.

Lemma finished_pool_applied tags pool :
  Forall2 tagged tags pool ->
  all_finished pool = true ->
  applied tags = List.length pool
  /\ Forall (fun t => exists r, t = Return r /\ Ok r) pool.
Proof.
  induction 1 as [|[now j] t tags pool Ht Hpool IH].
  - intros _. split; [reflexivity | constructor].
  - intros Hfin. unfold all_finished in Hfin. cbn [forallb] in Hfin.
    apply andb_prop in Hfin as [Hfin Hrest].
    destruct (IH Hrest) as [Happ Hall].
    pose proof (progress_forms Ht) as Hform. cbn [snd fst] in Hform.
    destruct j as [|[|[|[|j]]]]; [| | | |contradiction].
    + subst t. unfold deposit_route in Hfin.
      rewrite body_valid in Hfin. discriminate.
    + subst t. discriminate.
    + subst t. discriminate.
    + split.
      * rewrite applied_cons. cbn [snd Nat.leb List.length].
        now rewrite Happ.
      * constructor; assumption.
Qed.

Lemma turn_length i : forall pool s,
  List.length (fst (turn i pool s)) = List.length pool.
Proof.
  induction i as [|i IH]; intros [|t pool] s; cbn [turn]; try reflexivity.
  - now destruct (resume t s).
  - specialize (IH pool s). destruct (turn i pool s). cbn in *.
    now rewrite IH.
Qed.

Lemma schedule_length order : forall pool s,
  List.length (fst (schedule order pool s)) = List.length pool.
Proof.
  induction order as [|i order IH]; intros pool s; cbn [schedule];
    [reflexivity|].
  pose proof (turn_length i pool s) as Hl.
  destruct (turn i pool s) as [pool' s']. cbn [fst] in Hl.
  now rewrite IH.
Qed.

(* A turn brings a handler that has not answered to its next stage. *)
Lemma turn_advances now j t s acct :
  deposit_progress now userId body j t ->
  (j < 3)%nat ->
  consistent s ->
  account_of s id = Some acct ->
  account_userId acct = userId ->
  deposit_progress now userId body (S j) (fst (resume t s))
  /\ consistent (snd (resume t s))
  /\ exists acct',
       account_of (snd (resume t s)) id = Some acct'
       /\ account_userId acct' = userId.
Proof.
  intros Hp Hj Hs Hacct Hu.
  destruct (turn_of_one Hp Hs Hacct Hu)
    as (j' & acct' & _ & Hs' & Hacct' & Hu' & _).
  split; [|split; [exact Hs' | exists acct'; auto]].
  apply progress_turn; [exact Hp | |].
  - pose proof (progress_forms Hp) as Hform.
    destruct j as [|[|[|j]]]; [| | |lia]; subst t; [|reflexivity..].
    unfold deposit_route. now rewrite body_valid.
  - exists acct. split; [exact Hacct|]. split; [exact Hu|].
    exact (account_of_id id Hs Hacct).
Qed.

Lemma turn_app (done : Pool) t todo s :
  turn (List.length done) (done ++ t :: todo) s
  = (done ++ fst (resume t s) :: todo, snd (resume t s)).
Proof.
  induction done as [|d done IH]; cbn [List.length app turn].
  - now destruct (resume t s).
  - now rewrite IH.
Qed.

Lemma schedule_app o1 : forall o2 pool s,
  schedule (o1 ++ o2) pool s
  = schedule o2 (fst (schedule o1 pool s)) (snd (schedule o1 pool s)).
Proof.
  induction o1 as [|i o1 IH]; intros o2 pool s; cbn [app schedule];
    [reflexivity|].
  destruct (turn i pool s) as [pool' s']. apply IH.
Qed.

(* Some schedule lets every deposit answer: each handler in turn takes
   its three turns. *)
Lemma one_by_one_finishes (nows : list Z) : forall (done : Pool) s acct,
  all_finished done = true ->
  consistent s ->
  account_of s id = Some acct ->
  account_userId acct = userId ->
  let todo := map (fun now => deposit_route now userId body) nows in
  all_finished
    (fst (schedule
            (flat_map (fun i => repeat i 3)
                      (seq (List.length done) (List.length nows)))
            (done ++ todo) s)) = true.
Proof.
  induction nows as [|now nows IH]; intros done s acct Hdone Hs Hacct Hu todo.
  - subst todo. cbn. now rewrite app_nil_r.
  - subst todo. cbn [map List.length seq flat_map].
    rewrite schedule_app.
    set (t0 := deposit_route now userId body).
    destruct (turn_advances (progress_start now userId body)
                ltac:(lia) Hs Hacct Hu)
      as (Hp1 & Hs1 & acct1 & Hacct1 & Hu1).
    destruct (turn_advances Hp1 ltac:(lia) Hs1 Hacct1 Hu1)
      as (Hp2 & Hs2 & acct2 & Hacct2 & Hu2).
    destruct (turn_advances Hp2 ltac:(lia) Hs2 Hacct2 Hu2)
      as (Hp3 & Hs3 & acct3 & Hacct3 & Hu3).
    fold t0 in Hp1, Hs1, Hacct1, Hp2, Hs2, Hacct2, Hp3, Hs3, Hacct3.
    cbn [repeat schedule]. rewrite turn_app.
    set (t1 := fst (resume t0 s)) in *.
    set (s1 := snd (resume t0 s)) in *.
    rewrite turn_app.
    set (t2 := fst (resume t1 s1)) in *.
    set (s2 := snd (resume t1 s1)) in *.
    rewrite turn_app.
    set (t3 := fst (resume t2 s2)) in *.
    set (s3 := snd (resume t2 s2)) in *.
    cbn [fst snd].
    replace (done ++ t3 :: map (fun now => deposit_route now userId body) nows)
      with ((done ++ [t3])
              ++ map (fun now => deposit_route now userId body) nows)
      by (now rewrite <- app_assoc).
    replace (S (List.length done)) with (List.length (done ++ [t3]))
      by (rewrite length_app; cbn; lia).
    apply (IH (done ++ [t3]) s3 acct3); try assumption.
    unfold all_finished in *. rewrite forallb_app, Hdone. cbn.
    destruct (progress_forms Hp3) as (r & -> & _). reflexivity.
Qed.

Lemma some_schedule_finishes (nows : list Z) s acct :
  consistent s ->
  account_of s id = Some acct ->
  account_userId acct = userId ->
  let pool := map (fun now => deposit_route now userId body) nows in
  all_finished (fst (schedule (one_by_one pool) pool s)) = true.
Proof.
  intros Hs Hacct Hu pool. subst pool. unfold one_by_one.
  rewrite length_map.
  exact (one_by_one_finishes nows [] eq_refl Hs Hacct Hu).
Qed.

(* Every deposit of a pool that has answered was applied once. *)
Lemma deposits_all_applied (nows : list Z) order s acct :
  consistent s ->
  account_of s id = Some acct ->
  account_userId acct = userId ->
  let pool := map (fun now => deposit_route now userId body) nows in
  let out := schedule order pool s in
  all_finished (fst out) = true ->
  Forall (fun t => exists r, t = Return r /\ Ok r) (fst out)
  /\ exists b',
       balance_of (snd out) id = Some b'
       /\ b' = Nat.iter (List.length nows) (fun x => add x a)
                         (balance acct).
Proof.
  intros Hs Hacct Hu pool out Hfin.
  assert (Hpool : Forall2 tagged (map (fun now => (now, 0%nat)) nows) pool).
  { subst pool. clear. induction nows as [|now nows IH]; cbn;
      constructor; [apply progress_start | exact IH]. }
  destruct (schedule_invariant order Hpool Hs Hacct Hu)
    as (tags' & acct' & k & Hpool' & Hacct' & Happ & Hbal).
  fold out in Hpool', Hacct'.
  destruct (finished_pool_applied Hpool' Hfin) as [Hall Hok].
  assert (H0 : applied (map (fun now => (now, 0%nat)) nows) = 0%nat).
  { clear. induction nows as [|now nows IH]; [reflexivity|].
    cbn [map]. now rewrite applied_cons. }
  assert (Hk : k = List.length nows).
  { apply Forall2_length in Hpool'. apply Forall2_length in Hpool.
    rewrite length_map in Hpool. unfold applied in Hall.
    pose proof (filter_length_le (fun tag => Nat.leb 2 (snd tag)) tags').
    fold (applied tags') in *.
    assert (List.length (fst out) = List.length pool)
      by (subst out; apply schedule_length).
    lia. }
  split; [exact Hok|].
  exists (balance acct'). split; [now apply balance_of_account|].
  subst k. exact Hbal.
Qed.

(** X23.  Deposits of one amount into one account, started together by
    its owner, share the event loop under an arbitrary schedule.  Once all
    of them have answered, each has answered 200 and the balance is the
    balance before with the amount added once per deposit, by as many
    additions of the store's arithmetic: no deposit is lost and none is
    counted twice.  The balance update is a storage call without an inner
    await, so no turn of another handler falls between its read and its
    write. *)
Theorem concurrent_deposits (nows : list Z) order s acct :
  consistent s ->
  account_of s id = Some acct ->
  account_userId acct = userId ->
  let pool := map (fun now => deposit_route now userId body) nows in
  let out := schedule order pool s in
  all_finished (fst out) = true ->
  Forall (fun t => exists r, t = Return r /\ Ok r) (fst out)
  /\ exists b',
       balance_of (snd out) id = Some b'
       /\ b' = Nat.iter (List.length nows) (fun x => add x a)
                         (balance acct).
Proof. intros Hs Hacct Hu. now apply deposits_all_applied. Qed.
End Concurrency.

(* Three deposits of 100.00 into the checking account (2500.00), their
   turns interleaved. *)
Lemma concurrent_deposits_witness :
  let body := {| db_accountId := 1; db_amount := "100.00";
                 db_description := "salary" |} in
  let pool := map (fun now => deposit_route now 1 body) [7000; 7001; 7002] in
  let out := schedule [0; 1; 2; 2; 1; 0; 1; 0; 2]%nat pool one_customer in
  all_finished (fst out) = true
  /\ balance_of (snd out) 1 = Some 280000.
Proof.
  intros body pool out.
  assert (Hfin : all_finished (fst out) = true) by reflexivity.
  pose (acct := {| account_id := 1; account_userId := 1;
                   account_type := "checking"; accountNumber := "1A2B3C4D";
                   balance := (250000 : @num Cents); createdAt := 1000 |}).
  assert (Hv : depositSchema (N := Cents) body = Some body) by reflexivity.
  assert (Hacct : account_of one_customer (db_accountId body) = Some acct)
    by reflexivity.
  destruct (concurrent_deposits (userId := 1) Hv
              [7000; 7001; 7002] [0; 1; 2; 2; 1; 0; 1; 0; 2]%nat
              one_customer_consistent Hacct eq_refl Hfin)
    as (_ & b' & Hb & Hi).
  split; [exact Hfin|].
  exact (eq_trans Hb (f_equal Some Hi)).
Defined.

(** ** Balances in binary64 *)

(** C8.  With the numbers of the JavaScript runtime, two deposits of
    amounts with two decimals, 0.10 and then 0.20, into the empty credit
    account leave the balance 5404319552844596 * 2^-54, printed
    0.30000000000000004.  It is not the double of 0.30, which is
    5404319552844595 * 2^-54; it lies strictly between the doubles of 0.30 and
    0.31, and is the double of no amount from 0.00 to 10.00. *)
Theorem deposits_leave_residue :
  let b := S754_finite false 5404319552844596 (-54) in
  reachable (Z0 := AtSign) after_loose_change
  /\ balance_of after_loose_change 3 = Some b
  /\ Float64.hundredths 30 = S754_finite false 5404319552844595 (-54)
  /\ parseFloat (JSNumber := Binary64) "0.30" = Float64.hundredths 30
  /\ SFltb (Float64.hundredths 30) b = true
  /\ SFltb b (Float64.hundredths 31) = true
  /\ forallb (fun n => negb (SFeqb (Float64.hundredths (Z.of_nat n)) b))
             (seq 0 1001) = true.
Proof.
  intros b.
  split; [exists loose_change; reflexivity|].
  split; [vm_compute; reflexivity|].
  split; [vm_compute; reflexivity|].
  split; [vm_compute; reflexivity|].
  split; [vm_compute; reflexivity|].
  split; [vm_compute; reflexivity|].
  vm_compute; reflexivity.
Qed.

Lemma one_customer64_consistent : consistent one_customer64.
Proof. apply serve_consistent, new_MemStorage_consistent. Qed.

Lemma serve_app {N : JSNumber} {Z0 : Zod} (s : MemStorage) l1 l2 :
  serve s (l1 ++ l2) = serve (serve s l1) l2.
Proof. apply fold_left_app. Qed.

(** C1.  With the numbers of the JavaScript runtime a transfer of 0.20
    from the checking account (2500.00) to the savings account (10000.00)
    is answered 200 and neither balance moves by the amount.  Counted in
    units of 2^-55, the amount is 7205759403792794, the destination gains
    7205759403819008 and the source loses 7205759403786240; the
    differences as the runtime itself computes them are not the amount
    either. *)
Theorem transfer_rounds_the_amount :
  let out := run (transfer_route 5000 5001 1 twenty_cents) one_customer64 in
  let a := parseFloat (JSNumber := Binary64) "0.20" in
  reachable (Z0 := AtSign) one_customer64
  /\ Ok (fst out)
  /\ exists bs bd bs' bd',
       balance_of one_customer64 1 = Some bs
       /\ balance_of one_customer64 2 = Some bd
       /\ balance_of (snd out) 1 = Some bs'
       /\ balance_of (snd out) 2 = Some bd'
       /\ bs = Float64.ofZ 2500
       /\ bd = Float64.ofZ 10000
       /\ Float64.units (-55) a = Some 7205759403792794
       /\ Float64.difference (-55) bd' bd = Some 7205759403819008
       /\ Float64.difference (-55) bs bs' = Some 7205759403786240
       /\ add bd' (neg bd) <> a
       /\ neg (add bs' (neg bs)) <> a.
Proof.
  intros out a.
  split; [eexists; reflexivity|].
  split; [vm_compute; reflexivity|].
  exists (Float64.ofZ 2500), (Float64.ofZ 10000),
    (S754_finite false 5497118334228890 (-41)),
    (S754_finite false 5497668090042778 (-39)).
  repeat (split; [vm_compute; reflexivity|]).
  split; intros H; vm_compute in H; discriminate.
Qed.

(* A finite double and its opposite add up to zero. *)
Lemma opposite_cancels s m e :
  let a := S754_finite s m e in
  SFadd Float64.prec Float64.emax (SFopp a) a = S754_zero false.
Proof.
  cbn [SFopp SFadd]. rewrite Z.min_id.
  unfold shl_align. rewrite Z.sub_diag. cbn [fst].
  destruct s; cbn [negb cond_Zopp Z.opp];
    rewrite ?Z.add_opp_diag_l, ?Z.add_opp_diag_r; reflexivity.
Qed.

Lemma after_windfall_reachable : reachable (Z0 := AtSign) after_windfall.
Proof.
  exists ([Register ("1A2B3C4D"%string, 1000) ("5E6F7A8B"%string, 1000)
                    ("9C0D1E2F"%string, 1000) alice]
          ++ [Deposit 3000 1 windfall]).
  now rewrite serve_app.
Qed.

(** C4.  The two legs of a transfer carry minus the amount and the amount,
    and for every finite amount these add up to zero.  The schema asks of
    an amount only that it is not NaN and above zero, so it lets through a
    literal that reads as Infinity: after a deposit of such an amount has
    made the balance of the checking account Infinity, a transfer of it is
    answered 200 and its legs carry -Infinity and Infinity, whose sum is
    NaN. *)
Theorem infinite_transfer_legs :
  let out := run (transfer_route 5000 5001 1 give_it_all) after_windfall in
  reachable (Z0 := AtSign) after_windfall
  /\ parseFloat (JSNumber := Binary64) beyond_doubles = S754_infinity false
  /\ transferSchema (N := Binary64) give_it_all = Some give_it_all
  /\ balance_of after_windfall 1 = Some (S754_infinity false)
  /\ Ok (fst out)
  /\ map amount (ledger (snd out))
     = map amount (ledger after_windfall)
       ++ [S754_infinity true; S754_infinity false]
  /\ add (S754_infinity true : @num Binary64) (S754_infinity false)
     = S754_nan
  /\ forall s m e,
       let a : @num Binary64 := S754_finite s m e in
       add (neg a) a = S754_zero false.
Proof.
  intros out.
  split; [exact after_windfall_reachable|].
  split; [vm_compute; reflexivity|].
  split; [vm_compute; reflexivity|].
  split; [vm_compute; reflexivity|].
  split; [vm_compute; reflexivity|].
  split; [vm_compute; reflexivity|].
  split; [reflexivity|].
  exact opposite_cancels.
Qed.

(* The checking account of the one customer, and what three additions of
   0.10 make of its 2500.00. *)
Lemma checking_account64 :
  account_of one_customer64 1
  = Some {| account_id := 1; account_userId := 1;
            account_type := "checking"; accountNumber := "1A2B3C4D";
            balance := (Float64.ofZ 2500 : @num Binary64);
            createdAt := 1000 |}.
Proof. reflexivity. Qed.

Lemma three_dimes :
  let a := parseFloat (JSNumber := Binary64) "0.10" in
  let b' := S754_finite false 5498217845856665 (-41) in
  Nat.iter 3 (fun x => @add Binary64 x a) (Float64.ofZ 2500) = b'
  /\ parseFloat (JSNumber := Binary64) "2500.30"
     = S754_finite false 5498217845856666 (-41)
  /\ @add Binary64 (Float64.ofZ 2500)
       (SFmul Float64.prec Float64.emax (Float64.ofZ 3) a)
     = S754_finite false 5498217845856666 (-41)
  /\ Float64.units (-56) a = Some 7205759403792794
  /\ Float64.difference (-56) b' (Float64.ofZ 2500)
     = Some 21617278211358720.
Proof. repeat split; vm_compute; reflexivity. Qed.

(** C9.  With the numbers of the JavaScript runtime, three deposits of 0.10
    into the checking account (2500.00), started together: under every
    schedule that lets all three answer, the balance ends at
    5498217845856665 * 2^-41.  Each deposit was applied once, but the three
    additions round: the balance is not the double of 2500.30, which is
    5498217845856666 * 2^-41 and is also what the runtime computes for
    2500 + 3 * 0.10; counted in units of 2^-56 the balance has gained
    21617278211358720 where three times the amount is
    21617278211378382. *)
Theorem deposits_round_the_sum order :
  let pool :=
    map (fun now => deposit_route now 1 ten_cents) [7000; 7001; 7002] in
  let out := schedule order pool one_customer64 in
  all_finished (fst out) = true ->
  let a := parseFloat (JSNumber := Binary64) "0.10" in
  let b' := S754_finite false 5498217845856665 (-41) in
  balance_of (snd out) 1 = Some b'
  /\ parseFloat (JSNumber := Binary64) "2500.30"
     = S754_finite false 5498217845856666 (-41)
  /\ @add Binary64 (Float64.ofZ 2500)
       (SFmul Float64.prec Float64.emax (Float64.ofZ 3) a)
     = S754_finite false 5498217845856666 (-41)
  /\ Float64.units (-56) a = Some 7205759403792794
  /\ Float64.difference (-56) b' (Float64.ofZ 2500)
     = Some 21617278211358720.
Proof.
  intros pool out Hfin a b'.
  destruct three_dimes as (Hsum & Hrest).
  split; [|exact Hrest].
  assert (Hv : depositSchema (N := Binary64) ten_cents = Some ten_cents)
    by reflexivity.
  destruct (deposits_all_applied (userId := 1) Hv
              [7000; 7001; 7002] order one_customer64_consistent
              checking_account64 eq_refl Hfin)
    as (_ & b'' & Hb & Hi).
  exact (eq_trans Hb (f_equal Some (eq_trans Hi Hsum))).
Qed.

(* The turns of the three deposits, interleaved. *)
Lemma deposits_round_the_sum_witness :
  let pool :=
    map (fun now => deposit_route now 1 ten_cents) [7000; 7001; 7002] in
  let out := schedule [0; 1; 2; 2; 1; 0; 1; 0; 2]%nat pool one_customer64 in
  all_finished (fst out) = true
  /\ balance_of (snd out) 1
     = Some (S754_finite false 5498217845856665 (-41)).
Proof.
  intros pool out.
  assert (Hfin : all_finished (fst out) = true) by (vm_compute; reflexivity).
  split; [exact Hfin|].
  exact (proj1 (deposits_round_the_sum [0; 1; 2; 2; 1; 0; 1; 0; 2]%nat Hfin)).
Defined.

(** * Further properties *)

(** ** Registration *)

Section Registration.
Context {N : JSNumber} {Z0 : Zod}.

Lemma run_bind {A B : Type} (m : Async A) (f : A -> Async B) s :
  run (bind m f) s = run (f (fst (run m s))) (snd (run m s)).
Proof.
  revert s. induction m as [a|X c k IH]; intros s; cbn [bind run];
    [reflexivity|].
  destruct (c s) as [x s1]. apply IH.
Qed.

Lemma createUser_run d1 d2 d3 userData s :
  consistent s ->
  let user :=
    {| user_id := userIdCounter s;
       firstName := iu_firstName userData;
       lastName := iu_lastName userData;
       email := iu_email userData;
       password := iu_password userData;
       phone := iu_phone userData;
       address := iu_address userData |} in
  let opened (offset : Z) (type : string) (opening : Z) (d : Drawn) :=
    {| account_id := accountIdCounter s + offset;
       account_userId := userIdCounter s;
       account_type := type;
       accountNumber := fst d;
       balance := fromInt opening;
       createdAt := snd d |} in
  let out := createUser d1 d2 d3 userData s in
  fst out = user
  /\ directory (snd out) = directory s ++ [user]
  /\ map_values (accounts (snd out))
     = map_values (accounts s)
         ++ [opened 0 "checking"%string 2500 d1;
             opened 1 "savings"%string 10000 d2;
             opened 2 "credit"%string 0 d3]
  /\ transactions (snd out) = transactions s
  /\ userIdCounter (snd out) = userIdCounter s + 1
  /\ accountIdCounter (snd out) = accountIdCounter s + 3
  /\ transactionIdCounter (snd out) = transactionIdCounter s.
Proof.
  intros Hs user opened out. subst out. unfold createUser.
  cbn -[map_set map_values Z.add].
  pose proof (accounts_fresh Hs) as Fa.
  split; [reflexivity|]. split.
  { unfold directory. apply map_values_set_fresh, (users_fresh Hs). }
  split.
  { rewrite map_values_set_fresh.
    - rewrite map_values_set_fresh.
      + rewrite map_values_set_fresh by exact Fa.
        rewrite <- !app_assoc. cbn [app]. subst opened. cbv beta.
        rewrite Z.add_0_r.
        replace (accountIdCounter s + 1 + 1) with (accountIdCounter s + 2)
          by lia.
        reflexivity.
      + apply keys_below_set; [|lia].
        apply keys_below_weaken with (1 := Fa). lia.
    - apply keys_below_set; [|lia]. apply keys_below_set; [|lia].
      apply keys_below_weaken with (1 := Fa). lia. }
  split; [reflexivity|]. split; [reflexivity|].
  split; [lia | reflexivity].
Qed.

(* Registration under an email that no user has. *)
Lemma register_new d1 d2 d3 userData s :
  consistent s ->
  ~ In (iu_email userData) (emails s) ->
  let user :=
    {| user_id := userIdCounter s;
       firstName := iu_firstName userData;
       lastName := iu_lastName userData;
       email := iu_email userData;
       password := iu_password userData;
       phone := iu_phone userData;
       address := iu_address userData |} in
  let opened (offset : Z) (type : string) (opening : Z) (d : Drawn) :=
    {| account_id := accountIdCounter s + offset;
       account_userId := userIdCounter s;
       account_type := type;
       accountNumber := fst d;
       balance := fromInt opening;
       createdAt := snd d |} in
  let out := run (register_route d1 d2 d3 userData) s in
  fst out = {| status := 201; json := user_json (without_password user) |}
  /\ directory (snd out) = directory s ++ [user]
  /\ map_values (accounts (snd out))
     = map_values (accounts s)
         ++ [opened 0 "checking"%string 2500 d1;
             opened 1 "savings"%string 10000 d2;
             opened 2 "credit"%string 0 d3]
  /\ ledger (snd out) = ledger s
  /\ userIdCounter (snd out) = userIdCounter s + 1
  /\ accountIdCounter (snd out) = accountIdCounter s + 3.
Proof.
  intros Hs Hnew user opened out. apply find_email_None in Hnew.
  destruct (createUser_run d1 d2 d3 userData Hs)
    as (Hu & Hd & Ha & Ht & Hcu & Hca & _).
  subst out. unfold register_route, await, respond, getUserByEmail.
  cbn [bind run]. unfold directory in Hnew. rewrite Hnew. cbn [bind run].
  destruct (createUser d1 d2 d3 userData s) as [user' s'].
  cbn [fst snd run] in *. subst user'.
  split; [reflexivity|]. split; [exact Hd|]. split; [exact Ha|].
  split; [unfold ledger; now rewrite Ht|]. split; assumption.
Qed.

(** X1.  Registration with an email that no stored user has answers 201
    with the new user, password left out.  The user takes the next user id
    and is listed last; a checking account of 2500, a savings account of
    10000 and a credit account of 0 are opened for them, in this order,
    under the next three account ids and with the drawn numbers, whatever
    these are; the ledger and all counters but these two stay as they
    were.  With an email that some user has, the answer is DuplicateEmail
    and the store is untouched. *)
Theorem register_provisions d1 d2 d3 userData s :
  consistent s ->
  let user :=
    {| user_id := userIdCounter s;
       firstName := iu_firstName userData;
       lastName := iu_lastName userData;
       email := iu_email userData;
       password := iu_password userData;
       phone := iu_phone userData;
       address := iu_address userData |} in
  let opened (offset : Z) (type : string) (opening : Z) (d : Drawn) :=
    {| account_id := accountIdCounter s + offset;
       account_userId := userIdCounter s;
       account_type := type;
       accountNumber := fst d;
       balance := fromInt opening;
       createdAt := snd d |} in
  let out := run (register_route d1 d2 d3 userData) s in
  (In (iu_email userData) (emails s) ->
   DuplicateEmail (fst out) /\ snd out = s)
  /\ (~ In (iu_email userData) (emails s) ->
      fst out = {| status := 201; json := user_json (without_password user) |}
      /\ directory (snd out) = directory s ++ [user]
      /\ map_values (accounts (snd out))
         = map_values (accounts s)
             ++ [opened 0 "checking"%string 2500 d1;
                 opened 1 "savings"%string 10000 d2;
                 opened 2 "credit"%string 0 d3]
      /\ ledger (snd out) = ledger s
      /\ userIdCounter (snd out) = userIdCounter s + 1
      /\ accountIdCounter (snd out) = accountIdCounter s + 3).
Proof.
  intros Hs user opened out. split.
  - intros Hin. now apply register_refuses_known_email.
  - intros Hnew. now apply register_new.
Qed.

(** X2.  A user who has just registered under a new email is the one
    [validateUserPassword] returns for that email and password.  The login
    handler answers 200 with that user when its schema accepts the pair,
    and 400 when it does not: registration stores any string as email and
    password, so a user whose email the login schema refuses, or whose
    password is empty, is stored and cannot log in. *)
Theorem register_then_login d1 d2 d3 userData s :
  consistent s ->
  ~ In (iu_email userData) (emails s) ->
  let s' := snd (run (register_route d1 d2 d3 userData) s) in
  let user :=
    {| user_id := userIdCounter s;
       firstName := iu_firstName userData;
       lastName := iu_lastName userData;
       email := iu_email userData;
       password := iu_password userData;
       phone := iu_phone userData;
       address := iu_address userData |} in
  let body := {| lb_email := iu_email userData;
                 lb_password := iu_password userData |} in
  run (validateUserPassword (iu_email userData) (iu_password userData)) s'
  = (Some user, s')
  /\ fst (run (login_route body) s')
     = if isEmail (iu_email userData) && min 1 (iu_password userData)
       then {| status := 200; json := user_json (without_password user) |}
       else {| status := 400; json := validation_error |}.
Proof.
  intros Hs Hnew s' user body.
  destruct (register_new d1 d2 d3 userData Hs Hnew) as (_ & Hd & _).
  fold s' in Hd. fold user in Hd.
  apply find_email_None in Hnew.
  assert (Hfind : find (fun u => String.eqb (email u) (iu_email userData))
                       (directory s') = Some user).
  { rewrite Hd. apply find_first. exists (directory s), [].
    split; [reflexivity|]. split; [|apply String.eqb_refl].
    rewrite Forall_forall. intros v Hv.
    destruct (String.eqb_spec (email v) (iu_email userData)) as [He|He];
      [|reflexivity].
    exfalso. eapply find_none in Hnew; [|exact Hv]. cbn in Hnew.
    rewrite He, String.eqb_refl in Hnew. discriminate. }
  assert (Hval : run (validateUserPassword (iu_email userData)
                        (iu_password userData)) s' = (Some user, s')).
  { unfold validateUserPassword. cbn [bind await run].
    unfold getUserByEmail at 1. fold (directory s'). rewrite Hfind.
    cbn. now rewrite String.eqb_refl. }
  split; [exact Hval|].
  subst body. unfold login_route, loginSchema. cbn [lb_email lb_password].
  destruct (isEmail (iu_email userData) && min 1 (iu_password userData));
    [|reflexivity].
  cbn [lb_email lb_password]. rewrite run_bind, Hval. reflexivity.
Qed.
End Registration.

(** ** Profile and password *)

Section Profile.
Context {N : JSNumber} {Z0 : Zod}.

(* [min 1] asks for a string that is not empty, and on ASCII strings the
   length is the number of bytes. *)
Lemma min_1 s : min 1 s = negb (String.eqb s "").
Proof.
  destruct s as [|c rest]; [reflexivity|].
  unfold min. cbn [js_length String.eqb negb].
  destruct (announced c) as [|[|[|[|n]]]]; try reflexivity.
  - destruct rest as [|c1 rest1]; [reflexivity|].
    destruct (continuation c1); reflexivity.
  - destruct rest as [|c1 [|c2 rest2]]; try reflexivity.
    destruct (continuation c1 && continuation c2); reflexivity.
  - destruct rest as [|c1 [|c2 [|c3 rest3]]]; try reflexivity.
    destruct (continuation c1 && continuation c2 && continuation c3);
      reflexivity.
Qed.

Lemma js_length_ascii s :
  Forall (fun c => (N_of_ascii c < 128)%N) (list_ascii_of_string s) ->
  js_length s = String.length s.
Proof.
  induction s as [|c rest IH]; [reflexivity|].
  cbn [list_ascii_of_string]. intros H.
  inversion H as [|c' l Hc Hrest]; subst.
  cbn [js_length String.length]. unfold announced.
  assert (Hlt : (N_of_ascii c <? 194)%N = true) by (apply N.ltb_lt; lia).
  rewrite Hlt. f_equal. now apply IH.
Qed.

Lemma updateUser_hit id userData s user :
  map_get (users s) id = Some user ->
  let out := updateUser id userData s in
  fst out = Some (spread_user user userData)
  /\ map_get (users (snd out)) id = Some (spread_user user userData)
  /\ (forall id', id' <> id ->
      map_get (users (snd out)) id' = map_get (users s) id')
  /\ accounts (snd out) = accounts s
  /\ transactions (snd out) = transactions s
  /\ userIdCounter (snd out) = userIdCounter s
  /\ accountIdCounter (snd out) = accountIdCounter s
  /\ transactionIdCounter (snd out) = transactionIdCounter s.
Proof.
  intros Hget out. subst out. unfold updateUser. rewrite Hget.
  cbn [fst snd users accounts transactions userIdCounter accountIdCounter
       transactionIdCounter].
  split; [reflexivity|]. split; [apply map_get_set_same|].
  split; [|repeat split].
  intros id' Hne. apply map_get_set_other. congruence.
Qed.

(** X3.  A password change whose body the schema refuses is answered 400;
    for a user id that is not stored, 404; when the current password given
    differs from the stored one, 400 "Current password is incorrect"; in
    these three cases the store is untouched.  Otherwise the answer is 200
    and the stored password is the new one, while the id, names, email,
    phone and address of the user, every other user, the accounts and the
    ledger stay as they were. *)
Theorem password_change_outcome userId body s :
  let out := run (password_route userId body) s in
  (changePasswordSchema body = None ->
   fst out = {| status := 400; json := validation_error |} /\ snd out = s)
  /\ (changePasswordSchema body = Some body ->
      match map_get (users s) userId with
      | None =>
          fst out = {| status := 404; json := message "User not found" |}
          /\ snd out = s
      | Some user =>
          if String.eqb (password user) (currentPassword body)
          then
            fst out = {| status := 200;
                         json := message "Password updated successfully" |}
            /\ (exists user',
                  map_get (users (snd out)) userId = Some user'
                  /\ password user' = newPassword body
                  /\ user_id user' = user_id user
                  /\ firstName user' = firstName user
                  /\ lastName user' = lastName user
                  /\ email user' = email user
                  /\ phone user' = phone user
                  /\ address user' = address user)
            /\ (forall id, id <> userId ->
                map_get (users (snd out)) id = map_get (users s) id)
            /\ accounts (snd out) = accounts s
            /\ transactions (snd out) = transactions s
          else
            fst out = {| status := 400;
                         json := message "Current password is incorrect" |}
            /\ snd out = s
      end).
Proof.
  intros out. subst out. unfold password_route. split.
  - intros ->. split; reflexivity.
  - intros ->. cbn [bind await run]. unfold getUserById. cbv beta iota.
    destruct (map_get (users s) userId) as [user|] eqn:Hget;
      [|split; reflexivity].
    destruct (String.eqb (password user) (currentPassword body));
      cbn [negb]; [|split; reflexivity].
    cbn [bind await run respond].
    destruct (updateUser_hit userId (password_only (newPassword body)) s Hget)
      as (_ & Hget' & Hother & Ha & Ht & _).
    destruct (updateUser userId (password_only (newPassword body)) s)
      as [x s'].
    cbn [fst snd run] in *.
    split; [reflexivity|]. split.
    { eexists. split; [exact Hget'|]. destruct user. cbn. repeat split;
        now destruct phone0, address0. }
    repeat split; assumption.
Qed.

(** X4.  A profile update whose body the schema refuses is answered 400,
    and for a user id that is not stored 404, the store untouched.
    Otherwise the answer is 200 with the stored user, password left out:
    names and email are the ones given, phone and address are replaced when
    given and kept when absent, id and password stay, and every other user,
    the accounts and the ledger are as they were. *)
Theorem profile_update_outcome userId body s :
  let out := run (profile_route userId body) s in
  (updateProfileSchema body = None ->
   fst out = {| status := 400; json := validation_error |} /\ snd out = s)
  /\ (updateProfileSchema body = Some body ->
      match map_get (users s) userId with
      | None =>
          fst out = {| status := 404; json := message "User not found" |}
          /\ snd out = s
      | Some user =>
          exists user',
            fst out = {| status := 200;
                         json := user_json (without_password user') |}
            /\ map_get (users (snd out)) userId = Some user'
            /\ user_id user' = user_id user
            /\ password user' = password user
            /\ firstName user' = pb_firstName body
            /\ lastName user' = pb_lastName body
            /\ email user' = pb_email body
            /\ phone user' = match pb_phone body with
                             | Some p => Some p
                             | None => phone user
                             end
            /\ address user' = match pb_address body with
                               | Some a => Some a
                               | None => address user
                               end
            /\ (forall id, id <> userId ->
                map_get (users (snd out)) id = map_get (users s) id)
            /\ accounts (snd out) = accounts s
            /\ transactions (snd out) = transactions s
      end).
Proof.
  intros out. subst out. unfold profile_route. split.
  - intros ->. split; reflexivity.
  - intros ->. cbn [bind await run].
    destruct (map_get (users s) userId) as [user|] eqn:Hget.
    + destruct (updateUser_hit userId (profile_fields body) s Hget)
        as (Hx & Hget' & Hother & Ha & Ht & _).
      destruct (updateUser userId (profile_fields body) s) as [x s'].
      cbn [fst snd] in *. subst x. cbn [run respond fst snd].
      eexists. split; [reflexivity|]. split; [exact Hget'|].
      cbn. repeat split; assumption.
    + unfold updateUser. rewrite Hget. split; reflexivity.
Qed.

Lemma find_after_update (m : JSMap User) k user user' e :
  NoDup (map email (map_values m)) ->
  map_get m k = Some user ->
  email user = e -> email user' = e ->
  find (fun u => String.eqb (email u) e) (map_values (map_set m k user'))
  = Some user'.
Proof.
  intros Hnd Hget He He'. induction m as [|[k0 u0] m IH]; [discriminate|].
  cbn in Hget, Hnd |- *. destruct (k0 =? k) eqn:Hk.
  - cbn. now rewrite He', String.eqb_refl.
  - cbn. inversion Hnd as [|x l Hnin Hnd']; subst.
    destruct (String.eqb_spec (email u0) (email user)) as [Heq|Hneq].
    + exfalso. apply Hnin. rewrite Heq. apply in_map.
      change (In (snd (k, user)) (map snd m)). apply in_map.
      now apply map_get_In.
    + now apply IH.
Qed.

(** X5.  In a store where no two users share an email, after a password
    change that succeeded the user is authenticated by email and new
    password, and the old password is refused unless it equals the
    new one. *)
Theorem password_change_round_trip userId body s user :
  NoDup (emails s) ->
  changePasswordSchema body = Some body ->
  map_get (users s) userId = Some user ->
  password user = currentPassword body ->
  let s' := snd (run (password_route userId body) s) in
  (exists user',
     fst (run (validateUserPassword (email user) (newPassword body)) s')
     = Some user'
     /\ user_id user' = user_id user)
  /\ (currentPassword body <> newPassword body ->
      fst (run (validateUserPassword (email user) (currentPassword body)) s')
      = None).
Proof.
  intros Hnd Hsch Hget Hpw s'.
  assert (Hs' : users s'
                = map_set (users s) userId
                    (spread_user user (password_only (newPassword body)))).
  { subst s'. unfold password_route. rewrite Hsch. cbn [bind await run].
    unfold getUserById. cbv beta iota. rewrite Hget, Hpw, String.eqb_refl.
    cbn [negb bind await run respond]. unfold updateUser. now rewrite Hget. }
  assert (Hfind :
    find (fun u => String.eqb (email u) (email user)) (map_values (users s'))
    = Some (spread_user user (password_only (newPassword body)))).
  { rewrite Hs'. eapply find_after_update; eauto. }
  unfold validateUserPassword. cbn [bind await run].
  unfold getUserByEmail. cbv beta iota. rewrite Hfind. split.
  - eexists. cbn [spread_user password_only override pu_password password].
    rewrite String.eqb_refl. cbn. split; reflexivity.
  - intros Hne. cbn [spread_user password_only override pu_password password].
    destruct (String.eqb_spec (newPassword body) (currentPassword body));
      [congruence | reflexivity].
Qed.
End Profile.

(** ** Storage calls, one at a time *)

Section Stepwise.
Context {N : JSNumber} {Z0 : Zod}.
Variable R : MemStorage -> MemStorage -> Prop.
Hypothesis R_refl : forall s, R s s.
Hypothesis R_trans : forall s1 s2 s3, R s1 s2 -> R s2 s3 -> R s1 s3.

Lemma stepwise_run {A} (m : Async A) :
  stepwise R m -> forall s, R s (snd (run m s)).
Proof.
  induction 1 as [a|X c k Hc Hk IH]; intros s; cbn [run snd];
    [apply R_refl|].
  specialize (Hc s). destruct (c s) as [x s1]. cbn [snd] in Hc.
  eapply R_trans; [exact Hc | apply IH].
Qed.

Lemma stepwise_resume {A} (m : Async A) :
  stepwise R m -> forall s,
  stepwise R (fst (resume m s)) /\ R s (snd (resume m s)).
Proof.
  destruct 1 as [a|X c k Hc Hk]; intros s; cbn [resume].
  - split; [constructor | apply R_refl].
  - specialize (Hc s). destruct (c s) as [x s1]. split; [apply Hk | exact Hc].
Qed.

Lemma stepwise_turn i : forall pool s,
  Forall (stepwise R) pool ->
  Forall (stepwise R) (fst (turn i pool s)) /\ R s (snd (turn i pool s)).
Proof.
  induction i as [|i IH]; intros [|t pool] s Hpool; cbn [turn];
    try (split; [constructor | apply R_refl]).
  - inversion Hpool as [|t' pool' Ht Hrest]; subst.
    destruct (stepwise_resume Ht s) as [Ht' Hs'].
    destruct (resume t s) as [t1 s1]. cbn [fst snd] in *.
    split; [now constructor | exact Hs'].
  - inversion Hpool as [|t' pool' Ht Hrest]; subst.
    destruct (IH pool s Hrest) as [Hpool' Hs'].
    destruct (turn i pool s) as [pool1 s1]. cbn [fst snd] in *.
    split; [now constructor | exact Hs'].
Qed.

Lemma stepwise_schedule order : forall pool s,
  Forall (stepwise R) pool -> R s (snd (schedule order pool s)).
Proof.
  induction order as [|i order IH]; intros pool s Hpool; cbn [schedule];
    [apply R_refl|].
  destruct (stepwise_turn i s Hpool) as [Hpool' Hs'].
  destruct (turn i pool s) as [pool1 s1]. cbn [fst snd] in *.
  eapply R_trans; [exact Hs' | now apply IH].
Qed.

(* The storage calls the handlers make. *)
Hypothesis R_createUser : forall d1 d2 d3 userData s,
  R s (snd (createUser d1 d2 d3 userData s)).
Hypothesis R_updateUser : forall id userData s,
  R s (snd (updateUser id userData s)).
Hypothesis R_updateAccountBalance : forall id amount s,
  R s (snd (updateAccountBalance id amount s)).
Hypothesis R_createTransaction : forall now transactionData s,
  R s (snd (createTransaction now transactionData s)).

Ltac stepwise_step :=
  first
    [ apply stepwise_Return
    | apply stepwise_Await;
      [ first [ intros ?; apply R_refl
              | intros ?; apply R_createUser
              | intros ?; apply R_updateUser
              | intros ?; apply R_updateAccountBalance
              | intros ?; apply R_createTransaction ]
      | intros ? ]
    | match goal with
      | |- stepwise _ (match ?x with _ => _ end) => destruct x
      | |- stepwise _ (bind (match ?x with _ => _ end) _) => destruct x
      end ]; cbn.

Lemma handle_stepwise (req : Request) : stepwise R (handle req).
Proof.
  destruct req; cbn;
    unfold register_route, login_route, accounts_route, transactions_route,
      transfer_route, deposit_route, withdrawal_route, profile_route,
      password_route, validateUserPassword, invalid, forbidden,
      insufficient, respond, await; cbn;
    repeat stepwise_step.
Qed.

Lemma stepwise_bind {A B} (m : Async A) (f : A -> Async B) :
  stepwise R m -> (forall x, stepwise R (f x)) -> stepwise R (bind m f).
Proof.
  intros Hm Hf. induction Hm as [a|X c k Hc Hk IH]; cbn [bind];
    [apply Hf|].
  apply stepwise_Await; [exact Hc | exact IH].
Qed.

Lemma dispatch_stepwise call session : stepwise R (dispatch call session).
Proof.
  destruct call; cbn [dispatch]; unfold isAuthenticated, keeping;
    try (destruct session as [user|]; [|apply stepwise_Return]);
    try (apply stepwise_bind; [|intros ?; apply stepwise_Return]).
  - unfold post_register, reply, await. cbn. repeat stepwise_step.
  - unfold post_login, validateUserPassword, reply, await. cbn.
    repeat stepwise_step.
  - apply stepwise_Return.
  - apply stepwise_Return.
  - apply (handle_stepwise (ListAccounts (wp_id user))).
  - apply (handle_stepwise (ListTransactions (wp_id user))).
  - apply (handle_stepwise (Transfer now1 now2 (wp_id user) body)).
  - apply (handle_stepwise (Deposit now (wp_id user) body)).
  - apply (handle_stepwise (Withdrawal now (wp_id user) body)).
  - unfold put_profile, isAuthenticated, reply, await. cbn.
    repeat stepwise_step.
  - apply (handle_stepwise (ChangePassword (wp_id user) body)).
Qed.

Lemma serve_stepwise reqs : forall s, R s (serve s reqs).
Proof.
  induction reqs as [|req reqs IH]; intros s; cbn [serve fold_left];
    [apply R_refl|].
  eapply R_trans; [apply (stepwise_run (handle_stepwise req)) | apply IH].
Qed.

Lemma schedule_stepwise reqs order s :
  R s (snd (schedule order (map handle reqs) s)).
Proof.
  apply stepwise_schedule. rewrite Forall_forall. intros t Ht.
  apply in_map_iff in Ht as (req & <- & _). apply handle_stepwise.
Qed.
End Stepwise.

(** ** The layout of ids *)

Section Layout.
Context {N : JSNumber} {Z0 : Zod}.

Lemma In_ids_from x n : forall k, In x (ids_from k n) <-> k <= x < k + Z.of_nat n.
Proof.
  induction n as [|n IH]; intros k; cbn [ids_from In].
  - lia.
  - rewrite IH. lia.
Qed.

Lemma ids_from_snoc n : forall k,
  ids_from k (S n) = ids_from k n ++ [k + Z.of_nat n].
Proof.
  induction n as [|n IH]; intros k.
  - cbn. now rewrite Z.add_0_r.
  - change (ids_from k (S (S n))) with (k :: ids_from (k + 1) (S n)).
    rewrite IH. cbn [ids_from app]. do 2 f_equal. f_equal. lia.
Qed.

Lemma NoDup_ids_from n : forall k, NoDup (ids_from k n).
Proof.
  induction n as [|n IH]; intros k; cbn [ids_from]; constructor.
  - rewrite In_ids_from. lia.
  - apply IH.
Qed.

Lemma keys_set_fresh {V} (m : JSMap V) k v :
  keys_below m k -> map_set m k v = m ++ [(k, v)].
Proof. apply map_set_fresh. Qed.

Lemma set_hit_shape {V} (m : JSMap V) k v v' :
  map_get m k = Some v ->
  keys (map_set m k v') = keys m
  /\ List.length (map_set m k v') = List.length m.
Proof.
  induction m as [|[k0 v0] m IH]; [discriminate|].
  cbn [map_get map_set]. destruct (k0 =? k) eqn:Hk.
  - apply Z.eqb_eq in Hk. subst k0. intros _. split; reflexivity.
  - intros Hget. destruct (IH Hget) as [IHk IHl]. unfold keys in *.
    cbn [map List.length]. now rewrite IHk, IHl.
Qed.

Lemma dense_below {V} (m : JSMap V) :
  keys m = ids_from 1 (List.length m) ->
  keys_below m (1 + Z.of_nat (List.length m)).
Proof.
  intros Hk k v Hin.
  assert (Hin' : In k (keys m)) by (apply (in_map fst _ _ Hin)).
  rewrite Hk in Hin'. apply In_ids_from in Hin'. lia.
Qed.

Lemma dense_lookup {V} (m : JSMap V) k v :
  NoDup (keys m) -> In (k, v) m -> map_get m k = Some v.
Proof.
  induction m as [|[k0 v0] m IH]; [intros _ []|].
  cbn [keys map fst map_get]. intros Hnd [Heq|Hin].
  - injection Heq as -> ->. now rewrite Z.eqb_refl.
  - inversion Hnd as [|x l Hnin Hnd']; subst.
    destruct (Z.eqb_spec k0 k) as [->|Hne].
    + exfalso. apply Hnin. apply (in_map fst _ _ Hin).
    + now apply IH.
Qed.

Lemma dense_append {V} (m : JSMap V) v :
  keys m = ids_from 1 (List.length m) ->
  keys (m ++ [(1 + Z.of_nat (List.length m), v)])
  = ids_from 1 (List.length (m ++ [(1 + Z.of_nat (List.length m), v)])).
Proof.
  intros Hk. unfold keys in *. rewrite map_app, length_app, Hk.
  cbn [map fst List.length]. rewrite Nat.add_1_r, ids_from_snoc.
  reflexivity.
Qed.

Lemma layout_consistent s : layout s -> consistent s.
Proof.
  intros L. split.
  - intros k a Hin. now apply (account_under_id L).
  - apply (user_under_id L).
  - rewrite (account_counter L). apply dense_below, (account_keys_dense L).
  - rewrite (user_counter L). apply dense_below, (user_keys_dense L).
  - rewrite (ledger_counter L). apply dense_below, (ledger_keys_dense L).
Qed.

Lemma new_MemStorage_layout : layout new_MemStorage.
Proof. split; cbn; try reflexivity; intros ? ? []. Qed.

Lemma kind_of_three n :
  0 <= n ->
  kind (3 * n + 1) = "checking"%string
  /\ kind (3 * n + 2) = "savings"%string
  /\ kind (3 * n + 3) = "credit"%string.
Proof.
  intros Hn. unfold kind.
  replace ((3 * n + 1 - 1) mod 3) with 0
    by (Z.div_mod_to_equations; lia).
  replace ((3 * n + 2 - 1) mod 3) with 1
    by (Z.div_mod_to_equations; lia).
  replace ((3 * n + 3 - 1) mod 3) with 2
    by (Z.div_mod_to_equations; lia).
  repeat split.
Qed.

Lemma layout_createUser d1 d2 d3 userData s :
  layout s -> layout (snd (createUser d1 d2 d3 userData s)).
Proof.
  intros L. pose proof (layout_consistent L) as Hs.
  pose proof (account_counter L) as Hc. pose proof (user_counter L) as Hu.
  pose proof (three_each L) as H3.
  pose proof (accounts_fresh Hs) as Fa.
  unfold createUser. cbn -[map_set Z.add Z.mul Nat.mul].
  set (c := accountIdCounter s) in *. set (u := userIdCounter s) in *.
  rewrite (@map_set_fresh _ (accounts s) c) by exact Fa.
  rewrite (@map_set_fresh _ _ (c + 1)).
  2:{ intros k v Hin. apply in_app_or in Hin as [Hin|[Hin|[]]].
      - specialize (Fa k v Hin). lia.
      - injection Hin as <- _. lia. }
  rewrite (@map_set_fresh _ _ (c + 1 + 1)).
  2:{ intros k v Hin. apply in_app_or in Hin as [Hin|[Hin|[]]].
      - apply in_app_or in Hin as [Hin|[Hin|[]]].
        + specialize (Fa k v Hin). lia.
        + injection Hin as <- _. lia.
      - injection Hin as <- _. lia. }
  rewrite (@map_set_fresh _ (users s) u) by apply (users_fresh Hs).
  split; cbn [users accounts transactions userIdCounter accountIdCounter
              transactionIdCounter].
  - subst u. rewrite Hu. apply dense_append, (user_keys_dense L).
  - rewrite length_app. cbn [List.length]. lia.
  - intros k v Hin. apply in_app_or in Hin as [Hin|[Hin|[]]].
    + now apply (user_under_id L).
    + now injection Hin as <- <-.
  - unfold keys. rewrite !map_app, !length_app.
    cbn [map fst List.length].
    fold (keys (accounts s)). rewrite (account_keys_dense L).
    replace (List.length (accounts s) + 1 + 1 + 1)%nat
      with (S (S (S (List.length (accounts s))))) by lia.
    rewrite !ids_from_snoc. rewrite <- !app_assoc. cbn [app].
    do 2 f_equal; [lia | f_equal; [lia | f_equal; lia]].
  - rewrite !length_app. cbn [List.length]. lia.
  - rewrite !length_app. cbn [List.length]. lia.
  - assert (Hn : c = 3 * Z.of_nat (List.length (users s)) + 1) by lia.
    assert (Hun : u = Z.of_nat (List.length (users s)) + 1) by lia.
    assert (Hpos : 0 <= Z.of_nat (List.length (users s))) by lia.
    destruct (kind_of_three Hpos) as (K1 & K2 & K3).
    assert (T1 : kind c = "checking"%string) by (rewrite Hn; exact K1).
    assert (T2 : kind (c + 1) = "savings"%string).
    { replace (c + 1) with (3 * Z.of_nat (List.length (users s)) + 2) by lia.
      exact K2. }
    assert (T3 : kind (c + 1 + 1) = "credit"%string).
    { replace (c + 1 + 1)
        with (3 * Z.of_nat (List.length (users s)) + 3) by lia.
      exact K3. }
    assert (O1 : (c + 2) / 3 = u) by (Z.div_mod_to_equations; lia).
    assert (O2 : (c + 1 + 2) / 3 = u) by (Z.div_mod_to_equations; lia).
    assert (O3 : (c + 1 + 1 + 2) / 3 = u) by (Z.div_mod_to_equations; lia).
    intros k a Hin.
    apply in_app_or in Hin as [Hin|[Hin|[]]];
      [apply in_app_or in Hin as [Hin|[Hin|[]]];
       [apply in_app_or in Hin as [Hin|[Hin|[]]]|]|].
    + now apply (account_under_id L).
    + injection Hin as <- <-.
      cbn [account_id account_userId account_type]. now rewrite T1, O1.
    + injection Hin as <- <-.
      cbn [account_id account_userId account_type]. now rewrite T2, O2.
    + injection Hin as <- <-.
      cbn [account_id account_userId account_type]. now rewrite T3, O3.
  - apply (ledger_keys_dense L).
  - apply (ledger_counter L).
  - apply (entry_under_id L).
Qed.

Lemma layout_updateUser id userData s :
  layout s -> layout (snd (updateUser id userData s)).
Proof.
  intros L. unfold updateUser.
  destruct (map_get (users s) id) as [user|] eqn:Hget; [|exact L].
  destruct (set_hit_shape (users s) id (spread_user user userData) Hget)
    as [Hk Hl].
  destruct L. split;
    cbn [snd users accounts transactions userIdCounter accountIdCounter
         transactionIdCounter]; try assumption.
  - now rewrite Hk, Hl.
  - now rewrite Hl.
  - intros k u Hin. destruct (map_set_In _ _ _ _ _ Hin) as [[-> ->]|Hin'].
    + cbn [spread_user user_id]. apply user_under_id0.
      now apply map_get_In.
    + now apply user_under_id0.
  - now rewrite Hl.
Qed.

Lemma layout_updateAccountBalance id amount s :
  layout s -> layout (snd (updateAccountBalance id amount s)).
Proof.
  intros L. unfold updateAccountBalance.
  destruct (map_get (accounts s) id) as [account|] eqn:Hget; [|exact L].
  destruct (set_hit_shape (accounts s) id
              (with_balance account (add (reparse (balance account)) amount))
              Hget) as [Hk Hl].
  destruct L. split;
    cbn [snd users accounts transactions userIdCounter accountIdCounter
         transactionIdCounter]; try assumption.
  - now rewrite Hk, Hl.
  - now rewrite Hl.
  - now rewrite Hl.
  - intros k a Hin. destruct (map_set_In _ _ _ _ _ Hin) as [[-> ->]|Hin'].
    + cbn [with_balance account_id account_userId account_type].
      apply account_under_id0. now apply map_get_In.
    + now apply account_under_id0.
Qed.

Lemma layout_createTransaction now transactionData s :
  layout s -> layout (snd (createTransaction now transactionData s)).
Proof.
  intros L. pose proof (layout_consistent L) as Hs.
  pose proof (ledger_counter L) as Hc.
  unfold createTransaction.
  cbn [snd]. rewrite (@map_set_fresh _ (transactions s))
    by apply (transactions_fresh Hs).
  destruct L. split;
    cbn [users accounts transactions userIdCounter accountIdCounter
         transactionIdCounter]; try assumption.
  - rewrite Hc. now apply dense_append.
  - rewrite length_app. cbn [List.length]. lia.
  - intros k t Hin. apply in_app_or in Hin as [Hin|[Hin|[]]].
    + now apply entry_under_id0.
    + now injection Hin as <- <-.
Qed.

(* The handlers keep the layout, whether served one after the other or
   interleaved at their awaits. *)
Lemma serve_layout reqs s : layout s -> layout (serve s reqs).
Proof.
  refine (@serve_stepwise N Z0 (fun s s' => layout s -> layout s')
            _ _ _ _ _ _ reqs s); auto.
  - intros; now apply layout_createUser.
  - intros; now apply layout_updateUser.
  - intros; now apply layout_updateAccountBalance.
  - intros; now apply layout_createTransaction.
Qed.

Lemma schedule_layout reqs order s :
  layout s -> layout (snd (schedule order (map handle reqs) s)).
Proof.
  refine (@schedule_stepwise N Z0 (fun s s' => layout s -> layout s')
            _ _ _ _ _ _ reqs order s); auto.
  - intros; now apply layout_createUser.
  - intros; now apply layout_updateUser.
  - intros; now apply layout_updateAccountBalance.
  - intros; now apply layout_createTransaction.
Qed.

Lemma dispatch_layout call session s :
  layout s -> layout (snd (run (dispatch call session) s)).
Proof.
  apply (stepwise_run (R := fun s s' => layout s -> layout s')); auto.
  apply dispatch_stepwise; auto.
  - intros; now apply layout_createUser.
  - intros; now apply layout_updateUser.
  - intros; now apply layout_updateAccountBalance.
  - intros; now apply layout_createTransaction.
Qed.

Lemma reachable_layout s : reachable s -> layout s.
Proof. intros [reqs ->]. apply serve_layout, new_MemStorage_layout. Qed.

Lemma arrived_layout s : reachable s \/ interleaved s -> layout s.
Proof.
  intros [Hr|(reqs & order & ->)]; [now apply reachable_layout|].
  apply schedule_layout, new_MemStorage_layout.
Qed.
End Layout.

(** ** Lookups and listings of accounts *)

Section Found.
Context {N : JSNumber} {Z0 : Zod}.

Lemma values_under_keys {V} (f : V -> Z) (m : JSMap V) :
  (forall k v, In (k, v) m -> f v = k) ->
  map f (map_values m) = keys m.
Proof.
  induction m as [|[k v] m IH]; intros H; [reflexivity|].
  cbn. f_equal.
  - apply H. now left.
  - apply IH. intros k' v' Hin. apply H. now right.
Qed.

Lemma value_has_key {V} (m : JSMap V) v :
  In v (map_values m) -> exists k, In (k, v) m.
Proof.
  unfold map_values. intros Hin. apply in_map_iff in Hin as ([k v'] & Heq & Hin).
  cbn in Heq. subst v'. now exists k.
Qed.

Lemma dense_get {V} (m : JSMap V) k :
  keys m = ids_from 1 (List.length m) ->
  (exists v, map_get m k = Some v) <-> 1 <= k < 1 + Z.of_nat (List.length m).
Proof.
  intros Hk. rewrite <- (In_ids_from k (List.length m) 1), <- Hk. split.
  - intros [v Hget]. apply map_get_In in Hget.
    apply (in_map fst _ _ Hget).
  - unfold keys. intros Hin. apply in_map_iff in Hin as ([k' v] & Heq & Hin).
    cbn in Heq. subst k'. exists v. apply dense_lookup; [|exact Hin].
    fold (keys m). rewrite Hk. apply NoDup_ids_from.
Qed.

(** X6.  In every store that requests lead to, served one after the other
    or interleaved at their awaits, each record is found under its own id:
    looking up the id of a ledger entry, of an account or of a user returns
    that very record.  Ids are handed out from 1 without gaps and in the
    order of creation, so the ledger lists its entries by ascending id, and
    a lookup succeeds exactly for the ids below the counter. *)
Theorem found_under_own_id s :
  reachable s \/ interleaved s ->
  (forall t, In t (ledger s) -> fst (getTransactionById (tx_id t) s) = Some t)
  /\ (forall a, In a (map_values (accounts s)) ->
      fst (getAccountById (account_id a) s) = Some a)
  /\ (forall u, In u (directory s) ->
      fst (getUserById (user_id u) s) = Some u)
  /\ map tx_id (ledger s) = ids_from 1 (List.length (ledger s))
  /\ map account_id (map_values (accounts s))
     = ids_from 1 (List.length (accounts s))
  /\ map user_id (directory s) = ids_from 1 (List.length (users s))
  /\ (forall k, fst (getTransactionById k s) <> None
                <-> 1 <= k < transactionIdCounter s)
  /\ (forall k, fst (getAccountById k s) <> None
                <-> 1 <= k < accountIdCounter s)
  /\ (forall k, fst (getUserById k s) <> None <-> 1 <= k < userIdCounter s).
Proof.
  intros Hr. pose proof (arrived_layout Hr) as L.
  assert (Hnd : forall V (m : JSMap V),
             keys m = ids_from 1 (List.length m) -> NoDup (keys m))
    by (intros V m ->; apply NoDup_ids_from).
  assert (Hsome : forall V (o : option V), o <> None <-> exists v, o = Some v).
  { intros V [v|]; split; try congruence; try (intros [v' H]; congruence).
    intros _. now exists v. }
  unfold getTransactionById, getAccountById, getUserById, ledger, directory.
  cbn [fst].
  split.
  { intros t Hin. apply value_has_key in Hin as [k Hin].
    rewrite (entry_under_id L _ _ Hin).
    apply dense_lookup; [apply Hnd, (ledger_keys_dense L) | exact Hin]. }
  split.
  { intros a Hin. apply value_has_key in Hin as [k Hin].
    destruct (account_under_id L _ _ Hin) as [-> _].
    apply dense_lookup; [apply Hnd, (account_keys_dense L) | exact Hin]. }
  split.
  { intros u Hin. apply value_has_key in Hin as [k Hin].
    rewrite (user_under_id L _ _ Hin).
    apply dense_lookup; [apply Hnd, (user_keys_dense L) | exact Hin]. }
  split.
  { unfold map_values at 2. rewrite length_map.
    rewrite values_under_keys by apply (entry_under_id L).
    apply (ledger_keys_dense L). }
  split.
  { rewrite values_under_keys; [apply (account_keys_dense L)|].
    intros k a Hin. now apply (account_under_id L). }
  split.
  { rewrite values_under_keys by apply (user_under_id L).
    apply (user_keys_dense L). }
  split; [|split]; intros k; rewrite Hsome.
  - rewrite (ledger_counter L). apply dense_get, (ledger_keys_dense L).
  - rewrite (account_counter L). apply dense_get, (account_keys_dense L).
  - rewrite (user_counter L). apply dense_get, (user_keys_dense L).
Qed.

Lemma filter_none {A} (f : A -> bool) (l : list A) :
  (forall x, In x l -> f x = false) -> filter f l = [].
Proof.
  induction l as [|x l IH]; intros H; [reflexivity|].
  cbn. rewrite (H x (or_introl eq_refl)). apply IH.
  intros y Hy. apply H. now right.
Qed.

(* The accounts of one user among accounts laid out three by three. *)
Lemma three_of_user userId r : forall j (m : JSMap Account),
  0 <= j ->
  keys m = ids_from (3 * j + 1) (3 * r) ->
  (forall k a, In (k, a) m ->
     account_id a = k /\ account_userId a = (k + 2) / 3
     /\ account_type a = kind k) ->
  let mine := filter (fun a => account_userId a =? userId) (map_values m) in
  (j + 1 <= userId <= j + Z.of_nat r ->
   exists a1 a2 a3,
     mine = [a1; a2; a3]
     /\ account_id a1 = 3 * userId - 2 /\ account_id a2 = 3 * userId - 1
     /\ account_id a3 = 3 * userId
     /\ account_type a1 = "checking"%string
     /\ account_type a2 = "savings"%string
     /\ account_type a3 = "credit"%string)
  /\ (~ (j + 1 <= userId <= j + Z.of_nat r) -> mine = []).
Proof.
  induction r as [|r IH]; intros j m Hj Hk Hm mine.
  - destruct m; [|discriminate]. split; [lia | reflexivity].
  - replace (3 * S r)%nat with (S (S (S (3 * r)))) in Hk by lia.
    remember (3 * j + 1) as b eqn:Hb.
    destruct m as [|[k1 a1] [|[k2 a2] [|[k3 a3] m]]]; try discriminate.
    cbn [keys map fst ids_from] in Hk.
    injection Hk as -> -> -> Hk.
    destruct (Hm _ _ (or_introl eq_refl)) as (I1 & O1 & T1).
    destruct (Hm _ _ (or_intror (or_introl eq_refl))) as (I2 & O2 & T2).
    destruct (Hm _ _ (or_intror (or_intror (or_introl eq_refl))))
      as (I3 & O3 & T3).
    replace ((b + 2) / 3) with (j + 1) in O1
      by (Z.div_mod_to_equations; lia).
    replace ((b + 1 + 2) / 3) with (j + 1) in O2
      by (Z.div_mod_to_equations; lia).
    replace ((b + 1 + 1 + 2) / 3) with (j + 1) in O3
      by (Z.div_mod_to_equations; lia).
    destruct (kind_of_three Hj) as (K1 & K2 & K3).
    replace (b + 1) with (3 * j + 2) in T2 by lia.
    replace (b + 1 + 1) with (3 * j + 3) in T3 by lia.
    rewrite Hb in T1.
    rewrite K1 in T1. rewrite K2 in T2. rewrite K3 in T3.
    assert (Hj' : 0 <= j + 1) by lia.
    assert (Hk' : keys m = ids_from (3 * (j + 1) + 1) (3 * r)).
    { unfold keys. rewrite Hk. f_equal. lia. }
    clear Hk.
    assert (Hm' : forall k a, In (k, a) m ->
              account_id a = k /\ account_userId a = (k + 2) / 3
              /\ account_type a = kind k).
    { intros k a Hin. apply Hm. now do 3 right. }
    destruct (IH (j + 1) m Hj' Hk' Hm') as [IHin IHout].
    subst mine. cbn [map_values map snd filter]. rewrite O1, O2, O3.
    fold (map_values m).
    destruct (Z.eqb_spec (j + 1) userId) as [Heq|Hne].
    + split; [|lia]. intros _. rewrite IHout by lia.
      exists a1, a2, a3. repeat split; try assumption; lia.
    + split.
      * intros Hrange. destruct IHin as (b1 & b2 & b3 & H); [lia|].
        now exists b1, b2, b3.
      * intros Hrange. apply IHout. lia.
Qed.

(** X7.  In every store that requests lead to, served one after the other
    or interleaved at their awaits, the account listing of a stored user
    holds exactly three accounts, in this order: a checking, a savings and a
    credit account, with the ids 3u - 2, 3u - 1 and 3u for the user of id u.
    For an id that no user has the listing is empty.  The store is not
    changed by the listing. *)
Theorem three_accounts_each s userId :
  reachable s \/ interleaved s ->
  let out := getAccountsByUserId userId s in
  snd out = s
  /\ (fst (getUserById userId s) <> None ->
      exists a1 a2 a3,
        fst out = [a1; a2; a3]
        /\ account_id a1 = 3 * userId - 2 /\ account_id a2 = 3 * userId - 1
        /\ account_id a3 = 3 * userId
        /\ account_type a1 = "checking"%string
        /\ account_type a2 = "savings"%string
        /\ account_type a3 = "credit"%string)
  /\ (fst (getUserById userId s) = None -> fst out = []).
Proof.
  intros Hr out. pose proof (arrived_layout Hr) as L.
  split; [reflexivity|].
  assert (Hk : keys (accounts s)
               = ids_from (3 * 0 + 1) (3 * List.length (users s))).
  { rewrite (account_keys_dense L), (three_each L). reflexivity. }
  destruct (three_of_user userId (List.length (users s)) (accounts s)
              (Z.le_refl 0) Hk (account_under_id L)) as [Hin Hout].
  assert (Hsome : fst (getUserById userId s) <> None
                  <-> 0 + 1 <= userId <= 0 + Z.of_nat (List.length (users s))).
  { unfold getUserById. cbn [fst].
    pose proof (dense_get (users s) userId (user_keys_dense L)) as Hd.
    split.
    - intros Hne. destruct (map_get (users s) userId) as [u|] eqn:E;
        [|congruence].
      assert (He : exists v, Some u = Some v) by now exists u.
      apply Hd in He. lia.
    - intros Hrange. destruct Hd as [_ Hd].
      destruct Hd as [v ->]; [lia | discriminate]. }
  split.
  - intros Hne. apply Hin, Hsome, Hne.
  - intros Hnone. apply Hout. rewrite <- Hsome. congruence.
Qed.
End Found.

(** ** Nothing stored is lost *)

Section History.
Context {N : JSNumber} {Z0 : Zod}.

Lemma extends_refl s : extends s s.
Proof.
  split.
  - exists []. now rewrite app_nil_r.
  - intros k a H. exists a. repeat split; assumption.
  - intros k u H. exists u. split; [assumption | reflexivity].
Qed.

Lemma extends_trans s1 s2 s3 : extends s1 s2 -> extends s2 s3 -> extends s1 s3.
Proof.
  intros [[l1 L1] A1 U1] [[l2 L2] A2 U2]. split.
  - exists (l1 ++ l2). now rewrite L2, L1, app_assoc.
  - intros k a H. destruct (A1 k a H) as (a' & H' & E1 & E2 & E3 & E4 & E5).
    destruct (A2 k a' H') as (a'' & H'' & F1 & F2 & F3 & F4 & F5).
    exists a''. repeat split; congruence.
  - intros k u H. destruct (U1 k u H) as (u' & H' & E1).
    destruct (U2 k u' H') as (u'' & H'' & F1).
    exists u''. split; congruence.
Qed.

Lemma history_createUser d1 d2 d3 userData s :
  keeps_history s (snd (createUser d1 d2 d3 userData s)).
Proof.
  intros Hs. split; [now apply preserves_createUser|].
  unfold createUser. cbn -[map_set Z.add]. split.
  - exists []. now rewrite app_nil_r.
  - intros k a H. exists a. split; [|repeat split].
    unfold account_of in *. cbn [accounts].
    pose proof (accounts_fresh Hs _ _ (map_get_In _ _ H)) as Hlt.
    now rewrite !map_get_set_other by lia.
  - intros k u H. exists u. split; [|reflexivity]. cbn [users].
    pose proof (users_fresh Hs _ _ (map_get_In _ _ H)) as Hlt.
    now rewrite map_get_set_other by lia.
Qed.

Lemma history_updateUser id userData s :
  keeps_history s (snd (updateUser id userData s)).
Proof.
  intros Hs. split; [now apply preserves_updateUser|].
  unfold updateUser.
  destruct (map_get (users s) id) as [user|] eqn:Hget;
    [|apply extends_refl].
  cbn [snd]. split.
  - exists []. now rewrite app_nil_r.
  - intros k a H. exists a. repeat split; assumption.
  - intros k u H. cbn [users]. destruct (Z.eq_dec id k) as [->|Hne].
    + rewrite map_get_set_same. eexists. split; [reflexivity|].
      cbn. congruence.
    + rewrite map_get_set_other by assumption. exists u. now split.
Qed.

Lemma history_updateAccountBalance id amount s :
  keeps_history s (snd (updateAccountBalance id amount s)).
Proof.
  intros Hs. split; [now apply preserves_updateAccountBalance|].
  unfold updateAccountBalance.
  destruct (map_get (accounts s) id) as [account|] eqn:Hget;
    [|apply extends_refl].
  cbn [snd]. split.
  - exists []. now rewrite app_nil_r.
  - intros k a H. unfold account_of in *. cbn [accounts].
    destruct (Z.eq_dec id k) as [->|Hne].
    + rewrite map_get_set_same. eexists. split; [reflexivity|].
      assert (a = account) by congruence. subst a. repeat split.
    + rewrite map_get_set_other by assumption. exists a.
      repeat split; assumption.
  - intros k u H. exists u. now split.
Qed.

Lemma history_createTransaction now transactionData s :
  keeps_history s (snd (createTransaction now transactionData s)).
Proof.
  intros Hs. split; [now apply preserves_createTransaction|].
  unfold createTransaction. cbn [snd]. split.
  - eexists. unfold ledger. cbn [transactions].
    apply map_values_set_fresh, (transactions_fresh Hs).
  - intros k a H. exists a. repeat split; assumption.
  - intros k u H. exists u. now split.
Qed.

Lemma keeps_history_refl s : keeps_history s s.
Proof. intros Hs. split; [assumption | apply extends_refl]. Qed.

Lemma keeps_history_trans s1 s2 s3 :
  keeps_history s1 s2 -> keeps_history s2 s3 -> keeps_history s1 s3.
Proof.
  intros H12 H23 Hs. destruct (H12 Hs) as [Hs2 E12].
  destruct (H23 Hs2) as [Hs3 E23].
  split; [assumption | eapply extends_trans; eassumption].
Qed.

(** X8.  No request, and no interleaving of requests at their awaits,
    removes or rewrites what is stored: the ledger before is a prefix of the
    ledger after, every account is still there under its id with the same
    owner, type, number and creation time (only its balance may differ),
    and every user is still there under its id. *)
Theorem nothing_is_lost (reqs : list Request) order s :
  consistent s ->
  extends s (serve s reqs)
  /\ extends s (snd (schedule order (map handle reqs) s)).
Proof.
  intros Hs. split.
  - refine (proj2 (@serve_stepwise N Z0 keeps_history
              keeps_history_refl keeps_history_trans
              history_createUser history_updateUser
              history_updateAccountBalance history_createTransaction
              reqs s Hs)).
  - refine (proj2 (@schedule_stepwise N Z0 keeps_history
              keeps_history_refl keeps_history_trans
              history_createUser history_updateUser
              history_updateAccountBalance history_createTransaction
              reqs order s Hs)).
Qed.
End History.

(** ** The ledger accounts for every balance *)

Section Audit.
Context {N : JSNumber} {Z0 : Zod}.

Lemma replay_app l1 l2 k b :
  replay (l1 ++ l2) k b = replay l2 k (replay l1 k b).
Proof. unfold replay. now rewrite filter_app, map_app, fold_left_app. Qed.

Lemma replay_one t k b :
  replay [t] k b = if tx_accountId t =? k then add b (amount t) else b.
Proof.
  unfold replay. cbn [filter]. destruct (tx_accountId t =? k); reflexivity.
Qed.

Lemma replay_none l k b :
  (forall t, In t l -> tx_accountId t <> k) -> replay l k b = b.
Proof.
  intros H. unfold replay. rewrite filter_none; [reflexivity|].
  intros t Hin. apply Z.eqb_neq. now apply H.
Qed.

Lemma audited_same s s' :
  accounts s' = accounts s -> transactions s' = transactions s ->
  audited s -> audited s'.
Proof.
  intros Ha Ht [P B].
  assert (Hacc : forall k, account_of s' k = account_of s k)
    by (intros k; unfold account_of; now rewrite Ha).
  assert (Hl : ledger s' = ledger s) by (unfold ledger; now rewrite Ht).
  split.
  - intros t Hin. rewrite Hl in Hin. destruct (P t Hin) as (a & H1 & H2).
    exists a. now rewrite Hacc.
  - intros k a H. rewrite Hacc in H. rewrite Hl. now apply B.
Qed.

(* One balance moves by [delta] and one entry of [delta] is posted. *)
Lemma audited_post s s' id acct delta t :
  audited s ->
  account_of s id = Some acct ->
  account_of s' id = Some (with_balance acct (add (balance acct) delta)) ->
  (forall k, k <> id -> account_of s' k = account_of s k) ->
  ledger s' = ledger s ++ [t] ->
  tx_accountId t = id -> amount t = delta ->
  tx_userId t = account_userId acct ->
  audited s'.
Proof.
  intros [P B] Hacct Hacct' Hother Hl Hid Hamt Hown. split.
  - intros t0 Hin. rewrite Hl in Hin. apply in_app_or in Hin as [Hin|[<-|[]]].
    + destruct (P t0 Hin) as (a0 & Ha0 & Ho0).
      destruct (Z.eq_dec (tx_accountId t0) id) as [Heq|Hne].
      * rewrite Heq in *. eexists. split; [exact Hacct'|].
        cbn. congruence.
      * exists a0. now rewrite Hother.
    + rewrite Hid. eexists. split; [exact Hacct'|]. cbn. congruence.
  - intros k a Ha. rewrite Hl, replay_app, replay_one, Hid, Hamt.
    destruct (Z.eqb_spec id k) as [<-|Hne].
    + rewrite Hacct' in Ha. injection Ha as <-.
      cbn [with_balance balance account_type].
      now rewrite <- (B id acct Hacct).
    + rewrite Hother in Ha by congruence. exact (B k a Ha).
Qed.

Lemma createUser_accounts d1 d2 d3 userData s k :
  let c := accountIdCounter s in
  let opened (offset : Z) (type : string) (opening : Z) (d : Drawn) :=
    {| account_id := c + offset;
       account_userId := userIdCounter s;
       account_type := type;
       accountNumber := fst d;
       balance := fromInt opening;
       createdAt := snd d |} in
  account_of (snd (createUser d1 d2 d3 userData s)) k
  = if k =? c then Some (opened 0 "checking"%string 2500 d1)
    else if k =? c + 1 then Some (opened 1 "savings"%string 10000 d2)
    else if k =? c + 2 then Some (opened 2 "credit"%string 0 d3)
    else account_of s k.
Proof.
  intros c opened. unfold createUser, account_of.
  cbn -[map_set Z.add]. fold c.
  destruct (Z.eqb_spec k c) as [->|H0].
  - rewrite !map_get_set_other by lia. rewrite map_get_set_same.
    subst opened. cbv beta. now rewrite Z.add_0_r.
  - destruct (Z.eqb_spec k (c + 1)) as [->|H1].
    + rewrite map_get_set_other by lia. now rewrite map_get_set_same.
    + destruct (Z.eqb_spec k (c + 2)) as [->|H2].
      * replace (c + 1 + 1) with (c + 2) by lia.
        now rewrite map_get_set_same.
      * now rewrite !map_get_set_other by lia.
Qed.

Lemma audited_register d1 d2 d3 userData s :
  consistent s -> audited s ->
  audited (snd (run (register_route d1 d2 d3 userData) s)).
Proof.
  intros Hs Ha. unfold register_route, await, respond, getUserByEmail.
  cbn [bind run]. destruct (find _ _); [exact Ha|]. cbn [bind run].
  pose proof (createUser_accounts d1 d2 d3 userData s) as Hacc.
  assert (Hl : ledger (snd (createUser d1 d2 d3 userData s)) = ledger s)
    by reflexivity.
  destruct (createUser d1 d2 d3 userData s) as [user s']. cbn [run snd] in *.
  destruct Ha as [P B].
  assert (Hold : forall k a, account_of s k = Some a ->
                             k < accountIdCounter s).
  { intros k a H. apply (accounts_fresh Hs k a). now apply map_get_In. }
  assert (Hkeep : forall k a, account_of s k = Some a ->
                              account_of s' k = Some a).
  { intros k a H. pose proof (Hold k a H). rewrite Hacc.
    destruct (Z.eqb_spec k (accountIdCounter s)); [lia|].
    destruct (Z.eqb_spec k (accountIdCounter s + 1)); [lia|].
    destruct (Z.eqb_spec k (accountIdCounter s + 2)); [lia|]. exact H. }
  assert (Hnone : forall k b, accountIdCounter s <= k ->
                              replay (ledger s) k b = b).
  { intros k b Hk. apply replay_none. intros t Hin Heq.
    destruct (P t Hin) as (a & H1 & _). rewrite Heq in H1.
    specialize (Hold k a H1). lia. }
  split.
  - intros t Hin. rewrite Hl in Hin. destruct (P t Hin) as (a & H1 & H2).
    exists a. split; [now apply Hkeep | exact H2].
  - intros k a H. rewrite Hl. rewrite Hacc in H.
    destruct (Z.eqb_spec k (accountIdCounter s)) as [->|H0].
    { injection H as <-. cbn [balance account_type].
      rewrite Hnone by lia. reflexivity. }
    destruct (Z.eqb_spec k (accountIdCounter s + 1)) as [->|H1].
    { injection H as <-. cbn [balance account_type].
      rewrite Hnone by lia. reflexivity. }
    destruct (Z.eqb_spec k (accountIdCounter s + 2)) as [->|H2].
    { injection H as <-. cbn [balance account_type].
      rewrite Hnone by lia. reflexivity. }
    now apply B.
Qed.

Lemma audited_deposit now userId body s :
  consistent s -> audited s ->
  audited (snd (run (deposit_route now userId body) s)).
Proof.
  intros Hs Ha.
  destruct (status_dec (fst (run (deposit_route now userId body) s)))
    as [Hok|Hno]; [|now rewrite deposit_failure].
  destruct (deposit_200_inv _ _ _ _ Hok) as (acct & Hsch & Hacct & Hu).
  destruct (deposit_success now Hs Hsch Hacct Hu)
    as (_ & Hacct' & Hother & Hl & _).
  eapply audited_post; try eassumption; try reflexivity.
  cbn. congruence.
Qed.

Lemma audited_withdrawal now userId body s :
  consistent s -> audited s ->
  audited (snd (run (withdrawal_route now userId body) s)).
Proof.
  intros Hs Ha.
  destruct (status_dec (fst (run (withdrawal_route now userId body) s)))
    as [Hok|Hno]; [|now rewrite withdrawal_failure].
  destruct (withdrawal_200_inv _ _ _ _ Hok)
    as (acct & Hsch & Hacct & Hu & Hgate).
  destruct (withdrawal_success now Hs Hsch Hacct Hu Hgate)
    as (_ & Hacct' & Hother & Hl & _).
  eapply audited_post; try eassumption; try reflexivity.
  cbn. congruence.
Qed.

Lemma audited_transfer now1 now2 userId body s :
  consistent s -> audited s ->
  audited (snd (run (transfer_route now1 now2 userId body) s)).
Proof.
  intros Hs Ha.
  destruct (status_dec (fst (run (transfer_route now1 now2 userId body) s)))
    as [Hok|Hno]; [|now rewrite transfer_failure].
  destruct (transfer_200_inv _ _ _ _ _ Hok)
    as (fa & ta & Hsch & Hfa & Hu & Hta & Hlt).
  destruct (transfer_success now1 now2 Hs Hsch Hfa Hu Hta Hlt)
    as (_ & Hfa' & Hta' & Hother & Hl & _).
  apply transferSchema_Some in Hsch as (_ & _ & Hne).
  set (a := parseFloat (tb_amount body)) in *.
  set (t1 := {| tx_id := transactionIdCounter s;
                tx_userId := userId;
                tx_accountId := tb_fromAccountId body;
                tx_type := "transfer";
                amount := neg a;
                description := tb_description body;
                date := now1;
                toAccountId := Some (tb_toAccountId body) |}) in *.
  pose (s1 :=
    {| users := users s;
       accounts := map_set (accounts s) (tb_fromAccountId body)
                     (with_balance fa (add (balance fa) (neg a)));
       transactions := map_set (transactions s) (transactionIdCounter s) t1;
       userIdCounter := userIdCounter s;
       accountIdCounter := accountIdCounter s;
       transactionIdCounter := transactionIdCounter s + 1 |}).
  destruct (@post_one _ s (tb_fromAccountId body) fa (neg a) t1 Hs Hfa)
    as (H1a & H1o & H1l & _).
  fold s1 in H1a, H1o, H1l.
  assert (A1 : audited s1).
  { eapply (@audited_post s s1 _ _ _ _ Ha Hfa H1a H1o H1l);
      try reflexivity.
    cbn. congruence. }
  assert (Hta1 : account_of s1 (tb_toAccountId body) = Some ta).
  { rewrite H1o by congruence. exact Hta. }
  eapply (@audited_post s1 _ _ _ _ _ A1 Hta1 Hta').
  - intros k Hk. destruct (Z.eq_dec k (tb_fromAccountId body)) as [->|Hk'].
    + now rewrite Hfa', H1a.
    + rewrite Hother by assumption. now rewrite H1o.
  - rewrite Hl, H1l, <- app_assoc. reflexivity.
  - reflexivity.
  - reflexivity.
  - reflexivity.
Qed.

Lemma audited_step (req : Request) s :
  consistent s -> audited s -> audited (snd (run (handle req) s)).
Proof.
  intros Hs Ha. destruct req; cbn [handle].
  - now apply audited_register.
  - apply (audited_same (s := s)); [| |exact Ha];
      unfold login_route; (destruct (loginSchema body); [|reflexivity]);
      unfold validateUserPassword; cbn;
      (destruct (find _ _) as [u|]; [|reflexivity]);
      destruct (String.eqb _ _); reflexivity.
  - exact Ha.
  - exact Ha.
  - now apply audited_transfer.
  - now apply audited_deposit.
  - now apply audited_withdrawal.
  - apply (audited_same (s := s)); [| |exact Ha];
      unfold profile_route;
      (destruct (updateProfileSchema body); [|reflexivity]); cbn;
      unfold updateUser; destruct (map_get _ _); reflexivity.
  - apply (audited_same (s := s)); [| |exact Ha];
      unfold password_route;
      (destruct (changePasswordSchema body); [|reflexivity]); cbn;
      (destruct (map_get (users s) userId) as [u|]; [|reflexivity]);
      (destruct (negb _); [reflexivity|]); cbn;
      unfold updateUser; destruct (map_get _ _); reflexivity.
Qed.

Lemma new_MemStorage_audited : audited new_MemStorage.
Proof.
  split.
  - intros t [].
  - intros k a H. discriminate.
Qed.

Lemma serve_audited reqs : forall s,
  consistent s -> audited s -> audited (serve s reqs).
Proof.
  induction reqs as [|req reqs IH]; intros s Hs Ha; cbn [serve fold_left];
    [exact Ha|].
  apply IH.
  - apply safe_run; [apply handle_safe | exact Hs].
  - now apply audited_step.
Qed.

Lemma reachable_audited s : reachable s -> audited s.
Proof.
  intros [reqs ->].
  apply serve_audited;
    [apply new_MemStorage_consistent | apply new_MemStorage_audited].
Qed.
End Audit.

(** ** Owners and balances *)

Section Owners.
Context {N : JSNumber} {Z0 : Zod}.

Lemma owner_post s s' id acct delta t :
  posted_to_owner s ->
  account_of s id = Some acct ->
  account_of s' id = Some (with_balance acct (add (balance acct) delta)) ->
  (forall k, k <> id -> account_of s' k = account_of s k) ->
  ledger s' = ledger s ++ [t] ->
  tx_accountId t = id ->
  tx_userId t = account_userId acct ->
  posted_to_owner s'.
Proof.
  intros P Hacct Hacct' Hother Hl Hid Hown t0 Hin.
  rewrite Hl in Hin. apply in_app_or in Hin as [Hin|[<-|[]]].
  - destruct (P t0 Hin) as (a0 & Ha0 & Ho0).
    destruct (Z.eq_dec (tx_accountId t0) id) as [Heq|Hne].
    + rewrite Heq in *. eexists. split; [exact Hacct'|]. cbn. congruence.
    + exists a0. now rewrite Hother.
  - rewrite Hid. eexists. split; [exact Hacct'|]. cbn. congruence.
Qed.

Lemma owner_same s s' :
  accounts s' = accounts s -> transactions s' = transactions s ->
  posted_to_owner s -> posted_to_owner s'.
Proof.
  intros Ha Ht P t Hin. unfold ledger in Hin. rewrite Ht in Hin.
  destruct (P t Hin) as (a & H1 & H2). exists a.
  unfold account_of in *. now rewrite Ha.
Qed.

Lemma owner_step (req : Request) s :
  consistent s -> posted_to_owner s ->
  posted_to_owner (snd (run (handle req) s)).
Proof.
  intros Hs P. destruct req; cbn [handle].
  - unfold register_route, await, respond, getUserByEmail.
    cbn [bind run]. destruct (find _ _); [exact P|]. cbn [bind run].
    pose proof (createUser_accounts d1 d2 d3 userData s) as Hacc.
    assert (Hl : ledger (snd (createUser d1 d2 d3 userData s)) = ledger s)
      by reflexivity.
    destruct (createUser d1 d2 d3 userData s) as [user s'].
    cbn [run snd] in *.
    intros t Hin. rewrite Hl in Hin. destruct (P t Hin) as (a & H1 & H2).
    exists a. split; [|exact H2].
    pose proof (accounts_fresh Hs _ _ (map_get_In _ _ H1)) as Hlt.
    rewrite Hacc.
    destruct (Z.eqb_spec (tx_accountId t) (accountIdCounter s)); [lia|].
    destruct (Z.eqb_spec (tx_accountId t) (accountIdCounter s + 1)); [lia|].
    destruct (Z.eqb_spec (tx_accountId t) (accountIdCounter s + 2)); [lia|].
    exact H1.
  - apply (owner_same (s := s)); [| |exact P];
      unfold login_route; (destruct (loginSchema body); [|reflexivity]);
      unfold validateUserPassword; cbn;
      (destruct (find _ _) as [u|]; [|reflexivity]);
      destruct (String.eqb _ _); reflexivity.
  - exact P.
  - exact P.
  - destruct (status_dec (fst (run (transfer_route now1 now2 userId body) s)))
      as [Hok|Hno]; [|now rewrite transfer_failure].
    destruct (transfer_200_inv _ _ _ _ _ Hok)
      as (fa & ta & Hsch & Hfa & Hu & Hta & Hlt).
    destruct (transfer_success now1 now2 Hs Hsch Hfa Hu Hta Hlt)
      as (_ & Hfa' & Hta' & Hother & Hl & _).
    apply transferSchema_Some in Hsch as (_ & _ & Hne).
    intros t Hin. rewrite Hl in Hin.
    apply in_app_or in Hin as [Hin|[<-|[<-|[]]]].
    + destruct (P t Hin) as (a0 & Ha0 & Ho0).
      destruct (Z.eq_dec (tx_accountId t) (tb_fromAccountId body))
        as [Heq|Hn1].
      { rewrite Heq in *. eexists. split; [exact Hfa'|]. cbn. congruence. }
      destruct (Z.eq_dec (tx_accountId t) (tb_toAccountId body))
        as [Heq|Hn2].
      { rewrite Heq in *. eexists. split; [exact Hta'|]. cbn. congruence. }
      exists a0. now rewrite Hother.
    + eexists. split; [exact Hfa'|]. cbn. congruence.
    + eexists. split; [exact Hta'|]. reflexivity.
  - destruct (status_dec (fst (run (deposit_route now userId body) s)))
      as [Hok|Hno]; [|now rewrite deposit_failure].
    destruct (deposit_200_inv _ _ _ _ Hok) as (acct & Hsch & Hacct & Hu).
    destruct (deposit_success now Hs Hsch Hacct Hu)
      as (_ & Hacct' & Hother & Hl & _).
    eapply owner_post; try eassumption; [reflexivity | cbn; congruence].
  - destruct (status_dec (fst (run (withdrawal_route now userId body) s)))
      as [Hok|Hno]; [|now rewrite withdrawal_failure].
    destruct (withdrawal_200_inv _ _ _ _ Hok)
      as (acct & Hsch & Hacct & Hu & Hgate).
    destruct (withdrawal_success now Hs Hsch Hacct Hu Hgate)
      as (_ & Hacct' & Hother & Hl & _).
    eapply owner_post; try eassumption; [reflexivity | cbn; congruence].
  - apply (owner_same (s := s)); [| |exact P];
      unfold profile_route;
      (destruct (updateProfileSchema body); [|reflexivity]); cbn;
      unfold updateUser; destruct (map_get _ _); reflexivity.
  - apply (owner_same (s := s)); [| |exact P];
      unfold password_route;
      (destruct (changePasswordSchema body); [|reflexivity]); cbn;
      (destruct (map_get (users s) userId) as [u|]; [|reflexivity]);
      (destruct (negb _); [reflexivity|]); cbn;
      unfold updateUser; destruct (map_get _ _); reflexivity.
Qed.

Lemma serve_owner reqs : forall s,
  consistent s -> posted_to_owner s -> posted_to_owner (serve s reqs).
Proof.
  induction reqs as [|req reqs IH]; intros s Hs P; cbn [serve fold_left];
    [exact P|].
  apply IH.
  - apply safe_run; [apply handle_safe | exact Hs].
  - now apply owner_step.
Qed.

(** X9.  In every reachable store each ledger entry is posted against a
    stored account and carries the user id of the owner of that account.
    So every entry of a user's transaction listing is posted against an
    account of that user's account listing. *)
Theorem entries_name_their_owner s :
  reachable s ->
  posted_to_owner s
  /\ forall userId t,
       In t (fst (getTransactionsByUserId userId s)) ->
       exists a,
         In a (fst (getAccountsByUserId userId s))
         /\ account_id a = tx_accountId t.
Proof.
  intros Hr.
  assert (P : posted_to_owner s).
  { destruct Hr as [reqs ->]. apply serve_owner.
    - apply new_MemStorage_consistent.
    - intros t []. }
  split; [exact P|].
  intros userId t Hin. pose proof (reachable_consistent Hr) as Hs.
  unfold getTransactionsByUserId, getAccountsByUserId in *. cbn [fst] in *.
  apply (Permutation_in _ (Array_sort_perm date _)) in Hin.
  apply filter_In in Hin as [Hin Hu]. apply Z.eqb_eq in Hu.
  destruct (P t Hin) as (a & Ha & Ho). exists a. split.
  - apply filter_In. split.
    + apply map_get_In in Ha. apply (in_map snd _ _ Ha).
    + apply Z.eqb_eq. congruence.
  - now apply (account_of_id _ Hs Ha).
Qed.
End Owners.

Section Balances.
Context {N : JSNumber} {Z0 : Zod}.

(** X10.  In every reachable store the ledger replays every balance: the
    balance of an account is its opening balance (2500 for a checking
    account, 10000 for a savings account, 0 for a credit account) with the
    amounts of the ledger entries posted against it added one after the
    other, in ledger order and in the arithmetic of the store, whatever
    that arithmetic rounds. *)
Theorem ledger_accounts_for_balances s k a :
  reachable s ->
  account_of s k = Some a ->
  balance a = replay (ledger s) k (fromInt (opening (account_type a))).
Proof. intros Hr. apply (audited_balances (reachable_audited Hr)). Qed.
End Balances.

(** ** Races at the awaits *)

Section Races.
Context {N : JSNumber} {Z0 : Zod}.

(** X12.  Two withdrawals from one account of the caller, each within the
    balance that both have read, both succeed when each reads the account
    before the other writes it: the balance is lowered by both amounts, so
    that where the arithmetic is exact a checking or savings account ends
    below zero as soon as the two amounts together exceed the balance.  The
    funds check uses the balance read at the first await, not the one the
    update finds. *)
Theorem overdraft_by_interleaving now1 now2 userId body1 body2 s acct :
  consistent s ->
  withdrawalSchema body1 = Some body1 ->
  withdrawalSchema body2 = Some body2 ->
  wb_accountId body1 = wb_accountId body2 ->
  account_of s (wb_accountId body1) = Some acct ->
  account_userId acct = userId ->
  let a1 := parseFloat (wb_amount body1) in
  let a2 := parseFloat (wb_amount body2) in
  ltb (balance acct) a1 = false ->
  ltb (balance acct) a2 = false ->
  let pool := [withdrawal_route now1 userId body1;
               withdrawal_route now2 userId body2] in
  let out := schedule [0; 1; 0; 1; 0; 1]%nat pool s in
  Forall (fun t => exists r, t = Return r /\ Ok r) (fst out)
  /\ balance_of (snd out) (wb_accountId body1)
     = Some (add (add (balance acct) (neg a1)) (neg a2))
  /\ forall E : Exact N,
       cents (balance acct) < cents a1 + cents a2 ->
       cents (add (add (balance acct) (neg a1)) (neg a2)) < 0.
Proof.
  intros Hs Hv1 Hv2 Hid Hacct Hu a1 a2 Hlt1 Hlt2 pool out.
  assert (Haid : account_id acct = wb_accountId body1)
    by (eapply account_of_id; eassumption).
  unfold account_of in Hacct.
  assert (Hout : exists s',
    out = ([Return {| status := 200;
                      json := transaction_json
                        {| tx_id := transactionIdCounter s;
                           tx_userId := userId;
                           tx_accountId := wb_accountId body1;
                           tx_type := "withdrawal";
                           amount := neg a1;
                           description := wb_description body1;
                           date := now1;
                           toAccountId := None |} |};
            Return {| status := 200;
                      json := transaction_json
                        {| tx_id := transactionIdCounter s + 1;
                           tx_userId := userId;
                           tx_accountId := wb_accountId body1;
                           tx_type := "withdrawal";
                           amount := neg a2;
                           description := wb_description body2;
                           date := now2;
                           toAccountId := None |} |}], s')
    /\ balance_of s' (wb_accountId body1)
       = Some (add (add (balance acct) (neg a1)) (neg a2))).
  { eexists. split.
    - subst out pool. unfold withdrawal_route. rewrite Hv1, Hv2.
      cbn [schedule turn resume bind await fst snd].
      unfold getAccountById at 1. cbv beta iota.
      cbn [schedule turn resume bind await fst snd].
      unfold getAccountById at 1. cbv beta iota.
      rewrite <- Hid, Hacct, Hu, Z.eqb_refl. unfold reparse.
      fold a1 a2. rewrite Hlt1, Hlt2, !andb_false_r. cbn [negb].
      rewrite Haid.
      cbn [schedule turn resume bind await fst snd].
      unfold updateAccountBalance at 1. rewrite Hacct. cbv beta iota zeta.
      cbn [schedule turn resume bind await fst snd].
      unfold updateAccountBalance at 1. cbn [accounts].
      rewrite map_get_set_same. cbv beta iota zeta.
      cbn [schedule turn resume bind await fst snd].
      unfold createTransaction at 1. cbv beta iota zeta.
      cbn [schedule turn resume bind await fst snd].
      unfold createTransaction at 1. cbv beta iota zeta.
      cbn [schedule turn resume bind await fst snd respond
           transactionIdCounter it_userId it_accountId it_type it_amount
           it_description it_toAccountId].
      reflexivity.
    - unfold balance_of, account_of. cbn [accounts].
      rewrite map_get_set_same. reflexivity. }
  destruct Hout as (s' & Hout & Hbal). rewrite Hout. cbn [fst snd].
  split; [|split; [exact Hbal|]].
  - repeat constructor; eexists; split; reflexivity.
  - intros E Hover. rewrite !cents_add, !cents_neg. lia.
Qed.

(** X13.  Two registrations under one email that no user has, interleaved so
    that each looks the email up before the other has created its user, are
    both answered 201, and the store then holds two users with that email:
    the lookup and the creation are separate turns of the event loop. *)
Theorem double_registration d1 d2 d3 d4 d5 d6 userData1 userData2 s :
  consistent s ->
  ~ In (iu_email userData1) (emails s) ->
  iu_email userData2 = iu_email userData1 ->
  let pool := [register_route d1 d2 d3 userData1;
               register_route d4 d5 d6 userData2] in
  let out := schedule [0; 1; 0; 1]%nat pool s in
  Forall (fun t => exists r, t = Return r /\ status r = 201) (fst out)
  /\ emails (snd out)
     = emails s ++ [iu_email userData1; iu_email userData1].
Proof.
  intros Hs Hnew He pool out. apply find_email_None in Hnew.
  assert (Hout : out = schedule [0; 1; 0; 1]%nat pool s) by reflexivity.
  clearbody out. subst pool. unfold register_route in Hout.
  cbn [schedule turn resume bind await fst snd] in Hout.
  unfold getUserByEmail at 1 in Hout. cbv beta iota in Hout.
  cbn [schedule turn resume bind await fst snd] in Hout.
  unfold getUserByEmail at 1 in Hout. cbv beta iota in Hout.
  unfold directory in Hnew. rewrite He, Hnew in Hout.
  cbn [schedule turn resume bind await fst snd] in Hout.
  destruct (createUser_run d1 d2 d3 userData1 Hs)
    as (Hu1 & Hd1 & _).
  pose proof (preserves_createUser d1 d2 d3 userData1 Hs) as Hs1.
  destruct (createUser d1 d2 d3 userData1 s) as [u1 s1].
  cbn [fst snd] in *.
  cbn [schedule turn resume bind await fst snd] in Hout.
  destruct (createUser_run d4 d5 d6 userData2 Hs1)
    as (Hu2 & Hd2 & _).
  destruct (createUser d4 d5 d6 userData2 s1) as [u2 s2].
  cbn [fst snd] in *.
  cbn [schedule turn resume bind await fst snd respond] in Hout.
  subst out. cbn [fst snd]. split.
  - repeat constructor; eexists; split; reflexivity.
  - unfold emails, directory in *.
    rewrite Hd2, Hd1, !map_app, <- app_assoc. cbn [map email app].
    now rewrite He.
Qed.
End Races.

(** ** Requests one after the other *)

Section Sequences.
Context {N : JSNumber} {Z0 : Zod}.

(** X14.  A deposit into an account of the caller followed by a withdrawal
    of the same amount from it, when the funds check of the withdrawal
    passes on the raised balance, as it does for every credit account:
    both are answered 200; the balance ends at the balance before, plus
    the amount, plus minus the amount, two additions of the store's
    arithmetic; the ledger gains the deposit and then the withdrawal, with
    opposite amounts; no other account changes.  Where the arithmetic is
    exact the balance is back where it was. *)
Theorem deposit_then_withdrawal now1 now2 userId dbody wbody s acct :
  consistent s ->
  depositSchema dbody = Some dbody ->
  withdrawalSchema wbody = Some wbody ->
  wb_accountId wbody = db_accountId dbody ->
  wb_amount wbody = db_amount dbody ->
  account_of s (db_accountId dbody) = Some acct ->
  account_userId acct = userId ->
  let a := parseFloat (db_amount dbody) in
  negb (String.eqb (account_type acct) "credit")
    && ltb (add (balance acct) a) a = false ->
  let out1 := run (deposit_route now1 userId dbody) s in
  let out2 := run (withdrawal_route now2 userId wbody) (snd out1) in
  Ok (fst out1) /\ Ok (fst out2)
  /\ account_of (snd out2) (db_accountId dbody)
     = Some (with_balance acct (add (add (balance acct) a) (neg a)))
  /\ (forall id, id <> db_accountId dbody ->
        account_of (snd out2) id = account_of s id)
  /\ (exists t1 t2,
        ledger (snd out2) = ledger s ++ [t1; t2]
        /\ tx_type t1 = "deposit"%string
        /\ tx_type t2 = "withdrawal"%string
        /\ amount t1 = a
        /\ amount t2 = neg a)
  /\ forall E : Exact N,
       cents (add (add (balance acct) a) (neg a)) = cents (balance acct).
Proof.
  intros Hs Hd Hw Hid Ham Hacct Hu a Hfunds out1 out2.
  destruct (deposit_success now1 Hs Hd Hacct Hu)
    as (Hr1 & Ha1 & Ho1 & Hl1 & _).
  fold out1 in Hr1, Ha1, Ho1, Hl1. fold a in Ha1, Hl1.
  assert (Hs1 : consistent (snd out1))
    by (apply (safe_run (handle_safe (Deposit now1 userId dbody)) Hs)).
  rewrite <- Hid in Ha1.
  assert (Hgate :
    negb (String.eqb (account_type
            (with_balance acct (add (balance acct) a))) "credit")
    && ltb (balance (with_balance acct (add (balance acct) a)))
           (parseFloat (wb_amount wbody)) = false).
  { cbn [with_balance account_type balance]. rewrite Ham. exact Hfunds. }
  destruct (withdrawal_success now2 Hs1 Hw Ha1 Hu Hgate)
    as (Hr2 & Ha2 & Ho2 & Hl2 & _).
  fold out2 in Hr2, Ha2, Ho2, Hl2. rewrite Ham in Ha2, Hl2.
  fold a in Ha2, Hl2.
  split; [unfold Ok; now rewrite Hr1|].
  split; [unfold Ok; now rewrite Hr2|].
  split; [rewrite <- Hid; exact Ha2|].
  split; [|split].
  - intros id Hne. rewrite Ho2 by congruence. now apply Ho1.
  - do 2 eexists. split; [|split; [|split; [|split]]].
    + rewrite Hl2, Hl1, <- app_assoc. reflexivity.
    + reflexivity.
    + reflexivity.
    + reflexivity.
    + reflexivity.
  - intros E. rewrite !cents_add, cents_neg. lia.
Qed.

(** X15.  After a transfer that is answered 200, the listing of each user's
    transactions holds what it held before and, for the caller, the debit
    leg, and for the owner of the destination account, the credit leg: each
    leg is shown to one user only. *)
Theorem transfer_in_listings now1 now2 userId body s fa ta :
  consistent s ->
  transferSchema body = Some body ->
  account_of s (tb_fromAccountId body) = Some fa ->
  account_userId fa = userId ->
  account_of s (tb_toAccountId body) = Some ta ->
  ltb (balance fa) (parseFloat (tb_amount body)) = false ->
  let a := parseFloat (tb_amount body) in
  let debit :=
    {| tx_id := transactionIdCounter s;
       tx_userId := userId;
       tx_accountId := tb_fromAccountId body;
       tx_type := "transfer";
       amount := neg a;
       description := tb_description body;
       date := now1;
       toAccountId := Some (tb_toAccountId body) |} in
  let credit :=
    {| tx_id := transactionIdCounter s + 1;
       tx_userId := account_userId ta;
       tx_accountId := tb_toAccountId body;
       tx_type := "transfer";
       amount := a;
       description := "Transfer from account " ++ accountNumber fa;
       date := now2;
       toAccountId := None |} in
  let s' := snd (run (transfer_route now1 now2 userId body) s) in
  forall u t,
    In t (fst (getTransactionsByUserId u s'))
    <-> In t (fst (getTransactionsByUserId u s))
        \/ (u = userId /\ t = debit)
        \/ (u = account_userId ta /\ t = credit).
Proof.
  intros Hs Hv Hfa Hu Hta Hlt a debit credit s' u t.
  destruct (transfer_success now1 now2 Hs Hv Hfa Hu Hta Hlt)
    as (_ & _ & _ & _ & Hl & _).
  fold a debit credit s' in Hl.
  assert (Hin : forall s0,
    In t (fst (getTransactionsByUserId u s0))
    <-> In t (ledger s0) /\ tx_userId t = u).
  { intros s0. unfold getTransactionsByUserId, ledger. cbn [fst]. split.
    - intros H. apply (Permutation_in _ (Array_sort_perm date _)) in H.
      apply filter_In in H as [H1 H2]. apply Z.eqb_eq in H2. auto.
    - intros [H1 H2].
      apply (Permutation_in _ (Permutation_sym (Array_sort_perm date _))).
      apply filter_In. split; [assumption | now apply Z.eqb_eq]. }
  rewrite !Hin, Hl, in_app_iff. cbn [In]. split.
  - intros [[H|[H|[H|[]]]] Hown].
    + left. auto.
    + right. left. subst t. cbn [tx_userId] in Hown. auto.
    + right. right. subst t. cbn [tx_userId] in Hown. auto.
  - intros [[H Hown]|[[-> ->]|[-> ->]]].
    + auto.
    + split; [right; left; reflexivity | reflexivity].
    + split; [right; right; left; reflexivity | reflexivity].
Qed.
End Sequences.

(** ** Account numbers *)

Section AccountNumbers.

Lemma hex_byte (b : Byte.byte) :
  let hi := upper (hex_digit (Byte.to_N b / 16)) in
  let lo := upper (hex_digit (Byte.to_N b mod 16)) in
  digit_value hi <> None /\ digit_value lo <> None
  /\ match digit_value hi, digit_value lo with
     | Some h, Some l => Byte.of_N (16 * h + l) = Some b
     | _, _ => False
     end.
Proof. destruct b; vm_compute; repeat split; discriminate. Qed.

Lemma read_generated bytes :
  read_hex (generateAccountNumber bytes) = Some bytes.
Proof.
  unfold generateAccountNumber.
  induction bytes as [|b bytes IH]; [reflexivity|].
  cbn [toString_hex toUpperCase read_hex].
  destruct (hex_byte b) as (_ & _ & H).
  cbv zeta in H.
  destruct (digit_value (upper (hex_digit (Byte.to_N b / 16)))) as [h|];
    [|contradiction].
  destruct (digit_value (upper (hex_digit (Byte.to_N b mod 16)))) as [l|];
    [|contradiction].
  now rewrite IH, H.
Qed.

(** X16.  An account number is written with two characters per random byte,
    each one of 0-9 and A-F, so the 4 bytes the store draws give 8
    characters; and it tells the bytes it was made from, so two account
    numbers are equal only when the same bytes were drawn. *)
Theorem account_number_format bytes :
  List.length bytes = 4%nat ->
  String.length (generateAccountNumber bytes) = 8%nat
  /\ Forall upper_hex (list_ascii_of_string (generateAccountNumber bytes))
  /\ forall bytes',
       generateAccountNumber bytes' = generateAccountNumber bytes ->
       bytes' = bytes.
Proof.
  intros Hlen.
  assert (Hl : forall l, String.length (generateAccountNumber l)
                         = (2 * List.length l)%nat).
  { unfold generateAccountNumber. induction l as [|b l IH]; [reflexivity|].
    cbn [toString_hex toUpperCase String.length List.length].
    rewrite IH. lia. }
  split; [rewrite Hl, Hlen; reflexivity|]. split.
  - clear Hlen. unfold generateAccountNumber.
    induction bytes as [|b bytes IH]; [constructor|].
    cbn [toString_hex toUpperCase list_ascii_of_string].
    destruct (hex_byte b) as (H1 & H2 & _).
    constructor; [exact H1|]. constructor; [exact H2 | exact IH].
  - intros bytes' Heq.
    pose proof (read_generated bytes') as H'.
    rewrite Heq, read_generated in H'. congruence.
Qed.
End AccountNumbers.

(** ** Sessions *)

Section SessionFacts.
Context {N : JSNumber} {Z0 : Zod}.

Lemma run_keeping session (route : Async Response) s :
  run (keeping session route) s
  = ((fst (run route s), session), snd (run route s)).
Proof. unfold keeping. now rewrite run_bind. Qed.

(** X17.  A logout is answered 200 and drops the session, and a client
    without a session is answered 401 "Unauthorized" by every route behind
    [isAuthenticated], however many it calls, with no effect on the store:
    the check comes before the body is validated and before any storage
    call. *)
Theorem logged_out_is_refused calls session s :
  forallb protected calls = true ->
  browse (PostLogout :: calls) session s
  = ({| status := 200; json := message "Logged out successfully" |}
       :: map (fun _ => {| status := 401; json := message "Unauthorized" |})
              calls,
     None, s).
Proof.
  intros Hp. cbn [browse dispatch post_logout reply run].
  assert (H : browse calls None s
              = (map (fun _ => {| status := 401;
                                  json := message "Unauthorized" |}) calls,
                 None, s)).
  { induction calls as [|call calls IH]; [reflexivity|].
    cbn [forallb] in Hp. apply andb_true_iff in Hp as [Hc Hp].
    cbn [browse map].
    assert (Hcall : run (dispatch call None) s
                    = (({| status := 401; json := message "Unauthorized" |},
                        None), s))
      by (destruct call; try discriminate; reflexivity).
    rewrite Hcall, (IH Hp). reflexivity. }
  now rewrite H.
Qed.

Lemma createUser_users d1 d2 d3 userData s :
  consistent s ->
  forall j, j < userIdCounter s ->
  map_get (users (snd (createUser d1 d2 d3 userData s))) j
  = map_get (users s) j.
Proof.
  intros Hs j Hj.
  change (users (snd (createUser d1 d2 d3 userData s)))
    with (map_set (users s) (userIdCounter s)
            {| user_id := userIdCounter s;
               firstName := iu_firstName userData;
               lastName := iu_lastName userData;
               email := iu_email userData;
               password := iu_password userData;
               phone := iu_phone userData;
               address := iu_address userData |}).
  apply map_get_set_other. lia.
Qed.

Lemma updateUser_others id userData s :
  accounts (snd (updateUser id userData s)) = accounts s
  /\ forall j, j <> id ->
       map_get (users (snd (updateUser id userData s))) j
       = map_get (users s) j.
Proof.
  unfold updateUser. destruct (map_get (users s) id) as [user|].
  - split; [reflexivity|]. intros j Hj. cbn [snd users].
    apply map_get_set_other. congruence.
  - split; [reflexivity|]. reflexivity.
Qed.

Lemma confined_same call session s r : confined call session s (r, s).
Proof.
  split; [intros k a Ha _; now left | intros j u Hu _; exact Hu].
Qed.

(* The accounts stay and the users other than [id] stay. *)
Lemma confined_users call session s (out : Reply * MemStorage) id :
  accounts (snd out) = accounts s ->
  (forall j, j <> id ->
     map_get (users (snd out)) j = map_get (users s) j) ->
  (forall user, session = Some user -> wp_id user = id) ->
  session <> None ->
  confined call session s out.
Proof.
  intros Hacc Hoth Hid Hsome. split.
  - intros k a Hk _. left. unfold account_of in *. now rewrite Hacc.
  - intros j u Hj Hforeign. rewrite Hoth; [exact Hj|].
    destruct session as [user|]; [|congruence].
    rewrite <- (Hid user eq_refl). now apply Hforeign.
Qed.

(* One account of the caller moves. *)
Lemma confined_own call user s (out : Reply * MemStorage) id acct :
  account_of s id = Some acct ->
  account_userId acct = wp_id user ->
  (forall k, k <> id -> account_of (snd out) k = account_of s k) ->
  users (snd out) = users s ->
  confined call (Some user) s out.
Proof.
  intros Hacct Hu Hother Husers. split.
  - intros k a Hk Hforeign. left. rewrite Hother; [exact Hk|].
    intros ->. rewrite Hacct in Hk. injection Hk as <-.
    now apply (Hforeign user eq_refl).
  - intros j u Hj _. now rewrite Husers.
Qed.

(** X18.  The session confines the caller.  Whatever route a client calls,
    an account that does not belong to the user of its session stays as it
    was, unless the call is a transfer answered 200 that names it as
    destination, and then its balance gains the amount and nothing else of
    it changes; and no user but the user of the session is changed.
    Without a session no stored account and no stored user is changed by any
    call. *)
Theorem session_confines_the_caller call session s :
  consistent s ->
  let out := run (dispatch call session) s in
  (forall k a,
     account_of s k = Some a ->
     (forall user, session = Some user -> account_userId a <> wp_id user) ->
     account_of (snd out) k = Some a
     \/ exists now1 now2 body,
          call = PostTransfer now1 now2 body
          /\ tb_toAccountId body = k
          /\ Ok (fst (fst out))
          /\ account_of (snd out) k
             = Some (with_balance a
                       (add (balance a) (parseFloat (tb_amount body)))))
  /\ (forall j u,
        map_get (users s) j = Some u ->
        (forall user, session = Some user -> j <> wp_id user) ->
        map_get (users (snd out)) j = Some u)
  /\ (session = None ->
      forall k a, account_of s k = Some a ->
                  account_of (snd out) k = Some a).
Proof.
  intros Hs out.
  cut (confined call session s out).
  { intros [Hacc Husers]. split; [exact Hacc|]. split; [exact Husers|].
    intros -> k a Hk.
    destruct (Hacc k a Hk) as [H|(now1 & now2 & body & -> & _ & Hok & _)];
      [discriminate | exact H | discriminate Hok]. }
  subst out.
  destruct call; cbn [dispatch].
  - (* register *)
    unfold post_register, reply, await, getUserByEmail.
    cbn [bind run]. destruct (find _ _); [apply confined_same|].
    cbn [bind run].
    pose proof (createUser_accounts d1 d2 d3 userData s) as Hacc.
    pose proof (createUser_users d1 d2 d3 userData Hs) as Husers.
    destruct (createUser d1 d2 d3 userData s) as [u s1].
    cbn [fst snd run] in *. split; cbn [fst snd].
    + intros k a Hk _. left.
      pose proof (accounts_fresh Hs _ _ (map_get_In _ _ Hk)) as Hlt.
      rewrite Hacc.
      destruct (Z.eqb_spec k (accountIdCounter s)); [lia|].
      destruct (Z.eqb_spec k (accountIdCounter s + 1)); [lia|].
      destruct (Z.eqb_spec k (accountIdCounter s + 2)); [lia|].
      exact Hk.
    + intros j u0 Hj _. rewrite Husers; [exact Hj|].
      apply (users_fresh Hs _ _ (map_get_In _ _ Hj)).
  - (* login *)
    unfold post_login, reply, validateUserPassword, await, getUserByEmail.
    destruct (loginSchema body); [|apply confined_same]. cbn [bind run].
    destruct (find _ _); [|apply confined_same].
    destruct (String.eqb _ _); apply confined_same.
  - apply confined_same.
  - unfold get_me, isAuthenticated. destruct session; apply confined_same.
  - unfold isAuthenticated. destruct session; [|apply confined_same].
    rewrite run_keeping. apply confined_same.
  - unfold isAuthenticated. destruct session; [|apply confined_same].
    rewrite run_keeping. apply confined_same.
  - (* transfer *)
    destruct session as [user|]; [|apply confined_same].
    cbn [isAuthenticated]. rewrite run_keeping.
    destruct (status_dec
                (fst (run (transfer_route now1 now2 (wp_id user) body) s)))
      as [Hok|Hno];
      [|rewrite (transfer_failure _ _ _ _ _ Hno); apply confined_same].
    destruct (transfer_200_inv _ _ _ _ _ Hok)
      as (fa & ta & Hsch & Hfa & Hu & Hta & Hlt).
    destruct (transfer_success now1 now2 Hs Hsch Hfa Hu Hta Hlt)
      as (_ & _ & Hta' & Hother & _ & Husers).
    split; cbn [fst snd].
    + intros k a Hk Hforeign.
      assert (Hne : k <> tb_fromAccountId body).
      { intros ->. rewrite Hfa in Hk. injection Hk as <-.
        now apply (Hforeign user eq_refl). }
      destruct (Z.eq_dec k (tb_toAccountId body)) as [->|Hnt].
      * right. exists now1, now2, body.
        rewrite Hta in Hk. injection Hk as <-.
        split; [reflexivity|]. split; [reflexivity|].
        split; [exact Hok | exact Hta'].
      * left. rewrite Hother by assumption. exact Hk.
    + intros j u Hj _. now rewrite Husers.
  - (* deposit *)
    destruct session as [user|]; [|apply confined_same].
    cbn [isAuthenticated]. rewrite run_keeping.
    destruct (status_dec (fst (run (deposit_route now (wp_id user) body) s)))
      as [Hok|Hno];
      [|rewrite (deposit_failure _ _ _ _ Hno); apply confined_same].
    destruct (deposit_200_inv _ _ _ _ Hok) as (acct & Hsch & Hacct & Hu).
    destruct (deposit_success now Hs Hsch Hacct Hu)
      as (_ & _ & Hother & _ & Husers).
    eapply confined_own;
      [exact Hacct | exact Hu | exact Hother | exact Husers].
  - (* withdrawal *)
    destruct session as [user|]; [|apply confined_same].
    cbn [isAuthenticated]. rewrite run_keeping.
    destruct (status_dec
                (fst (run (withdrawal_route now (wp_id user) body) s)))
      as [Hok|Hno];
      [|rewrite (withdrawal_failure _ _ _ _ Hno); apply confined_same].
    destruct (withdrawal_200_inv _ _ _ _ Hok)
      as (acct & Hsch & Hacct & Hu & Hgate).
    destruct (withdrawal_success now Hs Hsch Hacct Hu Hgate)
      as (_ & _ & Hother & _ & Husers).
    eapply confined_own;
      [exact Hacct | exact Hu | exact Hother | exact Husers].
  - (* profile *)
    destruct session as [user|]; [|apply confined_same].
    unfold put_profile, isAuthenticated.
    destruct (updateProfileSchema body) as [profileData|];
      [|apply confined_same].
    unfold reply, await. cbn [bind run].
    destruct (updateUser_others (wp_id user) (profile_fields profileData) s)
      as [Hacc Hoth].
    destruct (updateUser (wp_id user) (profile_fields profileData) s)
      as [[updated|] s1]; cbn [fst snd run] in *;
      (eapply confined_users;
       [exact Hacc | exact Hoth
       | intros user0 Heq; now injection Heq as <- | discriminate]).
  - (* password *)
    destruct session as [user|]; [|apply confined_same].
    cbn [isAuthenticated]. rewrite run_keeping. unfold password_route.
    destruct (changePasswordSchema body) as [passwordData|];
      [|apply confined_same].
    unfold await, respond, getUserById. cbn [bind run].
    destruct (map_get (users s) (wp_id user)) as [stored|];
      [|apply confined_same].
    destruct (negb _); [apply confined_same|].
    cbn [bind run].
    destruct (updateUser_others (wp_id user)
                (password_only (newPassword passwordData)) s)
      as [Hacc Hoth].
    destruct (updateUser (wp_id user) _ s) as [x s1].
    cbn [fst snd run] in *.
    eapply confined_users;
      [exact Hacc | exact Hoth
      | intros user0 Heq; now injection Heq as <- | discriminate].
Qed.

Lemma current_kept session s s' :
  session_current session s ->
  (forall k u, map_get (users s) k = Some u ->
     exists u', map_get (users s') k = Some u'
                /\ without_password u' = without_password u) ->
  session_current session s'.
Proof.
  intros Hc Hk user Hs. destruct (Hc user Hs) as (stored & Hget & Hwp).
  destruct (Hk _ _ Hget) as (u' & Hget' & Hwp').
  exists u'. split; [exact Hget' | congruence].
Qed.

Lemma current_same_users session s s' :
  session_current session s -> users s' = users s ->
  session_current session s'.
Proof.
  intros Hc Hu. eapply current_kept; [exact Hc|]. intros k u Hget.
  exists u. now rewrite Hu.
Qed.

Lemma dispatch_current call session s :
  layout s ->
  session_current session s ->
  let out := run (dispatch call session) s in
  session_current (snd (fst out)) (snd out).
Proof.
  intros L Hc out. subst out. pose proof (layout_consistent L) as Hs.
  destruct call; cbn [dispatch isAuthenticated];
    try (destruct session as [user|]; cbn [isAuthenticated];
         [rewrite run_keeping; cbn [fst snd] | exact Hc]).
  - (* register *)
    unfold post_register, reply, await, getUserByEmail. cbn [bind run].
    destruct (find _ _); [exact Hc|]. cbn [bind run].
    destruct (createUser_run d1 d2 d3 userData Hs) as (Hu & _ & _).
    assert (Hget : map_get (users (snd (createUser d1 d2 d3 userData s)))
                     (userIdCounter s)
                   = Some (fst (createUser d1 d2 d3 userData s)))
      by apply map_get_set_same.
    destruct (createUser d1 d2 d3 userData s) as [u s1].
    cbn [fst snd run] in *.
    intros user Huser. injection Huser as <-. exists u.
    split; [|reflexivity]. rewrite Hu at 1. exact Hget.
  - (* login *)
    unfold post_login, reply, validateUserPassword, await, getUserByEmail.
    destruct (loginSchema body) as [loginData|]; [|exact Hc].
    cbn [bind run].
    destruct (find _ _) as [u|] eqn:Hfind; [|exact Hc].
    destruct (String.eqb _ _); [|exact Hc]. cbn [bind run fst snd].
    intros user Huser. injection Huser as <-. exists u.
    split; [|reflexivity].
    apply find_some in Hfind as [Hin _].
    apply value_has_key in Hin as [k Hin].
    cbn [without_password wp_id].
    rewrite (user_under_id L _ _ Hin).
    apply dense_lookup; [|exact Hin].
    rewrite (user_keys_dense L). apply NoDup_ids_from.
  - (* logout *)
    intros user Huser. discriminate.
  - (* me *)
    unfold get_me, isAuthenticated. destruct session; exact Hc.
  - exact Hc.
  - exact Hc.
  - eapply current_same_users; [exact Hc|].
    apply (users_after_money (Transfer now1 now2 (wp_id user) body) Hs).
    now eexists.
  - eapply current_same_users; [exact Hc|].
    apply (users_after_money (Deposit now (wp_id user) body) Hs).
    now eexists.
  - eapply current_same_users; [exact Hc|].
    apply (users_after_money (Withdrawal now (wp_id user) body) Hs).
    now eexists.
  - (* profile *)
    unfold put_profile, isAuthenticated.
    destruct session as [user|]; [|exact Hc].
    destruct (updateProfileSchema body) as [profileData|]; [|exact Hc].
    unfold reply, await. cbn [bind run].
    destruct (Hc user eq_refl) as (stored & Hget & Hwp).
    destruct (updateUser_hit (wp_id user) (profile_fields profileData) s
                Hget) as (Hfst & Hget' & _).
    destruct (updateUser (wp_id user) (profile_fields profileData) s)
      as [updated s1].
    cbn [fst snd] in *. subst updated. cbn [run fst snd].
    intros user' Huser. injection Huser as <-.
    exists (spread_user stored (profile_fields profileData)).
    split; [|reflexivity].
    cbn [without_password wp_id spread_user user_id].
    rewrite <- Hwp in Hget'. exact Hget'.
  - (* password *)
    eapply current_kept; [exact Hc|]. intros k u Hget.
    unfold password_route.
    destruct (changePasswordSchema body) as [passwordData|];
      [|now exists u].
    unfold await, respond, getUserById. cbn [bind run].
    destruct (map_get (users s) (wp_id user)) as [stored|] eqn:Hstored;
      [|now exists u].
    destruct (negb _); [now exists u|]. cbn [bind run].
    destruct (updateUser_hit (wp_id user)
                (password_only (newPassword passwordData)) s Hstored)
      as (_ & Hget' & Hother & _).
    destruct (updateUser (wp_id user) _ s) as [x s1].
    cbn [fst snd run] in *.
    destruct (Z.eq_dec k (wp_id user)) as [->|Hne].
    + eexists. split; [exact Hget'|].
      assert (u = stored) by congruence. subst u. reflexivity.
    + exists u. split; [|reflexivity]. now rewrite Hother.
Qed.

(** X19.  One client calling any routes one after the other, from a store
    that requests have led to and a session that names a stored user as the
    store has it (or from no session): the session then still names a
    stored user as the store has it, so [GET /api/auth/me] answers with the
    stored user of that id, less the password. *)
Theorem me_shows_stored_user calls : forall session s,
  reachable s \/ interleaved s ->
  session_current session s ->
  let '(_, session', s') := browse calls session s in
  session_current session' s'
  /\ forall user,
       session' = Some user ->
       exists stored,
         fst (getUserById (wp_id user) s') = Some stored
         /\ run (dispatch GetMe session') s'
            = (({| status := 200;
                   json := user_json (without_password stored) |},
                session'), s').
Proof.
  intros session s Hr Hc. apply arrived_layout in Hr.
  assert (H : let '(_, session', s') := browse calls session s in
              session_current session' s').
  { revert session s Hr Hc.
    induction calls as [|call calls IH]; intros session s L Hc;
      [exact Hc|].
    cbn [browse].
    pose proof (dispatch_current call L Hc) as Hc'.
    pose proof (dispatch_layout call session L) as L'.
    destruct (run (dispatch call session) s) as [[r session1] s1].
    cbn [fst snd] in *.
    specialize (IH session1 s1 L' Hc').
    destruct (browse calls session1 s1) as [[rs session2] s2].
    exact IH. }
  destruct (browse calls session s) as [[rs session'] s'].
  split; [exact H|].
  intros user ->. destruct (H user eq_refl) as (stored & Hget & Hwp).
  exists stored. split; [exact Hget|].
  cbn [dispatch get_me isAuthenticated reply run]. now rewrite Hwp.
Qed.
End SessionFacts.

(** ** References between the tables *)

Section References.
Context {N : JSNumber} {Z0 : Zod}.

Lemma handle_extends (req : Request) s :
  consistent s -> extends s (snd (run (handle req) s)).
Proof.
  intros Hs.
  refine (proj2 (stepwise_run keeps_history_refl keeps_history_trans
            (handle_stepwise keeps_history keeps_history_refl
               history_createUser history_updateUser
               history_updateAccountBalance history_createTransaction req)
            s Hs)).
Qed.

Lemma ledger_step (req : Request) s :
  consistent s ->
  exists new,
    ledger (snd (run (handle req) s)) = ledger s ++ new
    /\ forall t k, In t new -> toAccountId t = Some k ->
       k <> tx_accountId t /\ account_of s k <> None.
Proof.
  intros Hs.
  assert (Hsame : forall s', transactions s' = transactions s ->
            exists new,
              ledger s' = ledger s ++ new
              /\ forall t k, In t new -> toAccountId t = Some k ->
                 k <> tx_accountId t /\ account_of s k <> None).
  { intros s' Ht. exists []. unfold ledger. rewrite Ht, app_nil_r.
    split; [reflexivity | intros t k []]. }
  destruct req; cbn [handle].
  - apply Hsame.
    unfold register_route, await, respond, getUserByEmail.
    cbn [bind run]. destruct (find _ _); [reflexivity|]. cbn [bind run].
    assert (Hl : transactions (snd (createUser d1 d2 d3 userData s))
                 = transactions s) by reflexivity.
    destruct (createUser d1 d2 d3 userData s) as [user s'].
    exact Hl.
  - apply Hsame.
    unfold login_route; (destruct (loginSchema body); [|reflexivity]);
      unfold validateUserPassword; cbn;
      (destruct (find _ _) as [u|]; [|reflexivity]);
      destruct (String.eqb _ _); reflexivity.
  - now apply Hsame.
  - now apply Hsame.
  - destruct (status_dec (fst (run (transfer_route now1 now2 userId body) s)))
      as [Hok|Hno];
      [|rewrite transfer_failure by exact Hno; now apply Hsame].
    destruct (transfer_200_inv _ _ _ _ _ Hok)
      as (fa & ta & Hsch & Hfa & Hu & Hta & Hlt).
    destruct (transfer_success now1 now2 Hs Hsch Hfa Hu Hta Hlt)
      as (_ & _ & _ & _ & Hl & _).
    apply transferSchema_Some in Hsch as (_ & _ & Hne).
    eexists. split; [exact Hl|].
    intros t k [<-|[<-|[]]] Hk; cbn in Hk; [|discriminate].
    injection Hk as <-. cbn [tx_accountId]. split; [congruence|].
    rewrite Hta. discriminate.
  - destruct (status_dec (fst (run (deposit_route now userId body) s)))
      as [Hok|Hno];
      [|rewrite deposit_failure by exact Hno; now apply Hsame].
    destruct (deposit_200_inv _ _ _ _ Hok) as (acct & Hsch & Hacct & Hu).
    destruct (deposit_success now Hs Hsch Hacct Hu)
      as (_ & _ & _ & Hl & _).
    eexists. split; [exact Hl|].
    intros t k [<-|[]] Hk. discriminate.
  - destruct (status_dec (fst (run (withdrawal_route now userId body) s)))
      as [Hok|Hno];
      [|rewrite withdrawal_failure by exact Hno; now apply Hsame].
    destruct (withdrawal_200_inv _ _ _ _ Hok)
      as (acct & Hsch & Hacct & Hu & Hgate).
    destruct (withdrawal_success now Hs Hsch Hacct Hu Hgate)
      as (_ & _ & _ & Hl & _).
    eexists. split; [exact Hl|].
    intros t k [<-|[]] Hk. discriminate.
  - apply Hsame.
    unfold profile_route;
      (destruct (updateProfileSchema body); [|reflexivity]); cbn;
      unfold updateUser; destruct (map_get _ _); reflexivity.
  - apply Hsame.
    unfold password_route;
      (destruct (changePasswordSchema body); [|reflexivity]); cbn;
      (destruct (map_get (users s) userId) as [u|]; [|reflexivity]);
      (destruct (negb _); [reflexivity|]); cbn;
      unfold updateUser; destruct (map_get _ _); reflexivity.
Qed.

Lemma serve_to_stored reqs : forall s,
  consistent s -> to_stored s -> to_stored (serve s reqs).
Proof.
  induction reqs as [|req reqs IH]; intros s Hs Q; cbn [serve fold_left];
    [exact Q|].
  apply IH; [apply safe_run; [apply handle_safe | exact Hs]|].
  pose proof (handle_extends req Hs) as Hext.
  destruct (ledger_step req Hs) as (new & Hl & Hnew).
  assert (Hkept : forall k, account_of s k <> None ->
            account_of (snd (run (handle req) s)) k <> None).
  { intros k Hk. destruct (account_of s k) as [a|] eqn:Ha; [|congruence].
    destruct (accounts_stay Hext _ Ha) as (a' & Ha' & _).
    rewrite Ha'. discriminate. }
  intros t k Hin Hk. rewrite Hl in Hin.
  apply in_app_or in Hin as [Hin|Hin].
  - destruct (Q t k Hin Hk) as [Hne Hst]. split; [exact Hne | now apply Hkept].
  - destruct (Hnew t k Hin Hk) as [Hne Hst].
    split; [exact Hne | now apply Hkept].
Qed.

(** X20.  In every reachable store the references of the schema hold: the
    user of each account is a stored user; the user and the account of each
    ledger entry are stored, and so is the destination account an entry
    names, which is never the account the entry is posted against. *)
Theorem references_hold s :
  reachable s ->
  referenced s
  /\ forall t k, In t (ledger s) -> toAccountId t = Some k ->
     k <> tx_accountId t.
Proof.
  intros Hr. pose proof (reachable_layout Hr) as L.
  pose proof (reachable_consistent Hr) as Hs.
  assert (P : posted_to_owner s).
  { destruct Hr as [reqs ->]. apply serve_owner.
    - apply new_MemStorage_consistent.
    - intros t []. }
  assert (Q : to_stored s).
  { destruct Hr as [reqs ->]. apply serve_to_stored.
    - apply new_MemStorage_consistent.
    - intros t k []. }
  assert (Howner : forall k a, In (k, a) (accounts s) ->
            map_get (users s) (account_userId a) <> None).
  { intros k a Hin.
    destruct (account_under_id L _ _ Hin) as (_ & Ho & _).
    assert (Hk : In k (keys (accounts s))) by apply (in_map fst _ _ Hin).
    rewrite (account_keys_dense L), In_ids_from, (three_each L) in Hk.
    pose proof (dense_get (users s) (account_userId a) (user_keys_dense L))
      as [_ Hd].
    destruct Hd as [u ->]; [|discriminate].
    rewrite Ho. Z.div_mod_to_equations. lia. }
  split; [split|].
  - intros a Hin. apply value_has_key in Hin as [k Hin].
    unfold getUserById. cbn [fst]. now apply (Howner k).
  - intros t Hin. destruct (P t Hin) as (a & Ha & Ho).
    unfold getUserById. cbn [fst]. rewrite <- Ho.
    apply (Howner (tx_accountId t)). now apply map_get_In.
  - intros t Hin. destruct (P t Hin) as (a & Ha & _).
    unfold getAccountById. cbn [fst]. unfold account_of in Ha.
    rewrite Ha. discriminate.
  - intros t k Hin Hk. apply (Q t k Hin Hk).
  - intros t k Hin Hk. apply (Q t k Hin Hk).
Qed.
End References.

(** ** The further properties on concrete stores *)

Lemma two_customers_reachable : reachable (Z0 := AtSign) two_customers.
Proof.
  exists [Register ("1A2B3C4D"%string, 1000) ("5E6F7A8B"%string, 1000)
                   ("9C0D1E2F"%string, 1000) alice;
          Register ("0F1E2D3C"%string, 2000) ("4B5A6978"%string, 2000)
                   ("8796A5B4"%string, 2000) bob].
  reflexivity.
Qed.

(* Bob registers after Alice. *)
Lemma register_provisions_witness :
  let d1 := ("0F1E2D3C"%string, 2000) in
  let d2 := ("4B5A6978"%string, 2000) in
  let d3 := ("8796A5B4"%string, 2000) in
  let out := run (register_route d1 d2 d3 bob) one_customer in
  status (fst out) = 201
  /\ List.length (accounts (snd out)) = 6%nat
  /\ userIdCounter (snd out) = 3
  /\ accountIdCounter (snd out) = 7.
Proof.
  intros d1 d2 d3 out.
  destruct (register_provisions d1 d2 d3 bob one_customer_consistent)
    as [_ Hnew].
  destruct Hnew as (Hr & _ & Ha & _ & Hu & Hc).
  { vm_compute. intros [H|[]]. discriminate. }
  fold out in Hr, Ha, Hu, Hc.
  split; [now rewrite Hr|].
  split; [|split; [exact Hu | exact Hc]].
  unfold map_values in Ha. apply (f_equal (@List.length _)) in Ha.
  rewrite length_map in Ha. rewrite Ha. reflexivity.
Defined.

(* Bob registers and logs in. *)
Lemma register_then_login_witness :
  let d1 := ("0F1E2D3C"%string, 2000) in
  let d2 := ("4B5A6978"%string, 2000) in
  let d3 := ("8796A5B4"%string, 2000) in
  let s' := snd (run (register_route d1 d2 d3 bob) one_customer) in
  let body := {| lb_email := "bob@example.com";
                 lb_password := "battery staple" |} in
  status (fst (run (login_route (Z0 := AtSign) body) s')) = 200.
Proof.
  intros d1 d2 d3 s' body.
  assert (Hnew : ~ In (iu_email bob) (emails one_customer))
    by (vm_compute; intros [H|[]]; discriminate).
  destruct (register_then_login (Z0 := AtSign) d1 d2 d3 bob
              one_customer_consistent Hnew) as [_ H].
  change (fst (run (login_route (Z0 := AtSign) body) s'))
    with (fst (run (login_route (Z0 := AtSign)
                      {| lb_email := iu_email bob;
                         lb_password := iu_password bob |})
                   (snd (run (register_route d1 d2 d3 bob) one_customer)))).
  rewrite H. reflexivity.
Defined.

(* Seven characters are too few for a new password, though they are nine
   bytes: the handler answers 400 and keeps the old password. *)
Lemma short_password_refused :
  let body := {| currentPassword := "correct horse";
                 newPassword := seven_characters;
                 confirmPassword := seven_characters |} in
  String.length seven_characters = 9%nat
  /\ js_length seven_characters = 7%nat
  /\ changePasswordSchema body = None
  /\ run (password_route 1 body) one_customer
     = ({| status := 400; json := validation_error |}, one_customer).
Proof. repeat split. Qed.

(* Alice changes her password to one of eight characters, two of them
   outside ASCII; the old one no longer opens her account. *)
Lemma password_change_round_trip_witness :
  let body := {| currentPassword := "correct horse";
                 newPassword := (seven_characters ++ "d")%string;
                 confirmPassword := (seven_characters ++ "d")%string |} in
  let s' := snd (run (password_route 1 body) one_customer) in
  fst (run (validateUserPassword "alice@example.com" "correct horse") s')
  = None.
Proof.
  intros body s'.
  assert (Hnd : NoDup (emails one_customer))
    by (vm_compute; repeat constructor; intros []).
  pose (user := {| user_id := 1; firstName := "Alice";
                   lastName := "Archer"; email := "alice@example.com";
                   password := "correct horse";
                   phone := None; address := None |}).
  destruct (password_change_round_trip 1 (body := body) one_customer
              (user := user) Hnd eq_refl eq_refl eq_refl) as [_ H].
  apply H. discriminate.
Defined.

Lemma found_under_own_id_witness :
  map tx_id (ledger after_instant_transfer) = [1; 2].
Proof.
  destruct (found_under_own_id (or_introl after_instant_transfer_reachable))
    as (_ & _ & _ & H & _).
  rewrite H. reflexivity.
Defined.

(* The accounts of Bob, the second user. *)
Lemma three_accounts_each_witness :
  map account_id (fst (getAccountsByUserId 2 two_customers)) = [4; 5; 6].
Proof.
  destruct (three_accounts_each 2 (or_introl two_customers_reachable))
    as (_ & H & _).
  destruct H as (a1 & a2 & a3 & He & I1 & I2 & I3 & _);
    [vm_compute; discriminate|].
  rewrite He. cbn [map]. rewrite I1, I2, I3. reflexivity.
Defined.

Lemma nothing_is_lost_witness :
  extends one_customer after_instant_transfer.
Proof.
  exact (proj1 (nothing_is_lost (Z0 := AtSign) [instant_transfer] []
                  one_customer_consistent)).
Defined.

Lemma entries_name_their_owner_witness :
  posted_to_owner after_instant_transfer.
Proof.
  exact (proj1 (entries_name_their_owner after_instant_transfer_reachable)).
Defined.

Lemma after_loose_change_reachable :
  reachable (Z0 := AtSign) after_loose_change.
Proof. exists loose_change. reflexivity. Qed.

(* The credit account after deposits of 0.10 and 0.20, in binary64: the
   ledger replays the balance, residue included. *)
Lemma ledger_accounts_for_balances_witness :
  let acct := {| account_id := 3; account_userId := 1;
                 account_type := "credit"; accountNumber := "9C0D1E2F";
                 balance := (S754_finite false 5404319552844596 (-54)
                             : @num Binary64);
                 createdAt := 1000 |} in
  balance acct
  = replay (ledger after_loose_change) 3
      (fromInt (opening (account_type acct))).
Proof.
  intros acct.
  assert (Hacct : account_of after_loose_change 3 = Some acct)
    by reflexivity.
  exact (ledger_accounts_for_balances 3 after_loose_change_reachable Hacct).
Defined.

(* Two withdrawals of 2000.00 from the 2500.00 of Alice's checking
   account leave it at -1500.00. *)
Lemma overdraft_by_interleaving_witness :
  let body1 := {| wb_accountId := 1; wb_amount := "2000.00";
                  wb_description := "rent" |} in
  let body2 := {| wb_accountId := 1; wb_amount := "2000.00";
                  wb_description := "car" |} in
  let pool := [withdrawal_route 7000 1 body1;
               withdrawal_route 7001 1 body2] in
  balance_of (snd (schedule [0; 1; 0; 1; 0; 1]%nat pool one_customer)) 1
  = Some (-150000).
Proof.
  intros body1 body2 pool.
  pose (acct := {| account_id := 1; account_userId := 1;
                   account_type := "checking"; accountNumber := "1A2B3C4D";
                   balance := (250000 : @num Cents); createdAt := 1000 |}).
  assert (Hv1 : withdrawalSchema (N := Cents) body1 = Some body1)
    by reflexivity.
  assert (Hv2 : withdrawalSchema (N := Cents) body2 = Some body2)
    by reflexivity.
  destruct (overdraft_by_interleaving 7000 7001 (userId := 1)
              (acct := acct) one_customer_consistent Hv1 Hv2
              eq_refl eq_refl eq_refl eq_refl eq_refl) as (_ & H & _).
  exact H.
Defined.

Lemma double_registration_witness :
  let d := ("1A2B3C4D"%string, 1000) in
  let pool := [register_route d d d alice; register_route d d d alice] in
  emails (snd (schedule [0; 1; 0; 1]%nat pool (@new_MemStorage Cents)))
  = ["alice@example.com"%string; "alice@example.com"%string].
Proof.
  intros d pool.
  assert (Hnew : ~ In (iu_email alice) (emails (@new_MemStorage Cents)))
    by (intros []).
  destruct (double_registration d d d d d d alice alice
              (new_MemStorage_consistent (N := Cents)) Hnew eq_refl)
    as [_ H].
  exact H.
Defined.

(* 100.00 into Alice's checking account and out again, with the numbers
   of the runtime. *)
Lemma deposit_then_withdrawal_witness :
  let dbody := {| db_accountId := 1; db_amount := "100.00";
                  db_description := "in" |} in
  let wbody := {| wb_accountId := 1; wb_amount := "100.00";
                  wb_description := "out" |} in
  let out1 := run (deposit_route 3000 1 dbody) one_customer64 in
  let out2 := run (withdrawal_route 3001 1 wbody) (snd out1) in
  Ok (fst out2) /\ balance_of (snd out2) 1 = Some (Float64.ofZ 2500).
Proof.
  intros dbody wbody out1 out2.
  assert (Hd : depositSchema (N := Binary64) dbody = Some dbody)
    by reflexivity.
  assert (Hw : withdrawalSchema (N := Binary64) wbody = Some wbody)
    by reflexivity.
  destruct (deposit_then_withdrawal (Z0 := AtSign) 3000 3001
              (userId := 1) one_customer64_consistent Hd Hw
              eq_refl eq_refl checking_account64 eq_refl eq_refl)
    as (_ & Hok & H & _).
  split; [exact Hok|].
  exact (balance_of_account _ _ H).
Defined.

(* The debit leg of the transfer is in Alice's listing. *)
Lemma transfer_in_listings_witness :
  let debit :=
    {| tx_id := 1; tx_userId := 1; tx_accountId := 1;
       tx_type := "transfer"; amount := (-50000 : @num Cents);
       description := "rainy day"; date := 5000;
       toAccountId := Some 2 |} in
  In debit (fst (getTransactionsByUserId 1 after_instant_transfer)).
Proof.
  intros debit.
  pose (body := {| tb_fromAccountId := 1; tb_toAccountId := 2;
                   tb_amount := "500.00";
                   tb_description := "rainy day" |}).
  pose (fa := {| account_id := 1; account_userId := 1;
                 account_type := "checking"; accountNumber := "1A2B3C4D";
                 balance := (250000 : @num Cents); createdAt := 1000 |}).
  pose (ta := {| account_id := 2; account_userId := 1;
                 account_type := "savings"; accountNumber := "5E6F7A8B";
                 balance := (1000000 : @num Cents); createdAt := 1000 |}).
  assert (Hv : transferSchema (N := Cents) body = Some body)
    by reflexivity.
  apply (proj2 (transfer_in_listings 5000 5000 (userId := 1) (fa := fa)
                  (ta := ta) one_customer_consistent Hv eq_refl eq_refl
                  eq_refl eq_refl 1 debit)).
  right. left. split; reflexivity.
Defined.

Lemma account_number_format_witness :
  String.length
    (generateAccountNumber [Byte.x1a; Byte.x2b; Byte.x3c; Byte.x4d])
  = 8%nat.
Proof.
  exact (proj1 (account_number_format
                  [Byte.x1a; Byte.x2b; Byte.x3c; Byte.x4d] eq_refl)).
Defined.

(* Alice logs out, then asks for her accounts and tries a deposit. *)
Lemma logged_out_is_refused_witness :
  let session :=
    Some {| wp_id := 1; wp_firstName := "Alice"; wp_lastName := "Archer";
            wp_email := "alice@example.com";
            wp_phone := None; wp_address := None |} in
  let calls :=
    [GetAccounts;
     PostDeposit 3000 {| db_accountId := 1; db_amount := "100.00";
                         db_description := "in" |}] in
  snd (browse (Z0 := AtSign) (PostLogout :: calls) session one_customer)
  = one_customer.
Proof.
  intros session calls.
  rewrite (logged_out_is_refused (Z0 := AtSign) calls session one_customer
             eq_refl).
  reflexivity.
Defined.

(* Alice, logged in, asks for 100.00 out of Bob's checking account. *)
Lemma session_confines_the_caller_witness :
  let session :=
    Some {| wp_id := 1; wp_firstName := "Alice"; wp_lastName := "Archer";
            wp_email := "alice@example.com";
            wp_phone := None; wp_address := None |} in
  let call := PostWithdrawal 6000 {| wb_accountId := 4;
                                     wb_amount := "100.00";
                                     wb_description := "mine now" |} in
  account_of (snd (run (dispatch (Z0 := AtSign) call session)
                       two_customers)) 4
  = account_of two_customers 4.
Proof.
  intros session call.
  pose (acct := {| account_id := 4; account_userId := 2;
                   account_type := "checking"; accountNumber := "0F1E2D3C";
                   balance := (250000 : @num Cents); createdAt := 2000 |}).
  assert (Hacct : account_of two_customers 4 = Some acct) by reflexivity.
  assert (Hforeign : forall user,
            session = Some user -> account_userId acct <> wp_id user).
  { intros user Heq. injection Heq as <-. discriminate. }
  destruct (proj1 (session_confines_the_caller (Z0 := AtSign) call session
                     two_customers_consistent) 4 acct Hacct Hforeign)
    as [H|(now1 & now2 & body & Hcall & _)].
  - now rewrite H.
  - discriminate.
Defined.

(* Alice registers, then edits her profile. *)
Lemma me_shows_stored_user_witness :
  let calls :=
    [PostRegister ("1A2B3C4D"%string, 1000) ("5E6F7A8B"%string, 1000)
                  ("9C0D1E2F"%string, 1000) alice;
     PutProfile {| pb_firstName := "Alice"; pb_lastName := "Abbot";
                   pb_email := "alice@example.com";
                   pb_phone := None; pb_address := None |}] in
  let '(_, session', s') :=
    browse (Z0 := AtSign) calls None (@new_MemStorage Cents) in
  session_current session' s'
  /\ forall user,
       session' = Some user ->
       exists stored,
         fst (getUserById (wp_id user) s') = Some stored
         /\ run (dispatch (Z0 := AtSign) GetMe session') s'
            = (({| status := 200;
                   json := user_json (without_password stored) |},
                session'), s').
Proof.
  intros calls.
  assert (Hr : reachable (Z0 := AtSign) (@new_MemStorage Cents))
    by (exists []; reflexivity).
  assert (Hc : session_current None (@new_MemStorage Cents))
    by (intros user H; discriminate).
  exact (me_shows_stored_user (Z0 := AtSign) calls (or_introl Hr) Hc).
Defined.

Lemma references_hold_witness : referenced after_instant_transfer.
Proof.
  exact (proj1 (references_hold after_instant_transfer_reachable)).
Defined.
